(** * CommWatch: framing codecs, CRC primitives and the CAN adapter

    A shallow embedding of the codec and transport code of CommWatch
    (packages/decoders, packages/proto-core/src/utils/crc.ts,
    packages/transports-uart/src/uart-simulator.ts and
    packages/transports-can/src/can-adapter.ts), followed by the theorems
    that relate it to the written specification.

    Conventions.  A JavaScript number that holds an integer is a [Z]; a
    [Uint8Array] is a [list Z] whose elements lie in [0, 256) (predicate
    [bytes]); array indices and lengths are [nat].  The bitwise operators
    of JavaScript work on 32-bit integers and are written out with their
    wrap-around in module [JS]. *)

From Stdlib Require Import ZArith List Lia String DecimalString HexadecimalString.
From Stdlib Require Import Ascii HexadecimalN HexadecimalPos QArith.
From stdpp Require Import base list strings numbers.

Local Open Scope string_scope.
Local Open Scope list_scope.
Local Open Scope Z_scope.

(* ================================================================== *)
(** ** JavaScript integer operators and typed arrays *)
(* ================================================================== *)

Module JS.

(** ToUint32 and ToInt32 of ECMAScript, on integral numbers. *)
Definition to_uint32 (x : Z) : Z := x mod 2 ^ 32.

Definition to_int32 (x : Z) : Z :=
  let u := x mod 2 ^ 32 in
  if u <? 2 ^ 31 then u else u - 2 ^ 32.

(** Shift counts are taken modulo 32. *)
Definition shift_count (n : Z) : Z := to_uint32 n mod 32.

(** [a & b], [a | b], [a ^ b]: both operands go through ToInt32 and the
    result is an int32. *)
Definition band (a b : Z) : Z := to_int32 (Z.land (to_int32 a) (to_int32 b)).
Definition bor (a b : Z) : Z := to_int32 (Z.lor (to_int32 a) (to_int32 b)).
Definition bxor (a b : Z) : Z := to_int32 (Z.lxor (to_int32 a) (to_int32 b)).

(** [a << n], [a >> n] (sign-propagating) and [a >>> n] (zero-fill). *)
Definition shl (a n : Z) : Z := to_int32 (Z.shiftl (to_int32 a) (shift_count n)).
Definition shr (a n : Z) : Z := Z.shiftr (to_int32 a) (shift_count n).
Definition ushr (a n : Z) : Z := Z.shiftr (to_uint32 a) (shift_count n).

(** Conversions performed by a store into a [Uint8Array] or a
    [Uint16Array]. *)
Definition to_uint8 (x : Z) : Z := x mod 2 ^ 8.
Definition to_uint16 (x : Z) : Z := x mod 2 ^ 16.

(** [!!x] on a number. *)
Definition truthy (x : Z) : bool := negb (x =? 0).

(** [n.toString()] and [n.toString(16)] for an integer [n]; the code
    only prints non-negative numbers in base 16. *)
Definition toString (n : Z) : string :=
  DecimalString.NilZero.string_of_int (Z.to_int n).
Definition toString16 (n : Z) : string :=
  HexadecimalString.NilZero.string_of_uint (N.to_hex_uint (Z.to_N n)).

(** [a.length] as a number. *)
Definition len (a : list Z) : Z := Z.of_nat (length a).

(** [a[i]] for an index that the surrounding code has tested to be in
    range; every read in the embedded functions is guarded by such a
    test, so the default is not observed. *)
Definition get (a : list Z) (i : nat) : Z := default 0 (a !! i).

(** The same read with the index held in a number. *)
Definition getZ (a : list Z) (i : Z) : Z :=
  if i <? 0 then 0 else get a (Z.to_nat i).

(** [new Uint8Array(n)], [new Uint8Array(values)], and [a[i] = v] on a
    typed array (a store past the end is ignored, as stdpp's insert). *)
Definition Uint8Array_new (n : nat) : list Z := replicate n 0.
Definition Uint8Array_of (values : list Z) : list Z := map to_uint8 values.
Definition store (a : list Z) (i : nat) (v : Z) : list Z := <[i := to_uint8 v]> a.

(** [a.set(src, off)], for a source that fits. *)
Definition set (a src : list Z) (off : nat) : list Z :=
  list_inserts off (map to_uint8 src) a.

(** [a.slice(b, e)] for [0 <= b]; [e] is clipped to the length. *)
Definition slice (a : list Z) (b e : nat) : list Z := take (e - b) (drop b a).

(** The invariant of a [Uint8Array]. *)
Definition byte (b : Z) : Prop := 0 <= b < 256.
Definition bytes (a : list Z) : Prop := Forall byte a.

End JS.

(* ================================================================== *)
(** ** packages/proto-core/src/utils/crc.ts *)
(* ================================================================== *)

Module CRCCalculator.
Import JS.

(** One round of the inner loop of the static initialiser. *)
Definition table_round (crc : Z) : Z :=
  if truthy (band crc 0x8000) then bxor (shl crc 1) 0x1021 else shl crc 1.

Definition table_entry (i : Z) : Z :=
  to_uint16 (band (Nat.iter 8 table_round (shl i 8)) 0xFFFF).

Definition CRC16_CCITT_FALSE_TABLE : list Z :=
  map (fun i => table_entry (Z.of_nat i)) (seq 0 256).

Definition crc16_step (crc byte : Z) : Z :=
  let index := band (bxor (shr crc 8) byte) 0xFF in
  band (bxor (shl crc 8) (getZ CRC16_CCITT_FALSE_TABLE index)) 0xFFFF.

Definition crc16CcittFalse (data : list Z) : Z :=
  fold_left crc16_step data 0xFFFF.

Definition crc32_round (crc : Z) : Z :=
  bxor (ushr crc 1) (band 0xEDB88320 (- (band crc 1))).

Definition crc32_step (crc byte : Z) : Z :=
  Nat.iter 8 crc32_round (bxor crc byte).

Definition crc32 (data : list Z) : Z :=
  ushr (bxor (fold_left crc32_step data 0xFFFFFFFF) 0xFFFFFFFF) 0.

Definition checksum8 (data : list Z) : Z :=
  fold_left (fun sum byte => band (sum + byte) 0xFF) data 0.

Definition verifyCrc16CcittFalse (data : list Z) (expectedCrc : Z) : bool :=
  crc16CcittFalse data =? expectedCrc.

End CRCCalculator.

(* ================================================================== *)
(** ** packages/proto-core/src/types/protocol.ts *)
(* ================================================================== *)

(** The dynamically typed [value] slot of a frame field.  [VFixed3 n]
    stands for the string [((n / 4095.0) * 3.3).toFixed(3)] of the ADC
    sub-decoder: the floating-point rendering is kept symbolic. *)
Inductive FieldValue : Type :=
  | VNumber (n : Z)
  | VBytes (b : list Z)
  | VBool (b : bool)
  | VString (s : string)
  | VFixed3 (n : Z).

Inductive FieldType : Type :=
  | uint8 | uint16 | uint32 | int8 | int16 | int32 | float | string_t | bytes_t.

Module FrameField.
(** The optional [scaling] factor is a floating-point constant and is
    left out. *)
Record t : Type := mk {
  name : string;
  value : FieldValue;
  type : FieldType;
  raw : list Z;
  offset : Z;
  unit : option string;
}.
End FrameField.

Module ChecksumInfo.
Record t : Type := mk {
  type : string;
  expected : Z;
  calculated : Z;
  valid : bool;
}.
End ChecksumInfo.

Module DecodedFrame.
Record t : Type := mk {
  protocol : string;
  fields : list FrameField.t;
  checksum : option ChecksumInfo.t;
  metadata : list (string * FieldValue);
}.
End DecodedFrame.

Inductive Severity : Type := warning | error.

Module FrameError.
Record t : Type := mk {
  code : string;
  message : string;
  severity : Severity;
}.
End FrameError.

(** The result of a call that may throw. *)
Inductive outcome (A : Type) : Type :=
  | Returns (a : A)
  | Throws (msg : string).
Arguments Returns {A} a.
Arguments Throws {A} msg.

(** [fields.find(f => f.name === n)]. *)
Definition find_field (n : string) (fields : list FrameField.t) : option FrameField.t :=
  List.find (fun f => String.eqb (FrameField.name f) n) fields.

(* ================================================================== *)
(** ** packages/decoders/src/efuse-decoder.ts *)
(* ================================================================== *)

Module EFuseDecoder.
Import JS.

Definition START_MARKER : Z := 0xAA.
Definition END_MARKER : Z := 0xBB.
Definition MIN_FRAME_LENGTH : Z := 7.

Definition decodeAdcPayload (payload : list Z) : list FrameField.t :=
  if len payload <? 2 then [] else
  let rawValue := bor (shl (get payload 0) 8) (get payload 1) in
  [ FrameField.mk "adc_raw" (VNumber rawValue) uint16 (slice payload 0 2) 0 None;
    FrameField.mk "voltage" (VFixed3 rawValue) float (slice payload 0 2) 0 (Some "V") ].

Definition decodeStatusPayload (payload : list Z) : list FrameField.t :=
  if len payload <? 1 then [] else
  let status := get payload 0 in
  [ FrameField.mk "status" (VNumber status) uint8 (slice payload 0 1) 0 None;
    FrameField.mk "ready" (VBool (truthy (band status 0x01))) uint8 (slice payload 0 1) 0 None;
    FrameField.mk "error" (VBool (truthy (band status 0x02))) uint8 (slice payload 0 1) 0 None ].

Definition decodeConfigPayload (payload : list Z) : list FrameField.t :=
  if len payload <? 4 then [] else
  [ FrameField.mk "config_value"
      (VNumber (bor (bor (bor (shl (get payload 0) 24) (shl (get payload 1) 16))
                         (shl (get payload 2) 8)) (get payload 3)))
      uint32 (slice payload 0 4) 0 None ].

Definition decodePayload (type : Z) (payload : list Z) : option (list FrameField.t) :=
  if type =? 0x01 then Some (decodeAdcPayload payload)
  else if type =? 0x02 then Some (decodeStatusPayload payload)
  else if type =? 0x03 then Some (decodeConfigPayload payload)
  else None.

Definition decode (raw : list Z) : option DecodedFrame.t :=
  if len raw <? MIN_FRAME_LENGTH then None
  else if negb (get raw 0 =? START_MARKER)
          || negb (get raw (length raw - 1) =? END_MARKER) then None
  else
    let type := get raw 1 in
    let payloadLength := bor (shl (get raw 2) 8) (get raw 3) in
    let expectedLength := 1 + 1 + 2 + payloadLength + 2 + 1 in
    if negb (len raw =? expectedLength) then None
    else
      let payloadStart := 4 in
      let payloadEnd := payloadStart + payloadLength in
      let payload := slice raw (Z.to_nat payloadStart) (Z.to_nat payloadEnd) in
      let crcExpected := bor (shl (getZ raw payloadEnd) 8) (getZ raw (payloadEnd + 1)) in
      let crcData := slice raw 1 (Z.to_nat payloadEnd) in
      let crcCalculated := CRCCalculator.crc16CcittFalse crcData in
      let crcValid := crcExpected =? crcCalculated in
      let fields :=
        [ FrameField.mk "type" (VNumber type) uint8 (slice raw 1 2) 1 None;
          FrameField.mk "length" (VNumber payloadLength) uint16 (slice raw 2 4) 2 None;
          FrameField.mk "payload" (VBytes payload) bytes_t payload 4 None ] in
      let fields :=
        match decodePayload type payload with
        | Some decodedPayload => fields ++ decodedPayload
        | None => fields
        end in
      let checksum :=
        ChecksumInfo.mk "crc16-ccitt-false" crcExpected crcCalculated crcValid in
      Some (DecodedFrame.mk "efuse" fields (Some checksum)
              [("type", VNumber type); ("payloadLength", VNumber payloadLength)]).

(** [encode] reads the two values through unchecked casts; a field
    list whose [type] is not a number or whose [payload] is not a byte
    array is outside the declared types and is reported here as a
    throw of its own. *)
Definition encode (fields : list FrameField.t) : outcome (list Z) :=
  match find_field "type" fields, find_field "payload" fields with
  | Some typeField, Some payloadField =>
      match FrameField.value typeField, FrameField.value payloadField with
      | VNumber type, VBytes payload =>
          let payloadLength := len payload in
          let frameLength := (1 + 1 + 2 + length payload + 2 + 1)%nat in
          let frame := Uint8Array_new frameLength in
          let offset := 0%nat in
          let frame := store frame offset START_MARKER in
          let offset := S offset in
          let frame := store frame offset type in
          let offset := S offset in
          let frame := store frame offset (band (shr payloadLength 8) 0xFF) in
          let offset := S offset in
          let frame := store frame offset (band payloadLength 0xFF) in
          let offset := S offset in
          let frame := set frame payload offset in
          let offset := (offset + length payload)%nat in
          let crcData := slice frame 1 offset in
          let crc := CRCCalculator.crc16CcittFalse crcData in
          let frame := store frame offset (band (shr crc 8) 0xFF) in
          let offset := S offset in
          let frame := store frame offset (band crc 0xFF) in
          let offset := S offset in
          let frame := store frame offset END_MARKER in
          Returns frame
      | _, _ => Throws "ill-typed field value"
      end
  | _, _ => Throws "Missing required fields: type and payload"
  end.

Definition validate (raw : list Z) : option FrameError.t :=
  if len raw <? MIN_FRAME_LENGTH then
    Some (FrameError.mk "FRAME_TOO_SHORT"
            ("Frame too short: " +:+ toString (len raw) +:+ " < " +:+ toString MIN_FRAME_LENGTH)
            error)
  else if negb (get raw 0 =? START_MARKER) then
    Some (FrameError.mk "INVALID_START_MARKER"
            ("Invalid start marker: 0x" +:+ toString16 (get raw 0))
            error)
  else if negb (get raw (length raw - 1) =? END_MARKER) then
    Some (FrameError.mk "INVALID_END_MARKER"
            ("Invalid end marker: 0x" +:+ toString16 (get raw (length raw - 1)))
            error)
  else
    let payloadLength := bor (shl (get raw 2) 8) (get raw 3) in
    let expectedLength := 1 + 1 + 2 + payloadLength + 2 + 1 in
    if negb (len raw =? expectedLength) then
      Some (FrameError.mk "LENGTH_MISMATCH"
              ("Length mismatch: expected " +:+ toString expectedLength
                 +:+ ", got " +:+ toString (len raw))
              error)
    else
      let payloadEnd := 4 + payloadLength in
      let crcExpected := bor (shl (getZ raw payloadEnd) 8) (getZ raw (payloadEnd + 1)) in
      let crcData := slice raw 1 (Z.to_nat payloadEnd) in
      let crcCalculated := CRCCalculator.crc16CcittFalse crcData in
      if negb (crcExpected =? crcCalculated) then
        Some (FrameError.mk "CRC_MISMATCH"
                ("CRC mismatch: expected 0x" +:+ toString16 crcExpected
                   +:+ ", calculated 0x" +:+ toString16 crcCalculated)
                error)
      else None.

End EFuseDecoder.

(* ================================================================== *)
(** ** packages/decoders/src/cobs-decoder.ts *)
(* ================================================================== *)

Module COBSDecoder.
Import JS.

(** The loop state of [cobsEncode]: the growing [number[]] and the two
    locals. *)
Record enc_state : Type := mk_enc {
  result : list Z;
  codeIndex : nat;
  code : Z;
}.

(** The body of [for (const byte of data)].  [result[codeIndex] = code]
    always hits an existing slot (lemma [enc_loop_inv] below), where
    a JavaScript array and stdpp's insert agree. *)
Definition enc_body (st : enc_state) (byte : Z) : enc_state :=
  if byte =? 0 then
    let result := <[codeIndex st := code st]> (result st) in
    let codeIndex := length result in
    let result := result ++ [0] in
    mk_enc result codeIndex 1
  else
    let result := result st ++ [byte] in
    let code := code st + 1 in
    if code =? 0xFF then
      let result := <[codeIndex st := code]> result in
      let codeIndex := length result in
      let result := result ++ [0] in
      mk_enc result codeIndex 1
    else mk_enc result (codeIndex st) code.

Definition cobsEncode (data : list Z) : list Z :=
  let st := fold_left enc_body data (mk_enc [0] 0%nat 1) in
  Uint8Array_of (<[codeIndex st := code st]> (result st)).

(** [for (let j = 1; j < code && i < data.length; j++)
       result.push(data[i++])]: at most [n = code - 1] rounds. *)
Fixpoint dec_copy (data : list Z) (n : nat) (i : nat) (result : list Z)
  : nat * list Z :=
  match n with
  | O => (i, result)
  | S n' =>
      if (i <? length data)%nat
      then dec_copy data n' (S i) (result ++ [get data i])
      else (i, result)
  end.

(** [while (i < data.length) { ... }].  Every round advances [i], so
    [length data] rounds of fuel are enough ([dec_loop_fuel] below);
    running out of fuel is kept apart from the [null] of the source
    by the outer option. *)
Fixpoint dec_loop (fuel : nat) (data : list Z) (i : nat) (result : list Z)
  : option (option (list Z)) :=
  if (i <? length data)%nat then
    match fuel with
    | O => None
    | S fuel' =>
        let code := get data i in
        let i := S i in
        if code =? 0 then Some None
        else
          let '(i, result) := dec_copy data (Z.to_nat (code - 1)) i result in
          let result :=
            if (code <? 0xFF) && (i <? length data)%nat
            then result ++ [0] else result in
          dec_loop fuel' data i result
    end
  else Some (Some (Uint8Array_of result)).

Definition cobsDecode (data : list Z) : option (list Z) :=
  match dec_loop (length data) data 0%nat [] with
  | Some r => r
  | None => None
  end.

End COBSDecoder.

(* ================================================================== *)
(** ** packages/decoders/src/slip-decoder.ts *)
(* ================================================================== *)

Module SLIPDecoder.
Import JS.

Definition END : Z := 0xC0.
Definition ESC : Z := 0xDB.
Definition ESC_END : Z := 0xDC.
Definition ESC_ESC : Z := 0xDD.

Definition enc_body (result : list Z) (byte : Z) : list Z :=
  if byte =? END then result ++ [ESC; ESC_END]
  else if byte =? ESC then result ++ [ESC; ESC_ESC]
  else result ++ [byte].

Definition slipEncode (data : list Z) : list Z :=
  let result := fold_left enc_body data [] in
  let result := result ++ [END] in
  Uint8Array_of result.

(** [for (const byte of data)] with its [break] and its early
    [return null]; the arguments after the remaining input are the
    locals [result] and [escaped]. *)
Fixpoint dec_loop (data : list Z) (result : list Z) (escaped : bool)
  : option (list Z) :=
  match data with
  | [] => Some (Uint8Array_of result)
  | byte :: rest =>
      if byte =? END then Some (Uint8Array_of result)
      else if escaped then
        if byte =? ESC_END then dec_loop rest (result ++ [END]) false
        else if byte =? ESC_ESC then dec_loop rest (result ++ [ESC]) false
        else None
      else if byte =? ESC then dec_loop rest result true
      else dec_loop rest (result ++ [byte]) false
  end.

Definition slipDecode (data : list Z) : option (list Z) :=
  dec_loop data [] false.

End SLIPDecoder.

(* ================================================================== *)
(** ** packages/transports-uart/src/uart-simulator.ts *)
(* ================================================================== *)

Module UARTSimulator.
Import JS.

Definition crc_round (crc : Z) : Z :=
  if truthy (band crc 0x8000) then bxor (shl crc 1) 0x1021 else shl crc 1.

Definition crc_step (crc byte : Z) : Z :=
  Nat.iter 8 crc_round (bxor crc (shl byte 8)).

Definition calculateCrc16 (data : list Z) : Z :=
  band (fold_left crc_step data 0xFFFF) 0xFFFF.

Section SampleFrame.
(** [Math.floor(Math.sin(sequence / 10) * 500)]: floating point, taken
    as given. *)
Variable floor_sin_500 : Z -> Z.

Definition generateSampleFrame (sequence : Z) : list Z :=
  let adcValue := 2048 + floor_sin_500 sequence in
  let payload := Uint8Array_of [band (shr adcValue 8) 0xFF; band adcValue 0xFF] in
  let type := 0x01 in
  let length := 2 in
  let crcData := Uint8Array_of ([type; 0x00; length] ++ payload) in
  let crc := calculateCrc16 crcData in
  Uint8Array_of
    ([0xAA; type; 0x00; length] ++ payload
       ++ [band (shr crc 8) 0xFF; band crc 0xFF; 0xBB]).
End SampleFrame.

End UARTSimulator.

(* ================================================================== *)
(** ** packages/transports-can/src/can-adapter.ts *)
(* ================================================================== *)

Module CanFilter.
Record t : Type := mk {
  id : Z;
  mask : Z;
  extended : option bool;
}.
End CanFilter.

Module CANMessage.
Record t : Type := mk {
  id : Z;
  ext : bool;
  rtr : bool;
  data : list Z;
}.
End CANMessage.

Module AdapterStats.
(** [uptime] is computed from the wall clock on read and is left out. *)
Record t : Type := mk {
  bytesRx : Z;
  bytesTx : Z;
  messagesRx : Z;
  messagesTx : Z;
  errors : Z;
}.
End AdapterStats.

Inductive Direction : Type := rx | tx.

Module CanMeta.
Record t : Type := mk {
  canId : Z;
  canExt : bool;
  canRtr : bool;
  canDlc : Z;
}.
End CanMeta.

Module RxMeta.
Record t : Type := mk {
  timestamp : Z;
  direction : Direction;
  length : Z;
  transportSpecific : option CanMeta.t;
}.
End RxMeta.

Module CANHandle.
Import JS.

(** The fields of the handle that the listeners and [write] touch.
    Subscribers are named by a number and kept in insertion order, the
    order in which a JavaScript [Set] is iterated. *)
Record t : Type := mk {
  stats : AdapterStats.t;
  readCallbacks : list nat;
  filters : list CanFilter.t;
}.

(** One call [cb(frame, meta)]. *)
Record call : Type := mk_call {
  callback : nat;
  chunk : list Z;
  meta : RxMeta.t;
}.

(** The arrow function given to [this.filters.some]. *)
Definition filter_matches (msg : CANMessage.t) (filter : CanFilter.t) : bool :=
  let idMatch :=
    band (CANMessage.id msg) (CanFilter.mask filter)
      =? band (CanFilter.id filter) (CanFilter.mask filter) in
  let extMatch :=
    match CanFilter.extended filter with
    | None => true
    | Some e => Bool.eqb e (CANMessage.ext msg)
    end in
  idMatch && extMatch.

(** The ['onMessage'] listener.  [None] is the early [return] of a
    filtered message; otherwise the new handle state and the calls made
    to the subscribers, in order. *)
Definition onMessage (h : t) (timestamp : Z) (msg : CANMessage.t)
  : option (t * list call) :=
  if (0 <? Z.of_nat (length (filters h))) && negb (existsb (filter_matches msg) (filters h))
  then None
  else
    let data := CANMessage.data msg in
    let frame := Uint8Array_new (5 + length data) in
    let frame := store frame 0 (band (shr (CANMessage.id msg) 24) 0xFF) in
    let frame := store frame 1 (band (shr (CANMessage.id msg) 16) 0xFF) in
    let frame := store frame 2 (band (shr (CANMessage.id msg) 8) 0xFF) in
    let frame := store frame 3 (band (CANMessage.id msg) 0xFF) in
    let frame := store frame 4 (len data) in
    let frame := set frame data 5 in
    let st := stats h in
    let st := AdapterStats.mk (AdapterStats.bytesRx st + len frame)
                (AdapterStats.bytesTx st) (AdapterStats.messagesRx st + 1)
                (AdapterStats.messagesTx st) (AdapterStats.errors st) in
    let meta := RxMeta.mk timestamp rx (len frame)
                  (Some (CanMeta.mk (CANMessage.id msg) (CANMessage.ext msg)
                           (CANMessage.rtr msg) (len data))) in
    Some (mk st (readCallbacks h) (filters h),
          map (fun cb => mk_call cb frame meta) (readCallbacks h)).

(** The [msg] that [write] builds from a frame of at least five bytes
    (the statements between the length test and the [try]). *)
Definition write_message (frame : list Z) : CANMessage.t :=
  let id := bor (bor (bor (shl (get frame 0) 24) (shl (get frame 1) 16))
                     (shl (get frame 2) 8)) (get frame 3) in
  let dlc := get frame 4 in
  let data := slice frame 5 (Z.to_nat (5 + dlc)) in
  CANMessage.mk id (0x7FF <? id) false data.

Section Write.
(** [this.channel.send(msg)] of the socketcan binding: [None] when it
    returns, [Some e] when it throws [e]. *)
Variable channel_send : CANMessage.t -> option string.

Definition write (h : t) (frame : list Z) : t * outcome unit :=
  if len frame <? 5 then (h, Throws "Invalid CAN frame: too short")
  else
    let msg := write_message frame in
    let st := stats h in
    match channel_send msg with
    | None =>
        (mk (AdapterStats.mk (AdapterStats.bytesRx st)
               (AdapterStats.bytesTx st + len frame) (AdapterStats.messagesRx st)
               (AdapterStats.messagesTx st + 1) (AdapterStats.errors st))
            (readCallbacks h) (filters h),
         Returns tt)
    | Some e =>
        (mk (AdapterStats.mk (AdapterStats.bytesRx st) (AdapterStats.bytesTx st)
               (AdapterStats.messagesRx st) (AdapterStats.messagesTx st)
               (AdapterStats.errors st + 1))
            (readCallbacks h) (filters h),
         Throws e)
    end.
End Write.

End CANHandle.

(* ================================================================== *)
(** ** The CRC-16 register on sixteen bits *)
(* ================================================================== *)

(** The shift register that both CRC-16 routines implement, written on
    the low sixteen bits only.  It is the yardstick against which the
    table-driven routine and the bit-by-bit routine are compared. *)
Module Register16.

Definition low (k x : Z) : Z := x mod 2 ^ k.

Definition round16 (x : Z) : Z :=
  let s := low 16 (2 * x) in
  if Z.testbit x 15 then Z.lxor s 0x1021 else s.

Definition byte16 (crc byte : Z) : Z :=
  Nat.iter 8 round16 (Z.lxor crc (byte * 256)).

Definition below_256 (P : Z -> bool) : bool :=
  forallb (fun i => P (Z.of_nat i)) (seq 0 256).

End Register16.

(* ================================================================== *)
(** ** The EFuse layout, in the words of the specification *)
(* ================================================================== *)

(** [0xAA | type:u8 | length:u16 big-endian | payload[length] |
     crc:u16 big-endian | 0xBB], read off a byte array by position. *)
Module EFuseLayout.
Import JS.

Definition first_byte (raw : list Z) : Z := get raw 0.
Definition last_byte (raw : list Z) : Z := get raw (length raw - 1).
Definition type_byte (raw : list Z) : Z := get raw 1.

(** The declared payload length: a big-endian u16 at offsets 2 and 3. *)
Definition declared_length (raw : list Z) : Z := get raw 2 * 256 + get raw 3.

Definition payload_of (raw : list Z) : list Z :=
  slice raw 4 (Z.to_nat (4 + declared_length raw)).

(** The stored CRC: a big-endian u16 right after the payload. *)
Definition stored_crc (raw : list Z) : Z :=
  getZ raw (4 + declared_length raw) * 256 + getZ raw (4 + declared_length raw + 1).

(** The CRC of type, length and payload. *)
Definition computed_crc (raw : list Z) : Z :=
  CRCCalculator.crc16CcittFalse (slice raw 1 (Z.to_nat (4 + declared_length raw))).

(** The frame that carries [type], [payload] and the CRC value [crc]. *)
Definition frame (type : Z) (payload : list Z) (crc : Z) : list Z :=
  [0xAA; type; len payload / 256; len payload mod 256]
    ++ payload ++ [crc / 256; crc mod 256; 0xBB].

(** The frame with the CRC of its own contents. *)
Definition sealed (type : Z) (payload : list Z) : list Z :=
  frame type payload
    (CRCCalculator.crc16CcittFalse
       ([type; len payload / 256; len payload mod 256] ++ payload)).

(** Reading a decoded frame. *)
Definition field_value (n : string) (d : DecodedFrame.t) : option FieldValue :=
  option_map FrameField.value (find_field n (DecodedFrame.fields d)).

Definition checksum_valid (d : DecodedFrame.t) : option bool :=
  option_map ChecksumInfo.valid (DecodedFrame.checksum d).

Definition error_code (e : option FrameError.t) : option string :=
  option_map FrameError.code e.

(** An error object of severity [error]. *)
Definition efuse_error (code message : string) : option FrameError.t :=
  Some (FrameError.mk code message error).

(** What [decode] returns once the four structural tests have passed. *)
Definition decoded (raw : list Z) : DecodedFrame.t :=
  DecodedFrame.mk "efuse"
    ([ FrameField.mk "type" (VNumber (type_byte raw)) uint8 (slice raw 1 2) 1 None;
       FrameField.mk "length" (VNumber (declared_length raw)) uint16 (slice raw 2 4) 2 None;
       FrameField.mk "payload" (VBytes (payload_of raw)) bytes_t (payload_of raw) 4 None ]
       ++ default [] (EFuseDecoder.decodePayload (type_byte raw) (payload_of raw)))
    (Some (ChecksumInfo.mk "crc16-ccitt-false" (stored_crc raw) (computed_crc raw)
             (stored_crc raw =? computed_crc raw)))
    [("type", VNumber (type_byte raw));
     ("payloadLength", VNumber (declared_length raw))].

End EFuseLayout.

(* ================================================================== *)
(** ** COBS as a sequence of blocks *)
(* ================================================================== *)

(** The encoded form that [cobsEncode] builds by patching code bytes in
    place, written block by block instead: [cur] is the run of non-zero
    bytes collected since the last code byte.  A block is closed by a
    zero of the input, by reaching 254 data bytes (code [0xFF]), or by
    the end of the input. *)
Module COBSBlocks.
Import JS.

Fixpoint blocks (cur data : list Z) : list Z :=
  match data with
  | [] => (1 + len cur) :: cur
  | b :: rest =>
      if b =? 0 then ((1 + len cur) :: cur) ++ blocks [] rest
      else if 1 + len cur + 1 =? 0xFF then (0xFF :: cur ++ [b]) ++ blocks [] rest
      else blocks (cur ++ [b]) rest
  end.

(** A byte that may appear in an encoded frame. *)
Definition nonzero_byte (x : Z) : Prop := 1 <= x <= 255.

End COBSBlocks.

(* ================================================================== *)
(** ** SLIP byte stuffing *)
(* ================================================================== *)

Module SLIPStuffing.
Import SLIPDecoder.

(** What the encoder pushes for one input byte. *)
Definition escape (byte : Z) : list Z :=
  if byte =? END then [ESC; ESC_END]
  else if byte =? ESC then [ESC; ESC_ESC]
  else [byte].

Definition stuffed (data : list Z) : list Z := flat_map escape data.

End SLIPStuffing.

(* ================================================================== *)
(** ** Sample inputs and the predicates of the CAN claims *)
(* ================================================================== *)

(** The frame [AA 01 00 02 08 00 5C 94 BB]: type 1, payload [08 00] and
    the CRC of its contents. *)
Definition adc_frame : list Z := [0xAA; 0x01; 0x00; 0x02; 0x08; 0x00; 0x5C; 0x94; 0xBB].

(** The same frame with a zeroed CRC field. *)
Definition adc_frame_bad_crc : list Z :=
  [0xAA; 0x01; 0x00; 0x02; 0x08; 0x00; 0x00; 0x00; 0xBB].

(** A handle with one subscriber and the given filter set. *)
Definition handle_with (filters : list CanFilter.t) : CANHandle.t :=
  CANHandle.mk (AdapterStats.mk 0 0 0 0 0) [1%nat] filters.

(** The OBD request of the simulator, as a received message. *)
Definition obd_request : CANMessage.t :=
  CANMessage.mk 0x7E0 false false [0x02; 0x01; 0x0C; 0; 0; 0; 0; 0].

(** A message is delivered when the listener does not return early. *)
Definition delivered (h : CANHandle.t) (timestamp : Z) (msg : CANMessage.t) : Prop :=
  is_Some (CANHandle.onMessage h timestamp msg).

(** The filter condition of the specification. *)
Definition filter_accepts (msg : CANMessage.t) (f : CanFilter.t) : Prop :=
  JS.band (CANMessage.id msg) (CanFilter.mask f) = JS.band (CanFilter.id f) (CanFilter.mask f)
  /\ (CanFilter.extended f = None \/ CanFilter.extended f = Some (CANMessage.ext msg)).

(** A channel that accepts every message. *)
Definition accept_all (msg : CANMessage.t) : option string := None.

(** The ASCII bytes of "123456789". *)
Definition check_string : list Z := [49; 50; 51; 52; 53; 54; 55; 56; 57].

(* ================================================================== *)
(** ** Sums of bytes *)
(* ================================================================== *)

(** The plain sum that [checksum8] reduces modulo 256. *)
Definition total (data : list Z) : Z := fold_right Z.add 0 data.

(* ================================================================== *)
(** ** EFuse frames with arbitrary length bytes *)
(* ================================================================== *)

(** The bytes that [encode] writes, with the two length bytes given
    separately: they are the low sixteen bits of the payload length,
    which is the payload length only below 65536. *)
Definition laid_out (type hi lo : Z) (payload : list Z) (crc : Z) : list Z :=
  [0xAA; type; hi; lo] ++ payload ++ [crc / 256; crc mod 256; 0xBB].

(** The error code that [validate] gives when the byte at index [i] of a
    well-formed frame of [n] bytes is replaced by another one. *)
Definition corruption_code (n i : nat) : string :=
  if (i =? 0)%nat then "INVALID_START_MARKER"
  else if (i =? n - 1)%nat then "INVALID_END_MARKER"
  else if (i =? 2)%nat || (i =? 3)%nat then "LENGTH_MISMATCH"
  else "CRC_MISMATCH".

(** The big-endian number spelled by the first four bytes of an array. *)
Definition u32be (p : list Z) : Z :=
  JS.get p 0 * 2 ^ 24 + JS.get p 1 * 2 ^ 16 + JS.get p 2 * 2 ^ 8 + JS.get p 3.

(* ================================================================== *)
(** ** The public methods of the COBS and SLIP codecs *)
(* ================================================================== *)

(** A decoded frame with one [data] field; the optional [checksum] and
    [metadata] are absent. *)
Definition data_frame (protocol : string) (decoded : list Z) : DecodedFrame.t :=
  DecodedFrame.mk protocol
    [FrameField.mk "data" (VBytes decoded) bytes_t decoded 0 None] None [].

(** [decode], [encode] and [validate] of class [COBSDecoder]
    (packages/decoders/src/cobs-decoder.ts).  A typed array is always
    truthy, so [!decoded] holds for [null] only. *)
Module COBSCodec.
Import JS.

Definition decode (raw : list Z) : option DecodedFrame.t :=
  match COBSDecoder.cobsDecode raw with
  | None => None
  | Some decoded => Some (data_frame "cobs" decoded)
  end.

Definition encode (fields : list FrameField.t) : outcome (list Z) :=
  match find_field "data" fields with
  | None => Throws "Missing data field"
  | Some dataField =>
      match FrameField.value dataField with
      | VBytes data => Returns (COBSDecoder.cobsEncode data)
      | _ => Throws "ill-typed field value"
      end
  end.

Definition validate (raw : list Z) : option FrameError.t :=
  if len raw =? 0 then
    Some (FrameError.mk "EMPTY_FRAME" "Empty COBS frame" error)
  else
    match COBSDecoder.cobsDecode raw with
    | None => Some (FrameError.mk "INVALID_COBS" "Invalid COBS encoding" error)
    | Some _ => None
    end.

End COBSCodec.

(** [decode], [encode] and [validate] of class [SLIPDecoder]
    (packages/decoders/src/slip-decoder.ts). *)
Module SLIPCodec.
Import JS.

Definition decode (raw : list Z) : option DecodedFrame.t :=
  match SLIPDecoder.slipDecode raw with
  | None => None
  | Some decoded => Some (data_frame "slip" decoded)
  end.

Definition encode (fields : list FrameField.t) : outcome (list Z) :=
  match find_field "data" fields with
  | None => Throws "Missing data field"
  | Some dataField =>
      match FrameField.value dataField with
      | VBytes data => Returns (SLIPDecoder.slipEncode data)
      | _ => Throws "ill-typed field value"
      end
  end.

Definition validate (raw : list Z) : option FrameError.t :=
  if len raw =? 0 then
    Some (FrameError.mk "EMPTY_FRAME" "Empty SLIP frame" error)
  else None.

End SLIPCodec.

(** A byte that the SLIP encoder copies unchanged. *)
Definition plain (b : Z) : Prop := b <> SLIPDecoder.END /\ b <> SLIPDecoder.ESC.

(* ================================================================== *)
(** ** JavaScript strings *)
(* ================================================================== *)

(** A string is a sequence of code units below 256.  [parseInt16] is
    [parseInt(s, 16)] with [None] for NaN; it is exact as long as the
    value stays below 2^53, which holds for every string the codecs
    print. *)
Module JSString.

Definition code (c : Ascii.ascii) : Z := Z.of_N (Ascii.N_of_ascii c).

(** White space and line terminators: the class [\s] of a regular
    expression, which is also what [parseInt] skips. *)
Definition is_space (c : Ascii.ascii) : bool :=
  let n := code c in
  (n =? 9) || (n =? 10) || (n =? 11) || (n =? 12) || (n =? 13)
  || (n =? 32) || (n =? 160).

Definition hex_digit (c : Ascii.ascii) : option Z :=
  let n := code c in
  if (48 <=? n) && (n <=? 57) then Some (n - 48)
  else if (97 <=? n) && (n <=? 102) then Some (n - 87)
  else if (65 <=? n) && (n <=? 70) then Some (n - 55)
  else None.

(** [s.replace(/\s/g, '')]. *)
Fixpoint remove_spaces (s : string) : string :=
  match s with
  | EmptyString => EmptyString
  | String c r => if is_space c then remove_spaces r else String c (remove_spaces r)
  end.

Fixpoint skip_spaces (s : string) : string :=
  match s with
  | EmptyString => EmptyString
  | String c r => if is_space c then skip_spaces r else s
  end.

(** The value of the longest prefix of hexadecimal digits, most
    significant digit first; [acc] is [None] until a digit is read. *)
Fixpoint hex_prefix (s : string) (acc : option Z) : option Z :=
  match s with
  | EmptyString => acc
  | String c r =>
      match hex_digit c with
      | Some d => hex_prefix r (Some (16 * default 0 acc + d))
      | None => acc
      end
  end.

Definition strip_0x (s : string) : string :=
  match s with
  | String z (String x r) =>
      if (code z =? 48) && ((code x =? 120) || (code x =? 88)) then r else s
  | _ => s
  end.

Definition parseInt16 (s : string) : option Z :=
  let s := skip_spaces s in
  let '(sign, s) :=
    match s with
    | String c r =>
        if code c =? 45 then (-1, r) else if code c =? 43 then (1, r) else (1, s)
    | EmptyString => (1, s)
    end in
  let s := strip_0x s in
  match hex_prefix s None with
  | Some v => Some (sign * v)
  | None => None
  end.

(** [s.padStart(2, '0')]. *)
Definition padStart2 (s : string) : string :=
  match String.length s with
  | O => "00"
  | S O => String "0"%char s
  | _ => s
  end.

(** [parts.join(sep)]. *)
Fixpoint join (sep : string) (parts : list string) : string :=
  match parts with
  | [] => EmptyString
  | [x] => x
  | x :: rest => x +:+ sep +:+ join sep rest
  end.

(** [n.toString(16)] for any integer. *)
Definition toString16 (n : Z) : string :=
  if n <? 0 then String "-"%char (JS.toString16 (- n)) else JS.toString16 n.

(** [s.toUpperCase()] on ASCII text. *)
Definition upper (c : Ascii.ascii) : Ascii.ascii :=
  let n := code c in
  if (97 <=? n) && (n <=? 122) then Ascii.ascii_of_N (Z.to_N (n - 32)) else c.

Fixpoint toUpperCase (s : string) : string :=
  match s with
  | EmptyString => EmptyString
  | String c r => String (upper c) (toUpperCase r)
  end.

(** [s.replace('0x', '')]: the first occurrence is removed. *)
Fixpoint remove_first_0x (s : string) : string :=
  match s with
  | String z r =>
      match r with
      | String x r' =>
          if (code z =? 48) && (code x =? 120) then r' else String z (remove_first_0x r)
      | EmptyString => s
      end
  | EmptyString => EmptyString
  end.

End JSString.

(* ================================================================== *)
(** ** packages/decoders/src/hex-decoder.ts and ascii-decoder.ts *)
(* ================================================================== *)

Module HexDecoder.
Import JS.

(** [b.toString(16).padStart(2, '0')]. *)
Definition hex2 (b : Z) : string := JSString.padStart2 (JS.toString16 b).

Definition decode (raw : list Z) : option DecodedFrame.t :=
  Some (DecodedFrame.mk "hex"
          [ FrameField.mk "hex" (VString (JSString.join " " (map hex2 raw)))
              string_t raw 0 None;
            FrameField.mk "raw" (VBytes raw) bytes_t raw 0 None ]
          None []).

(** The [hex] branch of [encode], for a field value that is a string.  The array has [floor(length / 2)]
    slots; the loop runs for [i = 0, 2, ...] below the length, and a
    store of NaN or past the end leaves a zero or nothing. *)
Definition encode_hex (hexStr : string) : list Z :=
  let n := String.length hexStr in
  let bytes := Uint8Array_new (n / 2) in
  fold_left
    (fun bytes k =>
       let i := (2 * k)%nat in
       store bytes (i / 2) (default 0 (JSString.parseInt16 (substring i 2 hexStr))))
    (seq 0 ((n + 1) / 2)) bytes.

Definition encode (fields : list FrameField.t) : outcome (list Z) :=
  match find_field "hex" fields with
  | Some hexField =>
      match FrameField.value hexField with
      | VString s => Returns (encode_hex (JSString.remove_spaces s))
      | _ => Throws "ill-typed field value"
      end
  | None =>
      match find_field "raw" fields with
      | Some rawField =>
          match FrameField.value rawField with
          | VBytes r => Returns r
          | _ => Throws "ill-typed field value"
          end
      | None => Throws "Missing hex or raw field"
      end
  end.

Definition validate (raw : list Z) : option FrameError.t := None.

End HexDecoder.

(** Of class [ASCIIDecoder] only [validate] is embedded: [decode] and
    [encode] go through the platform's TextDecoder and TextEncoder. *)
Module ASCIIDecoder.

Fixpoint validate (raw : list Z) : option FrameError.t :=
  match raw with
  | [] => None
  | byte :: rest =>
      if (byte <? 0x20) && negb (byte =? 0x0A) && negb (byte =? 0x0D)
         && negb (byte =? 0x09)
      then Some (FrameError.mk "NON_PRINTABLE" "Contains non-printable characters"
                   warning)
      else validate rest
  end.

(** A byte that [validate] lets pass. *)
Definition passes (b : Z) : Prop := 0x20 <= b \/ b = 0x09 \/ b = 0x0A \/ b = 0x0D.

End ASCIIDecoder.


(** Auxiliary notions for the strings of hexadecimal digits that the
    codecs print and read back. *)
Module HexDigits.
Import JSString.

(** The properties of the two digits of one byte that the round trip of
    the Hex codec rests on, in checkable form. *)
Fixpoint no_space (s : string) : bool :=
  match s with
  | EmptyString => true
  | String c r => negb (is_space c) && no_space r
  end.

Definition hex2_ok (b : Z) : bool :=
  (String.length (HexDecoder.hex2 b) =? 2)%nat
  && no_space (HexDecoder.hex2 b)
  && match parseInt16 (HexDecoder.hex2 b) with Some v => v =? b | None => false end.

(** The digits of all bytes, one pair after the other. *)
Fixpoint digits (raw : list Z) : string :=
  match raw with
  | [] => EmptyString
  | b :: rest => HexDecoder.hex2 b +:+ digits rest
  end.

(** The number spelled by hexadecimal digits, most significant first. *)
Fixpoint hex_value (d : Hexadecimal.uint) (acc : Z) : Z :=
  match d with
  | Hexadecimal.Nil => acc
  | Hexadecimal.D0 l => hex_value l (16 * acc + 0)
  | Hexadecimal.D1 l => hex_value l (16 * acc + 1)
  | Hexadecimal.D2 l => hex_value l (16 * acc + 2)
  | Hexadecimal.D3 l => hex_value l (16 * acc + 3)
  | Hexadecimal.D4 l => hex_value l (16 * acc + 4)
  | Hexadecimal.D5 l => hex_value l (16 * acc + 5)
  | Hexadecimal.D6 l => hex_value l (16 * acc + 6)
  | Hexadecimal.D7 l => hex_value l (16 * acc + 7)
  | Hexadecimal.D8 l => hex_value l (16 * acc + 8)
  | Hexadecimal.D9 l => hex_value l (16 * acc + 9)
  | Hexadecimal.Da l => hex_value l (16 * acc + 10)
  | Hexadecimal.Db l => hex_value l (16 * acc + 11)
  | Hexadecimal.Dc l => hex_value l (16 * acc + 12)
  | Hexadecimal.Dd l => hex_value l (16 * acc + 13)
  | Hexadecimal.De l => hex_value l (16 * acc + 14)
  | Hexadecimal.Df l => hex_value l (16 * acc + 15)
  end.

(** A character that [toUpperCase] leaves of a hexadecimal digit. *)
Definition upper_hex (c : Ascii.ascii) : bool :=
  let n := JSString.code c in
  ((48 <=? n) && (n <=? 57)) || ((65 <=? n) && (n <=? 70)).

Fixpoint all_upper_hex (s : string) : bool :=
  match s with
  | EmptyString => true
  | String c r => upper_hex c && all_upper_hex r
  end.

End HexDigits.

(* ================================================================== *)
(** ** packages/transports-can/src/can-decoder.ts *)
(* ================================================================== *)

Module CANDecoder.
Import JS.

(** [x.toFixed(0)] for [x = k * 0.25], a product that is exact in
    floating point: the nearest integer, the larger one of two, after
    the sign has been set aside. *)
Definition quarters_toFixed0 (k : Z) : string :=
  if k <? 0 then String "-"%char (toString ((- k + 2) / 4))
  else toString ((k + 2) / 4).

(** The unit of the temperature field: the degree sign is the code
    unit 176. *)
Definition degrees_celsius : string := String (Ascii.ascii_of_N 176) "C".

Definition frame_id (raw : list Z) : Z :=
  bor (bor (bor (shl (get raw 0) 24) (shl (get raw 1) 16)) (shl (get raw 2) 8))
      (get raw 3).

Definition decodeCANId (id : Z) (data : list Z) : option (list FrameField.t) :=
  if id =? 0x100 then
    if 2 <=? len data then
      let rpm := bor (shl (get data 0) 8) (get data 1) in
      Some [FrameField.mk "engine_rpm" (VString (quarters_toFixed0 rpm)) float
              (slice data 0 2) 0 (Some "RPM")]
    else None
  else if id =? 0x200 then
    if 1 <=? len data then
      Some [FrameField.mk "vehicle_speed" (VNumber (get data 0)) uint8
              (slice data 0 1) 0 (Some "km/h")]
    else None
  else if id =? 0x300 then
    if 1 <=? len data then
      let temp := get data 0 - 40 in
      Some [FrameField.mk "coolant_temp" (VNumber temp) int8
              (slice data 0 1) 0 (Some degrees_celsius)]
    else None
  else None.

Definition decode (raw : list Z) : option DecodedFrame.t :=
  if len raw <? 5 then None
  else
    let id := frame_id raw in
    let dlc := get raw 4 in
    let data := slice raw 5 (Z.to_nat (5 + dlc)) in
    let fields :=
      [ FrameField.mk "id"
          (VString ("0x" +:+ JSString.toUpperCase (JSString.toString16 id)))
          uint32 (slice raw 0 4) 0 None;
        FrameField.mk "extended" (VBool (0x7FF <? id)) uint8 (slice raw 0 4) 0 None;
        FrameField.mk "dlc" (VNumber dlc) uint8 (slice raw 4 5) 4 None;
        FrameField.mk "data" (VBytes data) bytes_t data 5 None ] in
    let fields :=
      match decodeCANId id data with
      | Some decodedData => fields ++ decodedData
      | None => fields
      end in
    Some (DecodedFrame.mk "can" fields None
            [("id", VNumber id); ("dlc", VNumber dlc);
             ("extended", VBool (0x7FF <? id))]).

(** [encode].  The [id] is [None] for NaN, which the shifts read as 0.
    A negative [dlc] ends in a RangeError, of the constructor below
    [-5] and of [set] otherwise.  As in the EFuse encoder the values are
    read through unchecked casts, and a value outside its declared type
    is reported as a throw of its own. *)
Definition encode (fields : list FrameField.t) : outcome (list Z) :=
  match find_field "id" fields, find_field "dlc" fields, find_field "data" fields with
  | Some idField, Some dlcField, Some dataField =>
      match FrameField.value idField, FrameField.value dlcField,
            FrameField.value dataField with
      | VString idStr, VNumber dlc, VBytes data =>
          if dlc <? 0 then Throws "RangeError"
          else
            let id := default 0 (JSString.parseInt16 (JSString.remove_first_0x idStr)) in
            let frame := Uint8Array_new (Z.to_nat (5 + dlc)) in
            let frame := store frame 0 (band (shr id 24) 0xFF) in
            let frame := store frame 1 (band (shr id 16) 0xFF) in
            let frame := store frame 2 (band (shr id 8) 0xFF) in
            let frame := store frame 3 (band id 0xFF) in
            let frame := store frame 4 dlc in
            let frame := set frame (slice data 0 (Z.to_nat dlc)) 5 in
            Returns frame
      | _, _, _ => Throws "ill-typed field value"
      end
  | _, _, _ => Throws "Missing required fields: id, dlc, data"
  end.

Definition validate (raw : list Z) : option FrameError.t :=
  if len raw <? 5 then
    Some (FrameError.mk "FRAME_TOO_SHORT" "CAN frame too short" error)
  else
    let dlc := get raw 4 in
    if 8 <? dlc then
      Some (FrameError.mk "INVALID_DLC"
              ("Invalid DLC: " +:+ toString dlc +:+ " (max 8)") error)
    else if negb (len raw =? 5 + dlc) then
      Some (FrameError.mk "LENGTH_MISMATCH"
              ("Frame length mismatch: expected " +:+ toString (5 + dlc)
                 +:+ ", got " +:+ toString (len raw)) error)
    else None.

End CANDecoder.

(* ================================================================== *)
(** ** packages/transports-can/src/can-simulator.ts *)
(* ================================================================== *)

Module CANSimulator.
Import JS.

Record t : Type := mk {
  stats : AdapterStats.t;
  readCallbacks : list nat;
  frameCounter : Z;
}.

(** A simulator as its constructor leaves it, before the first tick of
    the timer. *)
Definition create (readCallbacks : list nat) : t :=
  mk (AdapterStats.mk 0 0 0 0 0) readCallbacks 0.

Section Generate.
(** The terms that go through floating point, the random source and
    the clock, each as a function of the frame counter at the call:
    [Math.floor(Math.sin(frameCounter / 20) * 2000)],
    [Math.floor(Math.sin(frameCounter / 30) * 20)],
    [Math.floor(Math.random() * 10)] and [process.hrtime.bigint()]. *)
Variable floor_sin_2000 : Z -> Z.
Variable floor_sin_20 : Z -> Z.
Variable floor_random_10 : Z -> Z.
Variable hrtime : Z -> Z.

(** The [switch] of [generateFrame]. *)
Definition frame_data (frameCounter canId : Z) : list Z :=
  if canId =? 0x100 then
    let rpm := 800 + floor_sin_2000 frameCounter in
    [band (shr rpm 8) 0xFF; band rpm 0xFF; 0; 0; 0; 0; 0; 0]
  else if canId =? 0x200 then
    let speed := 60 + floor_sin_20 frameCounter in
    [speed; 0; 0; 0; 0; 0; 0; 0]
  else if canId =? 0x300 then
    let temp := 90 + floor_random_10 frameCounter in
    [temp + 40; 0; 0; 0; 0; 0; 0; 0]
  else if canId =? 0x7E0 then [0x02; 0x01; 0x0C; 0; 0; 0; 0; 0]
  else replicate 8 0.

(** [generateFrame]: the new state and the chunk and meta that every
    subscriber is called with. *)
Definition generateFrame (s : t) (canId : Z) : t * (list Z * RxMeta.t) :=
  let timestamp := hrtime (frameCounter s) in
  let data := frame_data (frameCounter s) canId in
  let dlc := 8 in
  let frame := Uint8Array_new (Z.to_nat (5 + dlc)) in
  let frame := store frame 0 (band (shr canId 24) 0xFF) in
  let frame := store frame 1 (band (shr canId 16) 0xFF) in
  let frame := store frame 2 (band (shr canId 8) 0xFF) in
  let frame := store frame 3 (band canId 0xFF) in
  let frame := store frame 4 dlc in
  let frame := set frame data 5 in
  let st := stats s in
  let st := AdapterStats.mk (AdapterStats.bytesRx st + len frame)
              (AdapterStats.bytesTx st) (AdapterStats.messagesRx st + 1)
              (AdapterStats.messagesTx st) (AdapterStats.errors st) in
  let meta := RxMeta.mk timestamp rx (len frame)
                (Some (CanMeta.mk canId (0x7FF <? canId) false dlc)) in
  (mk st (readCallbacks s) (frameCounter s + 1), (frame, meta)).

(** The calls [cb(frame, meta)] of one [generateFrame]. *)
Definition calls (s : t) (delivery : list Z * RxMeta.t) : list CANHandle.call :=
  map (fun cb => CANHandle.mk_call cb (fst delivery) (snd delivery)) (readCallbacks s).

(** The callback given to [setInterval] in [startSimulation]: the new
    state and the frames generated, in order. *)
Definition tick (s : t) : t * list (list Z * RxMeta.t) :=
  let '(s, f1) := generateFrame s 0x100 in
  let '(s, f2) := generateFrame s 0x200 in
  let '(s, f3) := generateFrame s 0x300 in
  if Z.rem (frameCounter s) 10 =? 0 then
    let '(s, f4) := generateFrame s 0x7E0 in
    (s, [f1; f2; f3; f4])
  else (s, [f1; f2; f3]).

(** The state after [n] ticks. *)
Fixpoint run (n : nat) (s : t) : t :=
  match n with
  | O => s
  | S n => fst (tick (run n s))
  end.

(** The CAN ids of the frames of one tick, as the meta reports them. *)
Definition tick_ids (s : t) : list (option Z) :=
  map (fun d => option_map CanMeta.canId (RxMeta.transportSpecific (snd d)))
      (snd (tick s)).

End Generate.

End CANSimulator.

(* ================================================================== *)
(** ** apps/desktop/src/main/backend.ts *)
(* ================================================================== *)

Module ProtocolFrame.
Record t : Type := mk {
  id : string;
  timestamp : Z;
  direction : Direction;
  raw : list Z;
  decoded : option DecodedFrame.t;
  error : option FrameError.t;
}.
End ProtocolFrame.

Module CommWatchBackend.
Import JS.

(** The fields of the backend that the read callback and [send] touch;
    [currentHandle] records whether a handle is held. *)
Record t : Type := mk {
  currentHandle : bool;
  frames : list ProtocolFrame.t;
  frameId : Z;
}.

Definition create : t := mk false [] 0.

(** The callback that [connect] gives to [currentHandle.read]: the new
    state and the frames sent to the renderer.  [now] stands for
    [BigInt(Date.now() * 1_000_000)]; a timestamp [0n] is falsy.  The
    decoder is the EFuse decoder, whatever the adapter. *)
Definition on_chunk (now : Z) (b : t) (chunk : list Z) (meta : option RxMeta.t)
  : t * list ProtocolFrame.t :=
  let id := "frame-" +:+ toString (frameId b) in
  let timestamp :=
    match meta with
    | Some m => if truthy (RxMeta.timestamp m) then RxMeta.timestamp m else now
    | None => now
    end in
  let direction :=
    match meta with
    | Some m => RxMeta.direction m
    | None => rx
    end in
  let frame :=
    ProtocolFrame.mk id timestamp direction chunk
      (EFuseDecoder.decode chunk) (EFuseDecoder.validate chunk) in
  (mk (currentHandle b) (frames b ++ [frame]) (frameId b + 1), [frame]).

(** [send]; [write] is the outcome of [await this.currentHandle.write(data)]. *)
Definition send (now : Z) (write : outcome unit) (b : t) (data : list Z)
  : t * list ProtocolFrame.t * outcome unit :=
  if negb (currentHandle b) then (b, [], Throws "Not connected")
  else
    match write with
    | Throws e => (b, [], Throws e)
    | Returns _ =>
        let frame :=
          ProtocolFrame.mk ("frame-" +:+ toString (frameId b)) now tx data None None in
        (mk (currentHandle b) (frames b ++ [frame]) (frameId b + 1), [frame], Returns tt)
    end.

(** What happens to a backend: a handle is opened or closed, a chunk
    arrives, or [send] is called. *)
Inductive event : Type :=
  | Connected
  | Disconnected
  | Chunk (now : Z) (chunk : list Z) (meta : option RxMeta.t)
  | Send (now : Z) (write : outcome unit) (data : list Z).

Definition step (b : t) (e : event) : t * list ProtocolFrame.t :=
  match e with
  | Connected => (mk true (frames b) (frameId b), [])
  | Disconnected => (mk false (frames b) (frameId b), [])
  | Chunk now chunk meta => on_chunk now b chunk meta
  | Send now write data => fst (send now write b data)
  end.

(** The state after a sequence of events, and everything sent to the
    renderer on the way. *)
Definition run (events : list event) (b : t) : t * list ProtocolFrame.t :=
  fold_left (fun acc e => let '(b', out) := step (fst acc) e in (b', snd acc ++ out))
            events (b, []).

End CommWatchBackend.

(* ================================================================== *)
(** ** packages/proto-core/src/utils/message-bus.ts *)
(* ================================================================== *)

Module MessageBus.

(** Listeners are named by a number.  A [Set] is the list of its
    elements in insertion order, a [Map] the list of its entries in
    insertion order. *)
Record t : Type := mk {
  listeners : list (string * list nat);
  allListeners : list nat;
}.

Definition create : t := mk [] [].

Definition Set_add (x : nat) (s : list nat) : list nat :=
  if existsb (Nat.eqb x) s then s else s ++ [x].

Definition Set_delete (x : nat) (s : list nat) : list nat :=
  List.filter (fun y => negb (Nat.eqb x y)) s.

Fixpoint Map_get (k : string) (m : list (string * list nat)) : option (list nat) :=
  match m with
  | [] => None
  | (k', v) :: rest => if String.eqb k k' then Some v else Map_get k rest
  end.

(** [m.set(k, v)]: an existing key keeps its place. *)
Fixpoint Map_set (k : string) (v : list nat) (m : list (string * list nat))
  : list (string * list nat) :=
  match m with
  | [] => [(k, v)]
  | (k', v') :: rest =>
      if String.eqb k k' then (k, v) :: rest else (k', v') :: Map_set k v rest
  end.

Fixpoint Map_delete (k : string) (m : list (string * list nat))
  : list (string * list nat) :=
  match m with
  | [] => []
  | (k', v') :: rest =>
      if String.eqb k k' then rest else (k', v') :: Map_delete k rest
  end.

Definition on (bus : t) (eventType : string) (listener : nat) : t :=
  if String.eqb eventType "*" then
    mk (listeners bus) (Set_add listener (allListeners bus))
  else
    let m :=
      match Map_get eventType (listeners bus) with
      | None => Map_set eventType [] (listeners bus)
      | Some _ => listeners bus
      end in
    mk (Map_set eventType (Set_add listener (default [] (Map_get eventType m))) m)
       (allListeners bus).

(** The function that [on bus eventType listener] returns, called on
    the bus as it is then. *)
Definition unsubscribe (eventType : string) (listener : nat) (bus : t) : t :=
  if String.eqb eventType "*" then
    mk (listeners bus) (Set_delete listener (allListeners bus))
  else
    match Map_get eventType (listeners bus) with
    | Some set =>
        let set := Set_delete listener set in
        if (length set =? 0)%nat then
          mk (Map_delete eventType (listeners bus)) (allListeners bus)
        else mk (Map_set eventType set (listeners bus)) (allListeners bus)
    | None => bus
    end.

(** [emit]: the listeners called, in order.  What a listener throws is
    caught, and listeners are taken not to touch the bus. *)
Definition emit (bus : t) (event_type : string) : list nat :=
  default [] (Map_get event_type (listeners bus)) ++ allListeners bus.

Definition removeAllListeners (bus : t) : t := mk [] [].

(** No entry of the map holds an empty set, and no key occurs twice. *)
Definition tidy (bus : t) : Prop :=
  List.NoDup (map fst (listeners bus))
  /\ Forall (fun e => snd e <> []) (listeners bus).

(** Every set holds each of its listeners once. *)
Definition distinct (bus : t) : Prop :=
  Forall (fun e => List.NoDup (snd e)) (listeners bus)
  /\ List.NoDup (allListeners bus).

End MessageBus.

(* ================================================================== *)
(** ** packages/transports-uart/src/uart-simulator.ts: reception *)
(* ================================================================== *)

Module UARTReceive.
Import JS.

(** The fields of the simulator that reception touches.  [errorRate]
    is [None] when the configuration leaves it out. *)
Record t : Type := mk {
  stats : AdapterStats.t;
  readCallbacks : list nat;
  errorRate : option Q;
}.

(** [simulateReceive]; [random] is the value of [Math.random()], which
    is only drawn when the error rate is truthy.  A call [cb(data, meta)]
    is recorded as for the CAN handle: the callback, the chunk and the
    meta. *)
Definition simulateReceive (s : t) (timestamp : Z) (random : Q) (data : list Z)
  : t * list CANHandle.call :=
  let st := stats s in
  let rate_truthy :=
    match errorRate s with
    | Some r => negb (Qeq_bool r 0)
    | None => false
    end in
  if rate_truthy && negb (Qle_bool (default 0%Q (errorRate s)) random) then
    (mk (AdapterStats.mk (AdapterStats.bytesRx st) (AdapterStats.bytesTx st)
           (AdapterStats.messagesRx st) (AdapterStats.messagesTx st)
           (AdapterStats.errors st + 1))
        (readCallbacks s) (errorRate s), [])
  else
    let meta := RxMeta.mk timestamp rx (len data) None in
    (mk (AdapterStats.mk (AdapterStats.bytesRx st + len data) (AdapterStats.bytesTx st)
           (AdapterStats.messagesRx st + 1) (AdapterStats.messagesTx st)
           (AdapterStats.errors st))
        (readCallbacks s) (errorRate s),
     map (fun cb => CANHandle.mk_call cb data meta) (readCallbacks s)).

(** Whether [simulateReceive] drops a frame for which [Math.random()]
    gives [random]. *)
Definition drops (s : t) (random : Q) : bool :=
  match errorRate s with
  | Some r => negb (Qeq_bool r 0) && negb (Qle_bool r random)
  | None => false
  end.

(** The calls for one received frame: one for every subscriber, in
    subscription order. *)
Definition deliver (s : t) (d : list Z * RxMeta.t) : list CANHandle.call :=
  map (fun cb => CANHandle.mk_call cb (fst d) (snd d)) (readCallbacks s).

Section Burst.
Variable floor_sin_500 : Z -> Z.
(** The clock and the random source, by the index of the frame. *)
Variable hrtime : Z -> Z.
Variable random : Z -> Q.

(** [sendBurst] of [startBurstMode], for a burst size that is a
    non-negative integer: the new state and the calls made, in order. *)
Definition sendBurst (burstSize : nat) (s : t) : t * list CANHandle.call :=
  fold_left
    (fun acc i =>
       let frame := UARTSimulator.generateSampleFrame floor_sin_500 (Z.of_nat i) in
       let '(s', calls) :=
         simulateReceive (fst acc) (hrtime (Z.of_nat i)) (random (Z.of_nat i)) frame in
       (s', snd acc ++ calls))
    (seq 0 burstSize) (s, []).

(** The sample frame with the index [i] and the meta it is handed over
    with. *)
Definition sample (i : nat) : list Z * RxMeta.t :=
  (UARTSimulator.generateSampleFrame floor_sin_500 (Z.of_nat i),
   RxMeta.mk (hrtime (Z.of_nat i)) rx 9 None).

(** The indices of the frames of a burst that are not dropped. *)
Definition kept (burstSize : nat) (s : t) : list nat :=
  List.filter (fun i => negb (drops s (random (Z.of_nat i)))) (seq 0 burstSize).
End Burst.

End UARTReceive.

(* ================================================================== *)
(** * Properties *)
(* ================================================================== *)

(** ** The integer operators on values that fit *)

Section JSFacts.
Import JS.

Lemma to_int32_congr x : exists q, to_int32 x = x + q * 2 ^ 32.
Proof.
  unfold to_int32. cbv zeta.
  pose proof (Z.div_mod x (2 ^ 32) ltac:(lia)) as E.
  destruct (_ <? _).
  - exists (- (x / 2 ^ 32)). lia.
  - exists (- (x / 2 ^ 32) - 1). lia.
Qed.

Lemma to_int32_range x : - 2 ^ 31 <= to_int32 x < 2 ^ 31.
Proof.
  unfold to_int32. cbv zeta.
  pose proof (Z.mod_pos_bound x (2 ^ 32) ltac:(lia)).
  destruct (Z.ltb_spec (x mod 2 ^ 32) (2 ^ 31)); lia.
Qed.

Lemma to_int32_id x : - 2 ^ 31 <= x < 2 ^ 31 -> to_int32 x = x.
Proof.
  intros H. unfold to_int32. cbv zeta.
  destruct (Z.ltb_spec (x mod 2 ^ 32) (2 ^ 31)) as [L | L].
  - destruct (Z.le_gt_cases 0 x).
    + apply Z.mod_small; lia.
    + exfalso. replace x with ((x + 2 ^ 32) + (-1) * 2 ^ 32) in L by lia.
      rewrite Z.mod_add, Z.mod_small in L; lia.
  - destruct (Z.le_gt_cases 0 x).
    + rewrite Z.mod_small in L; lia.
    + replace x with ((x + 2 ^ 32) + (-1) * 2 ^ 32) at 1 by lia.
      rewrite Z.mod_add, Z.mod_small; lia.
Qed.

(** The low [k] bits survive ToInt32. *)
Lemma to_int32_mod x k : 0 <= k <= 32 -> to_int32 x mod 2 ^ k = x mod 2 ^ k.
Proof.
  intros Hk. destruct (to_int32_congr x) as [q ->].
  replace (2 ^ 32) with (2 ^ (32 - k) * 2 ^ k).
  - rewrite Z.mul_assoc. apply Z.mod_add. lia.
  - rewrite <- Z.pow_add_r by lia. f_equal. lia.
Qed.

Lemma shift_count_small n : 0 <= n < 32 -> shift_count n = n.
Proof.
  intros H. unfold shift_count, to_uint32.
  rewrite (Z.mod_small n (2 ^ 32)) by lia. apply Z.mod_small. lia.
Qed.

(** [x & (2^k - 1)] keeps the low [k] bits, whatever [x] is. *)
Lemma band_ones x k : 0 <= k < 32 -> band x (Z.ones k) = x mod 2 ^ k.
Proof.
  intros Hk. unfold band.
  assert (Hp : 0 < 2 ^ k < 2 ^ 32).
  { split; [lia |]. apply Z.pow_lt_mono_r; lia. }
  assert (Hq : 2 ^ k <= 2 ^ 31) by (apply Z.pow_le_mono_r; lia).
  rewrite (to_int32_id (Z.ones k)) by (rewrite Z.ones_equiv; lia).
  rewrite Z.land_ones by lia.
  rewrite to_int32_mod by lia.
  apply to_int32_id.
  pose proof (Z.mod_pos_bound x (2 ^ k) ltac:(lia)). lia.
Qed.

Lemma band_0xFF x : band x 0xFF = x mod 2 ^ 8.
Proof. apply (band_ones x 8). lia. Qed.

Lemma band_0xFFFF x : band x 0xFFFF = x mod 2 ^ 16.
Proof. apply (band_ones x 16). lia. Qed.

Lemma shr_small x n : 0 <= x < 2 ^ 31 -> 0 <= n < 32 -> shr x n = x / 2 ^ n.
Proof.
  intros Hx Hn. unfold shr.
  rewrite to_int32_id, shift_count_small by lia.
  apply Z.shiftr_div_pow2. lia.
Qed.

Lemma shl_mod x n k :
  0 <= n < 32 -> 0 <= k <= 32 -> shl x n mod 2 ^ k = (x * 2 ^ n) mod 2 ^ k.
Proof.
  intros Hn Hk. unfold shl.
  rewrite to_int32_mod, shift_count_small, Z.shiftl_mul_pow2 by lia.
  destruct (to_int32_congr x) as [q ->].
  replace ((x + q * 2 ^ 32) * 2 ^ n)
    with (x * 2 ^ n + (q * 2 ^ n * 2 ^ (32 - k)) * 2 ^ k).
  - apply Z.mod_add. lia.
  - replace (2 ^ 32) with (2 ^ (32 - k) * 2 ^ k); [ring |].
    rewrite <- Z.pow_add_r by lia. f_equal. lia.
Qed.

Lemma shl_small x n :
  0 <= n < 32 -> 0 <= x -> x * 2 ^ n < 2 ^ 31 -> shl x n = x * 2 ^ n.
Proof.
  intros Hn Hx Hlt. unfold shl.
  assert (0 < 2 ^ n) by lia.
  rewrite (to_int32_id x) by nia.
  rewrite shift_count_small, Z.shiftl_mul_pow2 by lia.
  apply to_int32_id. nia.
Qed.

(** Bits of a number below [2^k]. *)
Lemma testbit_above x k i : 0 <= x < 2 ^ k -> k <= i -> Z.testbit x i = false.
Proof.
  intros Hx Hi.
  destruct (Z.eq_dec x 0) as [-> | Hne]; [apply Z.testbit_0_l |].
  apply Z.bits_above_log2; [lia |].
  assert (0 <= k).
  { destruct (Z.le_gt_cases 0 k); [lia |]. rewrite Z.pow_neg_r in Hx; lia. }
  assert (Z.log2 x < k) by (apply Z.log2_lt_pow2; lia). lia.
Qed.

Lemma lor_shiftl_add a b k :
  0 <= k -> 0 <= b < 2 ^ k -> Z.lor (a * 2 ^ k) b = a * 2 ^ k + b.
Proof.
  intros Hk Hb.
  rewrite <- Z.lxor_lor; [symmetry; apply Z.add_nocarry_lxor |];
    (apply Z.bits_inj'; intros i Hi;
     rewrite Z.land_spec, Z.testbit_0_l, <- Z.shiftl_mul_pow2 by lia;
     destruct (Z.lt_ge_cases i k);
     [ rewrite Z.shiftl_spec_low by lia; reflexivity
     | rewrite (testbit_above b k i) by lia; apply andb_false_r ]).
Qed.

Lemma bor_small a b :
  0 <= a < 2 ^ 31 -> 0 <= b < 2 ^ 31 -> bor a b = Z.lor a b.
Proof.
  intros Ha Hb. unfold bor. rewrite (to_int32_id a), (to_int32_id b) by lia.
  apply to_int32_id. split.
  - pose proof (proj2 (Z.lor_nonneg a b) ltac:(lia)). lia.
  - destruct (Z.eq_dec (Z.lor a b) 0) as [-> | Hne]; [lia |].
    apply Z.log2_lt_pow2.
    + pose proof (proj2 (Z.lor_nonneg a b) ltac:(lia)). lia.
    + rewrite Z.log2_lor by lia.
      destruct (Z.eq_dec a 0) as [-> | ?], (Z.eq_dec b 0) as [-> | ?];
        cbn [Z.log2]; try lia.
      * rewrite Z.max_r by (apply Z.log2_nonneg). apply Z.log2_lt_pow2; lia.
      * rewrite Z.max_l by (apply Z.log2_nonneg). apply Z.log2_lt_pow2; lia.
      * apply Z.max_lub_lt; apply Z.log2_lt_pow2; lia.
Qed.

(** [(hi << 8) | lo] on two bytes. *)
Lemma be16 hi lo : byte hi -> byte lo -> bor (shl hi 8) lo = hi * 256 + lo.
Proof.
  unfold byte. intros Hh Hl.
  rewrite shl_small by lia. change (2 ^ 8) with 256.
  rewrite bor_small by lia.
  apply (lor_shiftl_add hi lo 8); lia.
Qed.

Lemma be16_range hi lo : byte hi -> byte lo -> 0 <= bor (shl hi 8) lo < 65536.
Proof. intros Hh Hl. rewrite be16 by assumption. unfold byte in *. lia. Qed.

Lemma be16_inj hi lo hi' lo' :
  byte hi -> byte lo -> byte hi' -> byte lo' ->
  bor (shl hi 8) lo = bor (shl hi' 8) lo' -> hi = hi' /\ lo = lo'.
Proof.
  intros H1 H2 H3 H4. rewrite !be16 by assumption. unfold byte in *. lia.
Qed.

Lemma to_uint8_byte x : byte (to_uint8 x).
Proof. unfold byte, to_uint8. apply Z.mod_pos_bound. lia. Qed.

Lemma to_uint8_id x : byte x -> to_uint8 x = x.
Proof. unfold byte, to_uint8. intros. apply Z.mod_small. lia. Qed.

Lemma Uint8Array_of_bytes l : bytes (Uint8Array_of l).
Proof.
  unfold bytes, Uint8Array_of. induction l as [| x l IH]; cbn.
  - constructor.
  - constructor; [apply to_uint8_byte | exact IH].
Qed.

Lemma Uint8Array_of_id l : bytes l -> Uint8Array_of l = l.
Proof.
  unfold bytes, Uint8Array_of. induction 1 as [| x l Hx _ IH]; [reflexivity |].
  cbn. rewrite to_uint8_id, IH by assumption. reflexivity.
Qed.

Lemma bytes_get l i : bytes l -> byte (get l i).
Proof.
  intros Hl. unfold get. destruct (l !! i) as [x |] eqn:E; cbn.
  - eapply Forall_lookup_1; eassumption.
  - unfold byte. lia.
Qed.

Lemma bytes_getZ l i : bytes l -> byte (getZ l i).
Proof.
  intros Hl. unfold getZ. destruct (i <? 0); [unfold byte; lia |].
  apply bytes_get, Hl.
Qed.

End JSFacts.

(** ** The two CRC-16 routines *)

Section CRC16Facts.
Import JS Register16.

Lemma below_256_spec P i : below_256 P = true -> 0 <= i < 256 -> P i = true.
Proof.
  unfold below_256. intros H Hi.
  rewrite forallb_forall in H.
  rewrite <- (Z2Nat.id i) by lia. apply H.
  apply in_seq. lia.
Qed.

Lemma low_range k x : 0 <= k -> 0 <= low k x < 2 ^ k.
Proof. intros. apply Z.mod_pos_bound. lia. Qed.

Lemma low_id k x : 0 <= x < 2 ^ k -> low k x = x.
Proof. intros. apply Z.mod_small. assumption. Qed.

Lemma low_to_int32 k x : 0 <= k <= 32 -> low k (to_int32 x) = low k x.
Proof. apply to_int32_mod. Qed.

Lemma low_lxor k a b : 0 <= k -> low k (Z.lxor a b) = Z.lxor (low k a) (low k b).
Proof.
  intros Hk. unfold low. apply Z.bits_inj'. intros i Hi.
  rewrite Z.lxor_spec, !Z.testbit_mod_pow2, Z.lxor_spec by lia.
  destruct (i <? k); reflexivity.
Qed.

Lemma low_bxor k a b :
  0 <= k <= 32 -> low k (bxor a b) = Z.lxor (low k a) (low k b).
Proof.
  intros Hk. unfold bxor.
  rewrite low_to_int32, low_lxor, !low_to_int32 by lia. reflexivity.
Qed.

Lemma low_shl k x n :
  0 <= n < 32 -> 0 <= k <= 32 -> low k (shl x n) = low k (x * 2 ^ n).
Proof. intros. apply shl_mod; assumption. Qed.

Lemma lxor_range k a b : 0 <= k -> 0 <= a < 2 ^ k -> 0 <= b < 2 ^ k ->
  0 <= Z.lxor a b < 2 ^ k.
Proof.
  intros Hk Ha Hb.
  rewrite <- (low_id k a), <- (low_id k b), <- low_lxor by lia.
  apply low_range. lia.
Qed.

Lemma testbit_to_int32 x i : 0 <= i < 32 -> Z.testbit (to_int32 x) i = Z.testbit x i.
Proof.
  intros Hi.
  rewrite <- (Z.mod_pow2_bits_low (to_int32 x) 32 i) by lia.
  rewrite to_int32_mod by lia. apply Z.mod_pow2_bits_low. lia.
Qed.

(** [crc & 0x8000] is truthy exactly when bit 15 is set. *)
Lemma truthy_band_0x8000 x : truthy (band x 0x8000) = Z.testbit x 15.
Proof.
  unfold truthy, band. rewrite (to_int32_id 0x8000) by lia.
  assert (E : Z.land (to_int32 x) 0x8000
              = if Z.testbit x 15 then 0x8000 else 0).
  { apply Z.bits_inj'. intros i Hi.
    rewrite Z.land_spec. change 0x8000 with (2 ^ 15).
    rewrite Z.pow2_bits_eqb by lia.
    destruct (Z.eqb_spec 15 i) as [<- | Hne].
    - rewrite testbit_to_int32 by lia.
      destruct (Z.testbit x 15); [| rewrite Z.testbit_0_l; reflexivity].
      rewrite Z.pow2_bits_true by lia. reflexivity.
    - rewrite andb_false_r.
      destruct (Z.testbit x 15); [| rewrite Z.testbit_0_l; reflexivity].
      rewrite Z.pow2_bits_false by lia. reflexivity. }
  rewrite E, to_int32_id by (destruct (Z.testbit x 15); lia).
  destruct (Z.testbit x 15); reflexivity.
Qed.

Lemma round16_low x : round16 (low 16 x) = round16 x.
Proof.
  unfold round16, low. cbv zeta.
  rewrite Z.mod_pow2_bits_low by lia.
  rewrite Z.mul_mod_idemp_r by lia. reflexivity.
Qed.

Lemma round16_range x : 0 <= round16 x < 2 ^ 16.
Proof.
  unfold round16. cbv zeta.
  pose proof (low_range 16 (2 * x) ltac:(lia)).
  destruct (Z.testbit x 15); [| assumption].
  apply lxor_range; lia.
Qed.

Lemma iter_round16_range n x : 0 <= x < 2 ^ 16 -> 0 <= Nat.iter n round16 x < 2 ^ 16.
Proof.
  intros Hx. destruct n; [assumption |].
  rewrite Nat.iter_succ. apply round16_range.
Qed.

(** The register update is linear over exclusive or. *)
Lemma round16_lxor x y : round16 (Z.lxor x y) = Z.lxor (round16 x) (round16 y).
Proof.
  unfold round16. cbv zeta.
  rewrite Z.lxor_spec.
  replace (2 * Z.lxor x y) with (Z.lxor (2 * x) (2 * y)).
  2:{ rewrite !(Z.mul_comm 2). change 2 with (2 ^ 1).
      rewrite <- !Z.shiftl_mul_pow2 by lia. symmetry. apply Z.shiftl_lxor. }
  rewrite low_lxor by lia.
  set (a := low 16 (2 * x)). set (b := low 16 (2 * y)).
  destruct (Z.testbit x 15), (Z.testbit y 15); cbn [xorb].
  - rewrite Z.lxor_assoc, (Z.lxor_comm 0x1021), Z.lxor_assoc,
      Z.lxor_nilpotent, Z.lxor_0_r. reflexivity.
  - rewrite !Z.lxor_assoc. f_equal. apply Z.lxor_comm.
  - rewrite Z.lxor_assoc. reflexivity.
  - reflexivity.
Qed.

Lemma iter_round16_lxor n x y :
  Nat.iter n round16 (Z.lxor x y)
  = Z.lxor (Nat.iter n round16 x) (Nat.iter n round16 y).
Proof.
  induction n as [| n IH]; [reflexivity |].
  rewrite !Nat.iter_succ, IH. apply round16_lxor.
Qed.

(** *** The bit-by-bit routine of the UART simulator *)

Lemma crc_round_low x : low 16 (UARTSimulator.crc_round x) = round16 (low 16 x).
Proof.
  rewrite round16_low. unfold UARTSimulator.crc_round, round16. cbv zeta.
  rewrite truthy_band_0x8000.
  destruct (Z.testbit x 15).
  - rewrite low_bxor, low_shl by lia. rewrite (low_id 16 0x1021) by lia.
    rewrite Z.mul_comm. reflexivity.
  - rewrite low_shl by lia. rewrite Z.mul_comm. reflexivity.
Qed.

Lemma iter_crc_round_low n x :
  low 16 (Nat.iter n UARTSimulator.crc_round x) = Nat.iter n round16 (low 16 x).
Proof.
  induction n as [| n IH]; [reflexivity |].
  rewrite !Nat.iter_succ, crc_round_low, IH. reflexivity.
Qed.

Lemma crc_step_low crc b :
  byte b -> low 16 (UARTSimulator.crc_step crc b) = byte16 (low 16 crc) b.
Proof.
  intros Hb. unfold UARTSimulator.crc_step, byte16.
  rewrite iter_crc_round_low, low_bxor, low_shl by lia.
  rewrite (low_id 16 (b * 2 ^ 8)) by (unfold byte in Hb; lia).
  reflexivity.
Qed.

Lemma fold_left_cons {A B} (f : A -> B -> A) x l a :
  fold_left f (x :: l) a = fold_left f l (f a x).
Proof. reflexivity. Qed.

Lemma fold_crc_step_low data crc :
  bytes data ->
  low 16 (fold_left UARTSimulator.crc_step data crc)
  = fold_left byte16 data (low 16 crc).
Proof.
  intros Hd. revert crc.
  induction Hd as [| b data Hb _ IH]; intros crc.
  - reflexivity.
  - rewrite !fold_left_cons, IH, crc_step_low by assumption. reflexivity.
Qed.

Lemma calculateCrc16_register data :
  bytes data -> UARTSimulator.calculateCrc16 data = fold_left byte16 data 0xFFFF.
Proof.
  intros Hd. unfold UARTSimulator.calculateCrc16.
  rewrite band_0xFFFF.
  pose proof (fold_crc_step_low data 0xFFFF Hd) as E.
  rewrite (low_id 16 0xFFFF) in E by lia.
  exact E.
Qed.

(** *** The table-driven routine *)

Lemma table_lookup i :
  0 <= i < 256 ->
  getZ CRCCalculator.CRC16_CCITT_FALSE_TABLE i = Nat.iter 8 round16 (i * 256).
Proof.
  intros Hi. apply Z.eqb_eq.
  apply (below_256_spec
           (fun i => getZ CRCCalculator.CRC16_CCITT_FALSE_TABLE i
                     =? Nat.iter 8 round16 (i * 256))); [| exact Hi].
  vm_compute. reflexivity.
Qed.

Lemma iter8_round16_small lo :
  0 <= lo < 256 -> Nat.iter 8 round16 lo = lo * 256.
Proof.
  intros Hi. apply Z.eqb_eq.
  apply (below_256_spec (fun i => Nat.iter 8 round16 i =? i * 256)); [| exact Hi].
  vm_compute. reflexivity.
Qed.

Lemma split_high_low c b :
  0 <= c < 2 ^ 16 -> byte b ->
  Z.lxor c (b * 256) = Z.lxor (Z.lxor (c / 256) b * 256) (c mod 256).
Proof.
  intros Hc Hb.
  change 256 with (2 ^ 8). rewrite <- !Z.shiftl_mul_pow2 by lia.
  rewrite Z.shiftl_lxor. rewrite Z.lxor_assoc, (Z.lxor_comm (Z.shiftl b 8)), <- Z.lxor_assoc.
  f_equal.
  rewrite Z.shiftl_mul_pow2 by lia.
  rewrite <- Z.add_nocarry_lxor.
  - pose proof (Z.div_mod c (2 ^ 8) ltac:(lia)). lia.
  - pose proof (Z.mod_pos_bound c (2 ^ 8) ltac:(lia)).
    pose proof (lor_shiftl_add (c / 2 ^ 8) (c mod 2 ^ 8) 8 ltac:(lia) ltac:(lia)) as E.
    apply Z.bits_inj'. intros i Hi.
    rewrite Z.land_spec, Z.testbit_0_l.
    destruct (Z.lt_ge_cases i 8).
    + rewrite Z.mul_pow2_bits_low by lia. reflexivity.
    + rewrite (testbit_above (c mod 2 ^ 8) 8 i) by lia. apply andb_false_r.
Qed.

Lemma crc16_step_register c b :
  0 <= c < 2 ^ 16 -> byte b -> CRCCalculator.crc16_step c b = byte16 c b.
Proof.
  intros Hc Hb. unfold CRCCalculator.crc16_step, byte16. cbv zeta.
  assert (Hq : 0 <= c / 256 < 256).
  { split; [apply Z.div_pos; lia | apply Z.div_lt_upper_bound; lia]. }
  assert (Hidx : band (bxor (shr c 8) b) 0xFF = Z.lxor (c / 256) b).
  { rewrite band_0xFF. fold (low 8 (bxor (shr c 8) b)).
    rewrite low_bxor by lia. rewrite shr_small by lia.
    change (2 ^ 8) with 256.
    rewrite (low_id 8 (c / 256)), (low_id 8 b) by (unfold byte in Hb; lia).
    reflexivity. }
  rewrite Hidx.
  pose proof (lxor_range 8 (c / 256) b ltac:(lia) ltac:(lia) Hb) as Hx.
  rewrite table_lookup by lia.
  rewrite band_0xFFFF. fold (low 16 (bxor (shl c 8) (Nat.iter 8 round16 (Z.lxor (c / 256) b * 256)))).
  rewrite low_bxor, low_shl by lia.
  rewrite (low_id 16 (Nat.iter 8 round16 _)).
  2:{ destruct (iter_round16_range 8 (Z.lxor (c / 256) b * 256)); lia. }
  rewrite (split_high_low c b Hc Hb), iter_round16_lxor.
  pose proof (Z.mod_pos_bound c 256 ltac:(lia)).
  rewrite (iter8_round16_small (c mod 256)) by lia.
  rewrite Z.lxor_comm. f_equal.
  unfold low. change (2 ^ 16) with (256 * 2 ^ 8).
  rewrite Z.mul_mod_distr_r by lia. reflexivity.
Qed.

Lemma crc16_step_range c b : 0 <= CRCCalculator.crc16_step c b < 2 ^ 16.
Proof.
  unfold CRCCalculator.crc16_step. cbv zeta. rewrite band_0xFFFF.
  apply Z.mod_pos_bound. lia.
Qed.

Lemma fold_crc16_step_range data c :
  0 <= c < 2 ^ 16 -> 0 <= fold_left CRCCalculator.crc16_step data c < 2 ^ 16.
Proof.
  revert c. induction data as [| b data IH]; intros c Hc.
  - exact Hc.
  - rewrite fold_left_cons. apply IH, crc16_step_range.
Qed.

Lemma crc16CcittFalse_range data : 0 <= CRCCalculator.crc16CcittFalse data < 65536.
Proof. apply (fold_crc16_step_range data 0xFFFF). lia. Qed.

Lemma fold_crc16_step_register data c :
  bytes data -> 0 <= c < 2 ^ 16 ->
  fold_left CRCCalculator.crc16_step data c = fold_left byte16 data c.
Proof.
  intros Hd. revert c.
  induction Hd as [| b data Hb _ IH]; intros c Hc.
  - reflexivity.
  - rewrite !fold_left_cons. rewrite <- crc16_step_register by assumption.
    apply IH, crc16_step_range.
Qed.

Lemma crc16CcittFalse_register data :
  bytes data -> CRCCalculator.crc16CcittFalse data = fold_left byte16 data 0xFFFF.
Proof.
  intros Hd. apply fold_crc16_step_register; [exact Hd | lia].
Qed.

(** The simulator's routine and the codec's routine agree on byte
    arrays. *)
Lemma calculateCrc16_crc16CcittFalse data :
  bytes data -> UARTSimulator.calculateCrc16 data = CRCCalculator.crc16CcittFalse data.
Proof.
  intros Hd.
  rewrite calculateCrc16_register, crc16CcittFalse_register by assumption.
  reflexivity.
Qed.

End CRC16Facts.

(** ** The EFuse codec *)

Section EFuseFacts.
Import JS EFuseLayout.

Lemma declared_length_be16 raw :
  bytes raw -> bor (shl (get raw 2) 8) (get raw 3) = declared_length raw.
Proof. intros H. apply be16; apply bytes_get, H. Qed.

Lemma stored_crc_be16 raw n :
  bytes raw -> n = declared_length raw ->
  bor (shl (getZ raw (4 + n)) 8) (getZ raw (4 + n + 1)) = stored_crc raw.
Proof. intros H ->. apply be16; apply bytes_getZ, H. Qed.

Lemma declared_length_range raw : bytes raw -> 0 <= declared_length raw < 65536.
Proof.
  intros H. unfold declared_length.
  pose proof (bytes_get raw 2 H). pose proof (bytes_get raw 3 H).
  unfold byte in *. lia.
Qed.

(** [decode] as a cascade of the four structural tests. *)
Lemma decode_eq raw :
  bytes raw ->
  EFuseDecoder.decode raw =
    if len raw <? 7 then None
    else if negb (first_byte raw =? 0xAA) || negb (last_byte raw =? 0xBB) then None
    else if negb (len raw =? 7 + declared_length raw) then None
    else Some (decoded raw).
Proof.
  intros H. unfold EFuseDecoder.decode. cbv zeta.
  rewrite !(declared_length_be16 raw H).
  rewrite (stored_crc_be16 raw _ H eq_refl).
  replace (1 + 1 + 2 + declared_length raw + 2 + 1)
    with (7 + declared_length raw) by lia.
  unfold EFuseDecoder.MIN_FRAME_LENGTH, EFuseDecoder.START_MARKER,
    EFuseDecoder.END_MARKER, first_byte, last_byte.
  destruct (len raw <? 7); [reflexivity |].
  destruct (negb (get raw 0 =? 170) || negb (get raw (length raw - 1) =? 187));
    [reflexivity |].
  destruct (negb (len raw =? 7 + declared_length raw)); [reflexivity |].
  unfold decoded, payload_of, computed_crc, type_byte.
  destruct (EFuseDecoder.decodePayload _ _); reflexivity.
Qed.


(** [validate] as a cascade of its five tests. *)
Lemma validate_eq raw :
  bytes raw ->
  exists m1 m2 m3 m4 m5,
  EFuseDecoder.validate raw =
    if len raw <? 7 then efuse_error "FRAME_TOO_SHORT" m1
    else if negb (first_byte raw =? 0xAA) then efuse_error "INVALID_START_MARKER" m2
    else if negb (last_byte raw =? 0xBB) then efuse_error "INVALID_END_MARKER" m3
    else if negb (len raw =? 7 + declared_length raw)
         then efuse_error "LENGTH_MISMATCH" m4
    else if negb (stored_crc raw =? computed_crc raw)
         then efuse_error "CRC_MISMATCH" m5
    else None.
Proof.
  intros H. unfold EFuseDecoder.validate. cbv zeta.
  rewrite !(declared_length_be16 raw H).
  rewrite !(stored_crc_be16 raw _ H eq_refl).
  replace (1 + 1 + 2 + declared_length raw + 2 + 1)
    with (7 + declared_length raw) by lia.
  do 5 eexists. unfold efuse_error. reflexivity.
Qed.

(** The tests in the words of the specification. *)
Lemma validate_cases raw :
  bytes raw ->
  let code := error_code (EFuseDecoder.validate raw) in
  (len raw < 7 -> code = Some "FRAME_TOO_SHORT") /\
  (7 <= len raw -> first_byte raw <> 0xAA -> code = Some "INVALID_START_MARKER") /\
  (7 <= len raw -> first_byte raw = 0xAA -> last_byte raw <> 0xBB ->
     code = Some "INVALID_END_MARKER") /\
  (7 <= len raw -> first_byte raw = 0xAA -> last_byte raw = 0xBB ->
     len raw <> 7 + declared_length raw -> code = Some "LENGTH_MISMATCH") /\
  (7 <= len raw -> first_byte raw = 0xAA -> last_byte raw = 0xBB ->
     len raw = 7 + declared_length raw -> stored_crc raw <> computed_crc raw ->
     code = Some "CRC_MISMATCH") /\
  (7 <= len raw -> first_byte raw = 0xAA -> last_byte raw = 0xBB ->
     len raw = 7 + declared_length raw -> stored_crc raw = computed_crc raw ->
     EFuseDecoder.validate raw = None) /\
  (forall e, EFuseDecoder.validate raw = Some e -> FrameError.severity e = error).
Proof.
  intros H code. subst code.
  destruct (validate_eq raw H) as (m1 & m2 & m3 & m4 & m5 & ->).
  destruct (Z.ltb_spec (len raw) 7) as [L | L];
  [| destruct (Z.eqb_spec (first_byte raw) 0xAA) as [S | S];
     [ destruct (Z.eqb_spec (last_byte raw) 0xBB) as [E | E];
       [ destruct (Z.eqb_spec (len raw) (7 + declared_length raw)) as [N | N];
         [ destruct (Z.eqb_spec (stored_crc raw) (computed_crc raw)) as [C | C] |] |] |] ];
  cbn [negb error_code option_map efuse_error FrameError.code];
  repeat split; intros; try reflexivity; try lia; try congruence;
  match goal with
  | Heq : efuse_error _ _ = Some ?e |- _ =>
      unfold efuse_error in Heq; injection Heq as <-; reflexivity
  end.
Qed.


(** *** Typed-array bookkeeping *)

Lemma len_app (a b : list Z) : len (a ++ b) = len a + len b.
Proof. unfold len. rewrite length_app. lia. Qed.

Lemma get_cons_S (x : Z) l i : get (x :: l) (S i) = get l i.
Proof. reflexivity. Qed.

Lemma get_cons_0 (x : Z) l : get (x :: l) 0 = x.
Proof. reflexivity. Qed.

Lemma get_app_r (a b : list Z) i : (length a <= i)%nat -> get (a ++ b) i = get b (i - length a).
Proof. intros H. unfold get. rewrite lookup_app_r by exact H. reflexivity. Qed.

Lemma get_app_l (a b : list Z) i : (i < length a)%nat -> get (a ++ b) i = get a i.
Proof. intros H. unfold get. rewrite lookup_app_l by exact H. reflexivity. Qed.

Lemma getZ_nat (a : list Z) (i : nat) : getZ a (Z.of_nat i) = get a i.
Proof.
  unfold getZ. destruct (Z.ltb_spec (Z.of_nat i) 0); [lia |].
  rewrite Nat2Z.id. reflexivity.
Qed.

Lemma get_insert_eq (a : list Z) i v : (i < length a)%nat -> get (<[i := v]> a) i = v.
Proof. intros H. unfold get. rewrite list_lookup_insert_eq by exact H. reflexivity. Qed.

Lemma get_insert_ne (a : list Z) i j v : i <> j -> get (<[i := v]> a) j = get a j.
Proof. intros H. unfold get. rewrite list_lookup_insert_ne by exact H. reflexivity. Qed.

Lemma bytes_insert a i v : bytes a -> byte v -> bytes (<[i := v]> a).
Proof. intros Ha Hv. apply Forall_insert; assumption. Qed.

Lemma bytes_app a b : bytes a -> bytes b -> bytes (a ++ b).
Proof. intros Ha Hb. apply Forall_app. split; assumption. Qed.

Lemma slice_insert_ge (a : list Z) b e i v :
  (e <= i)%nat -> slice (<[i := v]> a) b e = slice a b e.
Proof.
  intros H. unfold slice.
  destruct (Nat.le_gt_cases b i) as [L | L].
  - rewrite drop_insert_ge by exact L. apply take_insert_ge. lia.
  - replace (e - b)%nat with 0%nat by lia. reflexivity.
Qed.

Lemma store4 a b c d R v0 v1 v2 v3 :
  store (store (store (store ([a; b; c; d] ++ R) 0 v0) 1 v1) 2 v2) 3 v3
  = [to_uint8 v0; to_uint8 v1; to_uint8 v2; to_uint8 v3] ++ R.
Proof. reflexivity. Qed.

Lemma set_after4 (a b c d : Z) k m s :
  bytes k -> length k = length m ->
  set ([a; b; c; d] ++ m ++ s) k 4 = [a; b; c; d] ++ k ++ s.
Proof.
  intros Hk Hl. unfold set. fold (Uint8Array_of k). rewrite Uint8Array_of_id by exact Hk.
  etransitivity; [exact (list_inserts_app_r k [a; b; c; d] (m ++ s) 0) |].
  rewrite list_inserts_0_r by exact Hl. reflexivity.
Qed.

Lemma slice_body (a b c d : Z) k s :
  slice ([a; b; c; d] ++ k ++ s) 1 (4 + length k) = [b; c; d] ++ k.
Proof.
  unfold slice. replace (4 + length k - 1)%nat with (length ([b; c; d] ++ k)).
  - apply (take_app_length ([b; c; d] ++ k) s).
  - rewrite length_app. reflexivity.
Qed.

Lemma slice_payload (a b c d : Z) k s :
  slice ([a; b; c; d] ++ k ++ s) 4 (4 + length k) = k.
Proof.
  unfold slice. replace (4 + length k - 4)%nat with (length k) by lia.
  apply (take_app_length k s).
Qed.

Lemma store_tail3 (p k : list Z) x y z v0 v1 v2 :
  length p = 4%nat ->
  store (store (store (p ++ k ++ [x; y; z]) (4 + length k) v0)
               (S (4 + length k)) v1) (S (S (4 + length k))) v2
  = p ++ k ++ [to_uint8 v0; to_uint8 v1; to_uint8 v2].
Proof.
  intros Hp. unfold store.
  rewrite !app_assoc.
  rewrite (insert_app_r_alt (p ++ k)) by (rewrite length_app; lia).
  rewrite (insert_app_r_alt (p ++ k)) by (rewrite length_app; lia).
  rewrite (insert_app_r_alt (p ++ k)) by (rewrite length_app; lia).
  rewrite length_app, Hp.
  replace (4 + length k - (4 + length k))%nat with 0%nat by lia.
  replace (S (4 + length k) - (4 + length k))%nat with 1%nat by lia.
  replace (S (S (4 + length k)) - (4 + length k))%nat with 2%nat by lia.
  reflexivity.
Qed.

Lemma Uint8Array_new_frame n :
  Uint8Array_new (1 + 1 + 2 + n + 2 + 1) = [0; 0; 0; 0] ++ replicate n 0 ++ [0; 0; 0].
Proof.
  unfold Uint8Array_new.
  replace (1 + 1 + 2 + n + 2 + 1)%nat with (4 + (n + 3))%nat by lia.
  rewrite (replicate_add 4), (replicate_add n). reflexivity.
Qed.

Lemma high_byte n : 0 <= n < 65536 -> to_uint8 (band (shr n 8) 0xFF) = n / 256.
Proof.
  intros H. rewrite band_0xFF, shr_small by lia. change (2 ^ 8) with 256.
  assert (0 <= n / 256 < 256).
  { split; [apply Z.div_pos; lia | apply Z.div_lt_upper_bound; lia]. }
  unfold to_uint8. change (2 ^ 8) with 256.
  rewrite !(Z.mod_small (n / 256) 256) by lia. reflexivity.
Qed.

Lemma low_byte n : to_uint8 (band n 0xFF) = n mod 256.
Proof.
  rewrite band_0xFF. unfold to_uint8. change (2 ^ 8) with 256.
  apply Z.mod_mod. lia.
Qed.

(** *** [encode] lays the frame out as specified *)

Lemma encode_layout fields tf pf type payload :
  find_field "type" fields = Some tf ->
  find_field "payload" fields = Some pf ->
  FrameField.value tf = VNumber type ->
  FrameField.value pf = VBytes payload ->
  byte type -> bytes payload -> len payload < 65536 ->
  EFuseDecoder.encode fields = Returns (sealed type payload).
Proof.
  intros Ht Hp Hvt Hvp Bt Bp Hlen.
  unfold EFuseDecoder.encode. rewrite Ht, Hp, Hvt, Hvp. cbv zeta.
  f_equal.
  rewrite Uint8Array_new_frame, store4.
  rewrite set_after4 by (rewrite ?length_replicate; auto).
  rewrite slice_body.
  rewrite (store_tail3 _ payload) by reflexivity.
  assert (Hn : 0 <= len payload < 65536) by (unfold len in *; lia).
  rewrite (high_byte (len payload)) by exact Hn.
  rewrite (low_byte (len payload)).
  unfold EFuseDecoder.START_MARKER, EFuseDecoder.END_MARKER.
  rewrite (to_uint8_id type) by exact Bt.
  rewrite high_byte by apply crc16CcittFalse_range.
  rewrite low_byte.
  reflexivity.
Qed.


(** *** Reading a laid-out frame back *)

Lemma div_mod_256 n : n / 256 * 256 + n mod 256 = n.
Proof. pose proof (Z.div_mod n 256 ltac:(lia)). lia. Qed.

Lemma frame_len t p c : len (frame t p c) = 7 + len p.
Proof. unfold frame. rewrite !len_app. unfold len. cbn [length]. lia. Qed.

Lemma frame_length t p c : length (frame t p c) = (4 + length p + 3)%nat.
Proof. unfold frame. rewrite !length_app. cbn [length]. lia. Qed.

Lemma frame_bytes t p c :
  byte t -> bytes p -> len p < 65536 -> 0 <= c < 65536 -> bytes (frame t p c).
Proof.
  intros Ht Hp Hl Hc. unfold frame.
  assert (0 <= len p) by (unfold len; lia).
  assert (forall n, 0 <= n < 65536 -> byte (n / 256)).
  { intros n Hn. unfold byte.
    split; [apply Z.div_pos; lia | apply Z.div_lt_upper_bound; lia]. }
  assert (forall n, byte (n mod 256)).
  { intros n. unfold byte. apply Z.mod_pos_bound. lia. }
  apply bytes_app; [| apply bytes_app; [exact Hp |]]; unfold bytes;
    repeat first [apply List.Forall_cons | apply List.Forall_nil];
    auto; unfold byte; lia.
Qed.

Lemma frame_first t p c : first_byte (frame t p c) = 0xAA.
Proof. reflexivity. Qed.

Lemma frame_type t p c : type_byte (frame t p c) = t.
Proof. reflexivity. Qed.

Lemma frame_declared t p c : declared_length (frame t p c) = len p.
Proof.
  unfold declared_length, frame.
  change (get ([170; t; len p / 256; len p mod 256] ++ p ++ [c / 256; c mod 256; 187]) 2)
    with (len p / 256).
  change (get ([170; t; len p / 256; len p mod 256] ++ p ++ [c / 256; c mod 256; 187]) 3)
    with (len p mod 256).
  apply div_mod_256.
Qed.

Lemma frame_last t p c : last_byte (frame t p c) = 0xBB.
Proof.
  unfold last_byte. rewrite frame_length. unfold frame.
  rewrite get_app_r by (cbn [length]; lia).
  rewrite get_app_r by (cbn [length]; lia).
  cbn [length].
  replace (4 + length p + 3 - 1 - 4 - length p)%nat with 2%nat by lia.
  reflexivity.
Qed.

Lemma frame_payload t p c : payload_of (frame t p c) = p.
Proof.
  unfold payload_of. rewrite frame_declared. unfold len.
  replace (Z.to_nat (4 + Z.of_nat (length p))) with (4 + length p)%nat by lia.
  apply slice_payload.
Qed.

Lemma frame_computed t p c :
  computed_crc (frame t p c)
  = CRCCalculator.crc16CcittFalse ([t; len p / 256; len p mod 256] ++ p).
Proof.
  unfold computed_crc. rewrite frame_declared. unfold len at 1.
  replace (Z.to_nat (4 + Z.of_nat (length p))) with (4 + length p)%nat by lia.
  unfold frame. rewrite slice_body. reflexivity.
Qed.

Lemma frame_stored t p c : stored_crc (frame t p c) = c.
Proof.
  unfold stored_crc. rewrite frame_declared. unfold len.
  replace (4 + Z.of_nat (length p)) with (Z.of_nat (4 + length p)) by lia.
  replace (Z.of_nat (4 + length p) + 1) with (Z.of_nat (S (4 + length p))) by lia.
  rewrite !getZ_nat. unfold frame.
  rewrite !(get_app_r [170; t; _; _]) by (cbn [length]; lia).
  rewrite !(get_app_r p) by (cbn [length]; lia).
  cbn [length].
  replace (4 + length p - 4 - length p)%nat with 0%nat by lia.
  replace (S (4 + length p) - 4 - length p)%nat with 1%nat by lia.
  rewrite get_cons_0, get_cons_S, get_cons_0.
  apply div_mod_256.
Qed.

Lemma decode_frame t p c :
  byte t -> bytes p -> len p < 65536 -> 0 <= c < 65536 ->
  EFuseDecoder.decode (frame t p c) = Some (decoded (frame t p c)).
Proof.
  intros Ht Hp Hl Hc.
  rewrite decode_eq by (apply frame_bytes; assumption).
  rewrite frame_len, frame_first, frame_last, frame_declared.
  assert (0 <= len p) by (unfold len; lia).
  destruct (Z.ltb_spec (7 + len p) 7); [lia |].
  rewrite !Z.eqb_refl. reflexivity.
Qed.

Lemma validate_frame t p c :
  byte t -> bytes p -> len p < 65536 -> 0 <= c < 65536 ->
  c = CRCCalculator.crc16CcittFalse ([t; len p / 256; len p mod 256] ++ p) ->
  EFuseDecoder.validate (frame t p c) = None.
Proof.
  intros Ht Hp Hl Hc Hcrc.
  assert (Hb : bytes (frame t p c)) by (apply frame_bytes; assumption).
  assert (0 <= len p) by (unfold len; lia).
  apply (validate_cases _ Hb).
  - rewrite frame_len. lia.
  - apply frame_first.
  - apply frame_last.
  - rewrite frame_len, frame_declared. reflexivity.
  - rewrite frame_stored, frame_computed. exact Hcrc.
Qed.

Lemma decoded_type raw : field_value "type" (decoded raw) = Some (VNumber (type_byte raw)).
Proof. reflexivity. Qed.

Lemma decoded_payload raw :
  field_value "payload" (decoded raw) = Some (VBytes (payload_of raw)).
Proof. reflexivity. Qed.

Lemma decoded_valid raw :
  checksum_valid (decoded raw) = Some (stored_crc raw =? computed_crc raw).
Proof. reflexivity. Qed.

End EFuseFacts.

(** ** The COBS codec *)

Section COBSFacts.
Import JS COBSBlocks COBSDecoder.

Lemma insert_middle (done cur : list Z) x y :
  <[length done := y]> (done ++ x :: cur) = done ++ y :: cur.
Proof.
  rewrite insert_app_r_alt by lia. rewrite Nat.sub_diag. reflexivity.
Qed.

Section EncBody.
Variables (st : enc_state) (done cur : list Z).
Hypothesis Hr : result st = done ++ 0 :: cur.
Hypothesis Hi : codeIndex st = length done.
Hypothesis Hc : code st = 1 + len cur.

(** A zero closes the block. *)
Lemma enc_body_zero :
  enc_body st 0 =
    mk_enc ((done ++ (1 + len cur) :: cur) ++ [0])
           (length (done ++ (1 + len cur) :: cur)) 1.
Proof.
  unfold enc_body. rewrite Hr, Hi, Hc, insert_middle. reflexivity.
Qed.

(** The 254th data byte closes the block with code [0xFF]. *)
Lemma enc_body_full b :
  b <> 0 -> 1 + len cur + 1 = 0xFF ->
  enc_body st b =
    mk_enc ((done ++ 0xFF :: cur ++ [b]) ++ [0])
           (length (done ++ 0xFF :: cur ++ [b])) 1.
Proof.
  intros Hb E. unfold enc_body. rewrite Hr, Hi, Hc.
  destruct (Z.eqb_spec b 0); [contradiction |]. cbv zeta.
  rewrite E. rewrite <- app_assoc, <- app_comm_cons, insert_middle.
  reflexivity.
Qed.

(** Any other byte joins the block. *)
Lemma enc_body_more b :
  b <> 0 -> 1 + len cur + 1 <> 0xFF ->
  enc_body st b = mk_enc (done ++ 0 :: (cur ++ [b])) (length done) (1 + len (cur ++ [b])).
Proof.
  intros Hb E. unfold enc_body. rewrite Hr, Hi, Hc.
  destruct (Z.eqb_spec b 0); [contradiction |]. cbv zeta.
  destruct (Z.eqb_spec (1 + len cur + 1) 0xFF); [contradiction |].
  rewrite <- app_assoc, <- app_comm_cons.
  f_equal. rewrite len_app. unfold len. cbn [length]. lia.
Qed.
End EncBody.

(** The loop invariant of [cobsEncode]: the slot at [codeIndex] is the
    placeholder of the block under construction and [code] counts its
    bytes; in particular [codeIndex] always names an existing slot. *)
Lemma enc_loop_inv data : forall st done cur,
  result st = done ++ 0 :: cur ->
  codeIndex st = length done ->
  code st = 1 + len cur ->
  <[codeIndex (fold_left enc_body data st) := code (fold_left enc_body data st)]>
    (result (fold_left enc_body data st))
  = done ++ blocks cur data.
Proof.
  induction data as [| b rest IH]; intros st done cur Hr Hi Hc.
  - cbn [fold_left blocks]. rewrite Hr, Hi, Hc. apply insert_middle.
  - rewrite fold_left_cons. cbn [blocks].
    destruct (Z.eqb_spec b 0) as [-> | Hb].
    + rewrite (enc_body_zero st done cur Hr Hi Hc).
      rewrite (IH _ (done ++ (1 + len cur) :: cur) []) by reflexivity.
      rewrite <- !app_assoc. reflexivity.
    + destruct (Z.eqb_spec (1 + len cur + 1) 0xFF) as [E | E].
      * rewrite (enc_body_full st done cur Hr Hi Hc b Hb E).
        rewrite (IH _ (done ++ 0xFF :: cur ++ [b]) []) by reflexivity.
        rewrite <- !app_assoc. reflexivity.
      * rewrite (enc_body_more st done cur Hr Hi Hc b Hb E).
        apply IH; reflexivity.
Qed.

Lemma cobsEncode_blocks data : cobsEncode data = Uint8Array_of (blocks [] data).
Proof.
  unfold cobsEncode. cbv zeta. f_equal.
  apply (enc_loop_inv data (mk_enc [0] 0%nat 1) [] []); reflexivity.
Qed.

Lemma blocks_nonempty cur data : blocks cur data <> [].
Proof.
  revert cur. induction data as [| b rest IH]; intros cur; cbn [blocks].
  - discriminate.
  - destruct (b =? 0); [discriminate |].
    destruct (_ =? 0xFF); [discriminate | apply IH].
Qed.

Lemma blocks_nonzero data : forall cur,
  Forall nonzero_byte cur -> bytes data -> len cur <= 253 ->
  Forall nonzero_byte (blocks cur data).
Proof.
  induction data as [| b rest IH]; intros cur Hcur Hd Hl; cbn [blocks].
  - constructor; [| exact Hcur]. unfold nonzero_byte, len in *. lia.
  - apply Forall_cons_1 in Hd. destruct Hd as [Hb Hrest].
    assert (H0 : Forall nonzero_byte (blocks [] rest)).
    { apply IH; [constructor | exact Hrest | unfold len; cbn [length]; lia]. }
    destruct (Z.eqb_spec b 0) as [-> | Hne].
    + apply Forall_app. split; [| exact H0].
      constructor; [| exact Hcur]. unfold nonzero_byte, len in *. lia.
    + assert (Hb' : nonzero_byte b) by (unfold nonzero_byte, byte in *; lia).
      destruct (Z.eqb_spec (1 + len cur + 1) 0xFF) as [E | E].
      * apply Forall_app. split; [| exact H0].
        constructor; [unfold nonzero_byte; lia |].
        apply Forall_app. split; [exact Hcur | constructor; [exact Hb' | constructor]].
      * apply IH; [| exact Hrest |].
        -- apply Forall_app. split; [exact Hcur | constructor; [exact Hb' | constructor]].
        -- rewrite len_app. unfold len in *. cbn [length]. lia.
Qed.

Lemma nonzero_bytes l : Forall nonzero_byte l -> bytes l.
Proof.
  apply Forall_impl. unfold nonzero_byte, byte. intros; lia.
Qed.


(** *** The decoder, block by block *)

Lemma get_middle (pre post : list Z) x : get (pre ++ x :: post) (length pre) = x.
Proof.
  unfold get. rewrite lookup_app_r by lia. rewrite Nat.sub_diag. reflexivity.
Qed.

(** The inner [for] loop copies one whole block. *)
Lemma dec_copy_block blk : forall pre post result,
  dec_copy (pre ++ blk ++ post) (length blk) (length pre) result
  = ((length pre + length blk)%nat, result ++ blk).
Proof.
  induction blk as [| x blk IH]; intros pre post result.
  - cbn [length dec_copy]. rewrite Nat.add_0_r, app_nil_r. reflexivity.
  - cbn [length dec_copy].
    destruct (Nat.ltb_spec (length pre) (length (pre ++ (x :: blk) ++ post))) as [L | L].
    2:{ rewrite !length_app in L. cbn [length] in L. lia. }
    change ((x :: blk) ++ post) with (x :: blk ++ post).
    rewrite get_middle.
    replace (pre ++ x :: blk ++ post) with ((pre ++ [x]) ++ blk ++ post)
      by (rewrite <- app_assoc; reflexivity).
    replace (S (length pre)) with (length (pre ++ [x]))
      by (rewrite length_app; cbn [length]; lia).
    rewrite IH. rewrite length_app. cbn [length].
    rewrite <- app_assoc. f_equal. lia.
Qed.

(** One round of the [while] loop on a block [code :: blk]. *)
Lemma dec_loop_step fuel pre code blk post result :
  code = 1 + len blk ->
  dec_loop (S fuel) (pre ++ (code :: blk) ++ post) (length pre) result
  = dec_loop fuel (pre ++ (code :: blk) ++ post) (length (pre ++ code :: blk))
      (if (code <? 0xFF) && negb (bool_decide (post = []))
       then (result ++ blk) ++ [0] else result ++ blk).
Proof.
  intros Hcode. cbn [dec_loop].
  destruct (Nat.ltb_spec (length pre) (length (pre ++ (code :: blk) ++ post))) as [L | L].
  2:{ rewrite !length_app in L. cbn [length] in L. lia. }
  change ((code :: blk) ++ post) with (code :: blk ++ post).
  rewrite get_middle.
  destruct (Z.eqb_spec code 0) as [E | _]; [unfold len in Hcode; lia |].
  replace (Z.to_nat (code - 1)) with (length blk) by (unfold len in Hcode; lia).
  replace (pre ++ code :: blk ++ post) with ((pre ++ [code]) ++ blk ++ post)
    by (rewrite <- app_assoc; reflexivity).
  replace (S (length pre)) with (length (pre ++ [code]))
    by (rewrite length_app; cbn [length]; lia).
  rewrite dec_copy_block.
  replace (length (pre ++ [code]) + length blk)%nat with (length (pre ++ code :: blk))
    by (rewrite !length_app; cbn [length]; lia).
  replace (length (pre ++ code :: blk) <? length ((pre ++ [code]) ++ blk ++ post))%nat
    with (negb (bool_decide (post = []))).
  - reflexivity.
  - destruct post as [| y post].
    + rewrite bool_decide_eq_true_2 by reflexivity.
      symmetry. apply Nat.ltb_ge. rewrite !length_app. cbn [length]. lia.
    + rewrite bool_decide_eq_false_2 by discriminate.
      symmetry. apply Nat.ltb_lt. rewrite !length_app. cbn [length]. lia.
Qed.

(** The inner loop never moves [i] backwards. *)
Lemma dec_copy_mono data n : forall i result,
  (i <= fst (dec_copy data n i result))%nat.
Proof.
  induction n as [| n IH]; intros i result; cbn [dec_copy].
  - cbn [fst]. lia.
  - destruct (i <? length data)%nat; [| cbn [fst]; lia].
    specialize (IH (S i) (result ++ [get data i])). lia.
Qed.

(** Every round of the [while] loop advances [i], so fuel for the bytes
    that remain is enough on any input: [cobsDecode] is total. *)
Lemma dec_loop_fuel fuel : forall data i result,
  (length data - i <= fuel)%nat -> dec_loop fuel data i result <> None.
Proof.
  induction fuel as [| fuel IH]; intros data i result Hf; cbn [dec_loop];
    destruct (Nat.ltb_spec i (length data)) as [L | L]; try discriminate; [lia |].
  destruct (get data i =? 0); [discriminate |].
  pose proof (dec_copy_mono data (Z.to_nat (get data i - 1)) (S i) result) as Hm.
  destruct (dec_copy data (Z.to_nat (get data i - 1)) (S i) result) as [i' result'].
  cbn [fst] in Hm. apply IH. lia.
Qed.

(** Past the end of the input the loop stops, with any fuel. *)
Lemma dec_loop_end fuel data result :
  dec_loop fuel data (length data) result = Some (Some (Uint8Array_of result)).
Proof.
  destruct fuel; cbn [dec_loop]; rewrite Nat.ltb_irrefl; reflexivity.
Qed.

Lemma blocks_length_pos cur data : (1 <= length (blocks cur data))%nat.
Proof.
  pose proof (blocks_nonempty cur data).
  destruct (blocks cur data); [contradiction | cbn [length]; lia].
Qed.

(** Decoding the blocks of [data] gives [cur ++ data] back, provided
    the fuel covers the encoded length. *)
Lemma dec_loop_blocks data : forall pre cur result fuel,
  len cur <= 253 ->
  (length (blocks cur data) <= fuel)%nat ->
  dec_loop fuel (pre ++ blocks cur data) (length pre) result
  = Some (Some (Uint8Array_of (result ++ cur ++ data))).
Proof.
  induction data as [| b rest IH]; intros pre cur result fuel Hl Hf.
  - cbn [blocks] in *. destruct fuel as [| fuel]; [cbn [length] in Hf; lia |].
    rewrite <- (app_nil_r ((1 + len cur) :: cur)).
    rewrite dec_loop_step by reflexivity.
    rewrite bool_decide_eq_true_2, andb_false_r by reflexivity.
    rewrite app_nil_r. rewrite dec_loop_end, app_nil_r. reflexivity.
  - cbn [blocks] in *.
    destruct (Z.eqb_spec b 0) as [-> | Hb]; cbv beta iota in Hf |- *.
    + destruct fuel as [| fuel]; [rewrite length_app in Hf; cbn [length] in Hf; lia |].
      rewrite dec_loop_step by reflexivity.
      rewrite bool_decide_eq_false_2 by apply blocks_nonempty.
      destruct (Z.ltb_spec (1 + len cur) 0xFF) as [_ | L]; [| lia].
      cbn [andb negb].
      rewrite app_assoc.
      rewrite (IH (pre ++ (1 + len cur) :: cur) [] _ fuel).
      * rewrite <- !app_assoc. reflexivity.
      * unfold len. cbn [length]. lia.
      * rewrite length_app in Hf. cbn [length] in Hf. lia.
    + destruct (Z.eqb_spec (1 + len cur + 1) 0xFF) as [E | E]; cbv beta iota in Hf |- *.
      * destruct fuel as [| fuel]; [rewrite length_app in Hf; cbn [length] in Hf; lia |].
        rewrite dec_loop_step by (rewrite len_app; unfold len in *; cbn [length]; lia).
        rewrite Z.ltb_irrefl. cbn [andb].
        rewrite app_assoc.
        rewrite (IH (pre ++ 0xFF :: cur ++ [b]) [] _ fuel).
        -- rewrite <- !app_assoc. reflexivity.
        -- unfold len. cbn [length]. lia.
        -- rewrite length_app in Hf. cbn [length] in Hf. lia.
      * rewrite (IH pre (cur ++ [b]) result fuel).
        -- rewrite <- !app_assoc. reflexivity.
        -- rewrite len_app. unfold len in *. cbn [length]. lia.
        -- exact Hf.
Qed.

Lemma cobsDecode_blocks data :
  bytes data -> cobsDecode (blocks [] data) = Some data.
Proof.
  intros Hd. unfold cobsDecode.
  pose proof (dec_loop_blocks data [] [] [] (length (blocks [] data))) as E.
  rewrite !app_nil_l in E. cbn [length] in E.
  rewrite E by (unfold len; cbn [length]; lia).
  rewrite Uint8Array_of_id by exact Hd. reflexivity.
Qed.

End COBSFacts.

(** ** The SLIP codec *)

Section SLIPFacts.
Import JS SLIPDecoder SLIPStuffing.

Lemma fold_enc_body data : forall acc,
  fold_left enc_body data acc = acc ++ stuffed data.
Proof.
  induction data as [| b rest IH]; intros acc.
  - cbn [fold_left stuffed flat_map]. rewrite app_nil_r. reflexivity.
  - rewrite fold_left_cons, IH. unfold stuffed. cbn [flat_map].
    rewrite app_assoc. f_equal.
    unfold enc_body, escape.
    destruct (b =? END); [reflexivity |].
    destruct (b =? ESC); reflexivity.
Qed.

Lemma escape_bytes b : byte b -> bytes (escape b).
Proof.
  intros Hb. unfold escape, bytes.
  destruct (b =? END); [| destruct (b =? ESC)];
    repeat first [apply List.Forall_cons | apply List.Forall_nil];
    try exact Hb; unfold byte, ESC, ESC_END, ESC_ESC; lia.
Qed.

Lemma stuffed_bytes data : bytes data -> bytes (stuffed data).
Proof.
  induction 1 as [| b rest Hb _ IH]; unfold stuffed; cbn [flat_map].
  - constructor.
  - apply bytes_app; [apply escape_bytes, Hb | exact IH].
Qed.

Lemma escape_no_END b : ~ In END (escape b).
Proof.
  unfold escape.
  destruct (Z.eqb_spec b END) as [-> | H1]; [| destruct (Z.eqb_spec b ESC) as [-> | H2]];
    cbn [In]; unfold END, ESC, ESC_END, ESC_ESC in *; lia.
Qed.

Lemma stuffed_no_END data : ~ In END (stuffed data).
Proof.
  unfold stuffed. intros H. apply in_flat_map in H.
  destruct H as (b & _ & Hb). exact (escape_no_END b Hb).
Qed.

Lemma slipEncode_stuffed data :
  bytes data -> slipEncode data = stuffed data ++ [END].
Proof.
  intros Hd. unfold slipEncode. cbv zeta.
  rewrite fold_enc_body, app_nil_l.
  apply Uint8Array_of_id, bytes_app; [apply stuffed_bytes, Hd |].
  repeat constructor; unfold END; lia.
Qed.

(** The decoder undoes the stuffing and stops at the first [END]. *)
Lemma dec_loop_stuffed data : forall result tail,
  dec_loop (stuffed data ++ END :: tail) result false
  = Some (Uint8Array_of (result ++ data)).
Proof.
  induction data as [| b rest IH]; intros result tail.
  - rewrite app_nil_r. reflexivity.
  - unfold stuffed. cbn [flat_map]. fold (stuffed rest).
    rewrite <- app_assoc. unfold escape.
    destruct (Z.eqb_spec b END) as [-> | H1].
    + change (dec_loop ([ESC; ESC_END] ++ stuffed rest ++ END :: tail) result false)
        with (dec_loop (stuffed rest ++ END :: tail) (result ++ [END]) false).
      rewrite IH, <- app_assoc. reflexivity.
    + destruct (Z.eqb_spec b ESC) as [-> | H2].
      * change (dec_loop ([ESC; ESC_ESC] ++ stuffed rest ++ END :: tail) result false)
          with (dec_loop (stuffed rest ++ END :: tail) (result ++ [ESC]) false).
        rewrite IH, <- app_assoc. reflexivity.
      * cbn [app dec_loop].
        destruct (Z.eqb_spec b END); [contradiction |].
        destruct (Z.eqb_spec b ESC); [contradiction |].
        rewrite IH, <- app_assoc. reflexivity.
Qed.

Lemma slipDecode_stuffed data :
  bytes data -> slipDecode (stuffed data ++ [END]) = Some data.
Proof.
  intros Hd. unfold slipDecode.
  rewrite dec_loop_stuffed, app_nil_l, Uint8Array_of_id by exact Hd.
  reflexivity.
Qed.

End SLIPFacts.

(** ** The CAN adapter *)

Section CANFacts.
Import JS CANHandle.

Lemma lor_range k a b : 0 <= k -> 0 <= a < 2 ^ k -> 0 <= b < 2 ^ k ->
  0 <= Z.lor a b < 2 ^ k.
Proof.
  intros Hk Ha Hb.
  assert (Hn : 0 <= Z.lor a b) by (apply Z.lor_nonneg; lia).
  split; [exact Hn |].
  apply (Z.bounded_iff_bits_nonneg k _ Hk Hn). intros i Hi.
  rewrite Z.lor_spec, (testbit_above a k i), (testbit_above b k i) by lia.
  reflexivity.
Qed.

(** [(b0 << 24) | (b1 << 16) | (b2 << 8) | b3] on four bytes, the
    first below [0x80], is the big-endian number they spell. *)
Lemma be32 b0 b1 b2 b3 :
  0 <= b0 < 128 -> byte b1 -> byte b2 -> byte b3 ->
  bor (bor (bor (shl b0 24) (shl b1 16)) (shl b2 8)) b3
  = b0 * 2 ^ 24 + b1 * 2 ^ 16 + b2 * 2 ^ 8 + b3.
Proof.
  unfold byte. intros H0 H1 H2 H3.
  rewrite !shl_small by lia.
  assert (E3 : Z.lor (b2 * 2 ^ 8) b3 = b2 * 2 ^ 8 + b3)
    by (apply lor_shiftl_add; lia).
  assert (E2 : Z.lor (b1 * 2 ^ 16) (b2 * 2 ^ 8 + b3) = b1 * 2 ^ 16 + (b2 * 2 ^ 8 + b3))
    by (apply lor_shiftl_add; lia).
  assert (E1 : Z.lor (b0 * 2 ^ 24) (b1 * 2 ^ 16 + (b2 * 2 ^ 8 + b3))
               = b0 * 2 ^ 24 + (b1 * 2 ^ 16 + (b2 * 2 ^ 8 + b3)))
    by (apply lor_shiftl_add; lia).
  pose proof (lor_range 31 (b0 * 2 ^ 24) (b1 * 2 ^ 16) ltac:(lia) ltac:(lia) ltac:(lia)).
  pose proof (lor_range 31 (Z.lor (b0 * 2 ^ 24) (b1 * 2 ^ 16)) (b2 * 2 ^ 8)
                ltac:(lia) ltac:(lia) ltac:(lia)).
  rewrite (bor_small (b0 * 2 ^ 24)) by lia.
  rewrite (bor_small (Z.lor _ _) (b2 * 2 ^ 8)) by lia.
  rewrite bor_small by lia.
  rewrite <- !Z.lor_assoc, E3, E2, E1. lia.
Qed.

(** The filter test, as a proposition. *)
Lemma filter_matches_spec msg f :
  filter_matches msg f = true <->
  band (CANMessage.id msg) (CanFilter.mask f) = band (CanFilter.id f) (CanFilter.mask f)
  /\ (CanFilter.extended f = None \/ CanFilter.extended f = Some (CANMessage.ext msg)).
Proof.
  unfold filter_matches. cbv zeta.
  rewrite andb_true_iff, Z.eqb_eq.
  destruct (CanFilter.extended f) as [e |].
  - rewrite Bool.eqb_true_iff. intuition congruence.
  - intuition congruence.
Qed.

Lemma onMessage_passes h timestamp msg :
  is_Some (onMessage h timestamp msg) <->
  filters h = [] \/ existsb (filter_matches msg) (filters h) = true.
Proof.
  unfold onMessage.
  destruct (filters h) as [| f fs] eqn:Ef.
  - cbn [length existsb]. change (0 <? Z.of_nat 0) with false. cbn [andb].
    split; [intros _; left; reflexivity | intros _; eexists; reflexivity].
  - destruct (Z.ltb_spec 0 (Z.of_nat (length (f :: fs)))) as [_ | L];
      [| cbn [length] in L; lia].
    destruct (existsb (filter_matches msg) (f :: fs)); cbn [andb negb].
    + split; [intros _; right; reflexivity | intros _; eexists; reflexivity].
    + split; [intros [x Hx]; discriminate | intros [H | H]; discriminate].
Qed.

(** A message that passes reaches every subscriber once, in
    subscription order, and is counted. *)
Lemma onMessage_calls h timestamp msg h' calls :
  onMessage h timestamp msg = Some (h', calls) ->
  map callback calls = readCallbacks h
  /\ readCallbacks h' = readCallbacks h
  /\ AdapterStats.messagesRx (stats h') = AdapterStats.messagesRx (stats h) + 1.
Proof.
  unfold onMessage.
  destruct (_ && _); [discriminate |].
  cbv zeta. intros E. injection E as <- <-.
  cbn [readCallbacks stats AdapterStats.messagesRx].
  rewrite map_map. cbn [callback]. rewrite map_id. auto.
Qed.

Section WriteFacts.
Variable channel_send : CANMessage.t -> option string.

Lemma write_short h frame :
  len frame < 5 ->
  write channel_send h frame = (h, Throws "Invalid CAN frame: too short").
Proof.
  intros H. unfold write.
  destruct (Z.ltb_spec (len frame) 5); [reflexivity | lia].
Qed.

(** With five bytes or more the outcome is the channel's: nothing
    else is tested. *)
Lemma write_long h frame :
  5 <= len frame ->
  snd (write channel_send h frame)
  = match channel_send (write_message frame) with
    | None => Returns tt
    | Some e => Throws e
    end.
Proof.
  intros H. unfold write.
  destruct (Z.ltb_spec (len frame) 5); [lia |].
  cbv zeta. destruct (channel_send _); reflexivity.
Qed.
End WriteFacts.

Lemma write_message_fields frame :
  bytes frame -> get frame 0 < 0x80 ->
  let id := get frame 0 * 2 ^ 24 + get frame 1 * 2 ^ 16
            + get frame 2 * 2 ^ 8 + get frame 3 in
  write_message frame
  = CANMessage.mk id (0x7FF <? id) false
      (take (Z.to_nat (get frame 4)) (drop 5 frame)).
Proof.
  intros Hb H0. cbv zeta. unfold write_message. cbv zeta.
  pose proof (bytes_get frame 0 Hb) as B0.
  pose proof (bytes_get frame 4 Hb) as B4.
  rewrite be32 by (try apply bytes_get; try assumption; unfold byte in B0; lia).
  unfold slice.
  replace (Z.to_nat (5 + get frame 4) - 5)%nat with (Z.to_nat (get frame 4))
    by (unfold byte in B4; lia).
  reflexivity.
Qed.

End CANFacts.


(* ================================================================== *)
(** * The specification's claims *)
(* ================================================================== *)

Import JS EFuseLayout.

(** Closes a goal [bytes [b1; ...; bn]] whose elements are literals or
    bytes by assumption. *)
Ltac literal_bytes :=
  unfold bytes;
  repeat first [apply List.Forall_cons | apply List.Forall_nil];
  try assumption; unfold byte; lia.


(** ** CRC primitives *)

(** C7. CRC reference vectors: the CRC-16/CCITT-FALSE of the ASCII bytes
    of "123456789" is 0x29B1 and their CRC-32 is 0xCBF43926; both
    routines give equal outputs on equal inputs. *)
Theorem crc_reference_vectors :
  CRCCalculator.crc16CcittFalse check_string = 0x29B1
  /\ CRCCalculator.crc32 check_string = 0xCBF43926
  /\ (forall a b : list Z, a = b ->
        CRCCalculator.crc16CcittFalse a = CRCCalculator.crc16CcittFalse b
        /\ CRCCalculator.crc32 a = CRCCalculator.crc32 b).
Proof.
  split; [vm_compute; reflexivity |].
  split; [vm_compute; reflexivity |].
  intros a b ->. split; reflexivity.
Qed.

Lemma crc_reference_vectors_witness :
  CRCCalculator.crc16CcittFalse [49; 50; 51] = CRCCalculator.crc16CcittFalse [49; 50; 51]
  /\ CRCCalculator.crc32 [49; 50; 51] = CRCCalculator.crc32 [49; 50; 51].
Proof.
  exact (proj2 (proj2 crc_reference_vectors) [49; 50; 51] [49; 50; 51] eq_refl).
Defined.

(** C10. CRC implementation refinement: on every byte array the
    bit-by-bit CRC of the UART burst simulator equals the table-driven
    CRC-16/CCITT-FALSE, and therefore every burst-mode sample frame
    passes the EFuse validator and decodes with a valid checksum. *)
Theorem uart_crc_refines_table :
  (forall b : list Z, bytes b ->
     UARTSimulator.calculateCrc16 b = CRCCalculator.crc16CcittFalse b)
  /\ (forall (floor_sin_500 : Z -> Z) (sequence : Z),
        let frame := UARTSimulator.generateSampleFrame floor_sin_500 sequence in
        EFuseDecoder.validate frame = None
        /\ exists d, EFuseDecoder.decode frame = Some d
                     /\ checksum_valid d = Some true).
Proof.
  split; [exact calculateCrc16_crc16CcittFalse |].
  intros f sequence frame. subst frame.
  unfold UARTSimulator.generateSampleFrame. cbv zeta.
  set (adc := 2048 + f sequence).
  cbn [Uint8Array_of map app].
  set (hi := to_uint8 (band (shr adc 8) 255)).
  set (lo := to_uint8 (band adc 255)).
  assert (Bhi : byte hi) by apply to_uint8_byte.
  assert (Blo : byte lo) by apply to_uint8_byte.
  change (to_uint8 1) with 1. change (to_uint8 0) with 0.
  change (to_uint8 2) with 2. change (to_uint8 170) with 170.
  change (to_uint8 187) with 187.
  rewrite !(to_uint8_id hi), !(to_uint8_id lo) by assumption.
  assert (Bp : bytes [hi; lo]) by literal_bytes.
  assert (Bd : bytes [1; 0; 2; hi; lo]) by literal_bytes.
  rewrite (calculateCrc16_crc16CcittFalse _ Bd).
  set (crc := CRCCalculator.crc16CcittFalse [1; 0; 2; hi; lo]).
  assert (Hc : 0 <= crc < 65536) by apply crc16CcittFalse_range.
  rewrite (high_byte crc Hc), (low_byte crc).
  change [170; 1; 0; 2; hi; lo; crc / 256; crc mod 256; 187]
    with (frame 1 [hi; lo] crc).
  assert (B1 : byte 1) by (unfold byte; lia).
  assert (Hl : len [hi; lo] < 65536) by (unfold len; cbn [length]; lia).
  split.
  - apply validate_frame; try assumption. reflexivity.
  - exists (decoded (frame 1 [hi; lo] crc)). split.
    + apply decode_frame; assumption.
    + rewrite decoded_valid, frame_stored, frame_computed.
      change (CRCCalculator.crc16CcittFalse
                ([1; len [hi; lo] / 256; len [hi; lo] mod 256] ++ [hi; lo])) with crc.
      rewrite Z.eqb_refl. reflexivity.
Qed.

Lemma uart_crc_refines_table_witness :
  UARTSimulator.calculateCrc16 [1; 0; 2; 8; 0] = CRCCalculator.crc16CcittFalse [1; 0; 2; 8; 0].
Proof.
  apply (proj1 uart_crc_refines_table [1; 0; 2; 8; 0]). literal_bytes.
Defined.

(** ** EFuse codec *)

(** C1. EFuse round-trip: for every type in 0..255 and every payload of
    at most 65535 bytes, encoding a field list that carries them and
    decoding the result gives a frame (not none) whose [type] field is
    the input type, whose [payload] field is the input payload, and
    whose checksum is valid. *)
Theorem efuse_round_trip fields tf pf type payload :
  find_field "type" fields = Some tf ->
  FrameField.value tf = VNumber type ->
  find_field "payload" fields = Some pf ->
  FrameField.value pf = VBytes payload ->
  0 <= type <= 255 -> bytes payload -> len payload <= 65535 ->
  exists frame d,
    EFuseDecoder.encode fields = Returns frame
    /\ EFuseDecoder.decode frame = Some d
    /\ field_value "type" d = Some (VNumber type)
    /\ field_value "payload" d = Some (VBytes payload)
    /\ checksum_valid d = Some true.
Proof.
  intros Ht Hvt Hp Hvp Htype Hpayload Hlen.
  assert (Bt : byte type) by (unfold byte; lia).
  assert (Hl : len payload < 65536) by lia.
  exists (sealed type payload), (decoded (sealed type payload)).
  split; [apply (encode_layout fields tf pf); assumption |].
  unfold sealed.
  split; [apply decode_frame; try assumption; apply crc16CcittFalse_range |].
  rewrite decoded_type, decoded_payload, decoded_valid.
  rewrite frame_type, frame_payload, frame_stored, frame_computed, Z.eqb_refl.
  auto.
Qed.

Lemma efuse_round_trip_witness :
  exists frame d,
    EFuseDecoder.encode
      [ FrameField.mk "type" (VNumber 1) uint8 [] 0 None;
        FrameField.mk "payload" (VBytes [8; 0]) bytes_t [] 0 None ] = Returns frame
    /\ EFuseDecoder.decode frame = Some d
    /\ field_value "type" d = Some (VNumber 1)
    /\ field_value "payload" d = Some (VBytes [8; 0])
    /\ checksum_valid d = Some true.
Proof.
  apply (efuse_round_trip _
           (FrameField.mk "type" (VNumber 1) uint8 [] 0 None)
           (FrameField.mk "payload" (VBytes [8; 0]) bytes_t [] 0 None));
    try reflexivity; try lia; try literal_bytes.
  unfold len. cbn [length]. lia.
Defined.

(** C2 as written, with the total [6 + length], fails on a well-formed
    nine-byte frame that declares two payload bytes: the frame
    decodes although [9 <> 6 + 2]. *)
Lemma efuse_decode_total_6_counterexample :
  ~ (EFuseDecoder.decode adc_frame = None <->
     len adc_frame < 7 \/ first_byte adc_frame <> 0xAA
     \/ last_byte adc_frame <> 0xBB
     \/ len adc_frame <> 6 + declared_length adc_frame).
Proof.
  intros [_ H].
  assert (E : EFuseDecoder.decode adc_frame = None).
  { apply H. right. right. right. vm_compute. discriminate. }
  vm_compute in E. discriminate.
Qed.

(** C2, amended. EFuse decode policy: [decode] returns none exactly when
    the input has fewer than 7 bytes, or its first byte is not 0xAA, or
    its last byte is not 0xBB, or its length differs from [7 + length]
    for the declared payload length; otherwise it returns a frame whose
    checksum flag reports whether the stored CRC equals the computed
    one, so a wrong CRC alone never makes it return none. *)
Theorem efuse_decode_policy raw :
  bytes raw ->
  (EFuseDecoder.decode raw = None <->
     len raw < 7 \/ first_byte raw <> 0xAA \/ last_byte raw <> 0xBB
     \/ len raw <> 7 + declared_length raw)
  /\ (7 <= len raw -> first_byte raw = 0xAA -> last_byte raw = 0xBB ->
      len raw = 7 + declared_length raw ->
      exists d, EFuseDecoder.decode raw = Some d
                /\ checksum_valid d = Some (stored_crc raw =? computed_crc raw)).
Proof.
  intros H. rewrite (decode_eq raw H).
  destruct (Z.ltb_spec (len raw) 7) as [L | L];
  [| destruct (Z.eqb_spec (first_byte raw) 0xAA) as [S | S];
     [ destruct (Z.eqb_spec (last_byte raw) 0xBB) as [E | E];
       [ destruct (Z.eqb_spec (len raw) (7 + declared_length raw)) as [N | N] |] |] ];
  cbn [negb orb]; (split; [split |]); intros; try discriminate; try lia;
    try tauto.
  exists (decoded raw). split; [reflexivity | apply decoded_valid].
Qed.

Lemma efuse_decode_policy_witness :
  exists d, EFuseDecoder.decode adc_frame_bad_crc = Some d
            /\ checksum_valid d = Some false.
Proof.
  assert (B : bytes adc_frame_bad_crc) by (unfold adc_frame_bad_crc; literal_bytes).
  destruct (proj2 (efuse_decode_policy adc_frame_bad_crc B)) as (d & Hd & Hv);
    [vm_compute; discriminate | reflexivity | reflexivity | reflexivity |].
  exists d. split; [exact Hd |]. rewrite Hv. vm_compute. reflexivity.
Defined.

(** C3. EFuse validate error codes and check order: [validate] returns
    the first applicable error among FRAME_TOO_SHORT (fewer than 7
    bytes), INVALID_START_MARKER (first byte not 0xAA),
    INVALID_END_MARKER (last byte not 0xBB), LENGTH_MISMATCH (declared
    length does not match the frame length) and CRC_MISMATCH (stored CRC
    differs from the computed CRC-16/CCITT-FALSE); every error has
    severity [error], and a well-formed frame gives none. *)
Theorem efuse_validate_order raw :
  bytes raw ->
  let code := error_code (EFuseDecoder.validate raw) in
  (len raw < 7 -> code = Some "FRAME_TOO_SHORT") /\
  (7 <= len raw -> first_byte raw <> 0xAA -> code = Some "INVALID_START_MARKER") /\
  (7 <= len raw -> first_byte raw = 0xAA -> last_byte raw <> 0xBB ->
     code = Some "INVALID_END_MARKER") /\
  (7 <= len raw -> first_byte raw = 0xAA -> last_byte raw = 0xBB ->
     len raw <> 7 + declared_length raw -> code = Some "LENGTH_MISMATCH") /\
  (7 <= len raw -> first_byte raw = 0xAA -> last_byte raw = 0xBB ->
     len raw = 7 + declared_length raw -> stored_crc raw <> computed_crc raw ->
     code = Some "CRC_MISMATCH") /\
  (7 <= len raw -> first_byte raw = 0xAA -> last_byte raw = 0xBB ->
     len raw = 7 + declared_length raw -> stored_crc raw = computed_crc raw ->
     EFuseDecoder.validate raw = None) /\
  (forall e, EFuseDecoder.validate raw = Some e -> FrameError.severity e = error).
Proof. exact (validate_cases raw). Qed.

Lemma efuse_validate_order_witness :
  error_code (EFuseDecoder.validate adc_frame_bad_crc) = Some "CRC_MISMATCH".
Proof.
  assert (B : bytes adc_frame_bad_crc) by (unfold adc_frame_bad_crc; literal_bytes).
  apply (efuse_validate_order adc_frame_bad_crc B);
    try reflexivity; vm_compute; discriminate.
Defined.

(** C4. Validate/decode independence: in a well-formed EFuse frame
    (decode succeeds with a valid checksum and validate returns none),
    replacing either byte of the CRC field by a different byte gives an
    input on which validate returns CRC_MISMATCH while decode still
    returns a frame, whose checksum flag is false. *)
Theorem efuse_crc_flip raw d i v :
  bytes raw ->
  EFuseDecoder.decode raw = Some d ->
  checksum_valid d = Some true ->
  EFuseDecoder.validate raw = None ->
  i = Z.to_nat (4 + declared_length raw) \/ i = Z.to_nat (4 + declared_length raw + 1) ->
  byte v -> v <> get raw i ->
  error_code (EFuseDecoder.validate (<[i := v]> raw)) = Some "CRC_MISMATCH"
  /\ exists d', EFuseDecoder.decode (<[i := v]> raw) = Some d'
                /\ checksum_valid d' = Some false.
Proof.
  intros B Hd Hv _ Hi Bv Hne.
  pose proof (declared_length_range raw B) as Hn.
  (* the structural tests passed on [raw] *)
  rewrite (decode_eq raw B) in Hd.
  destruct (Z.ltb_spec (len raw) 7) as [| L]; [discriminate |].
  destruct (Z.eqb_spec (first_byte raw) 0xAA) as [Hs |]; [| discriminate].
  destruct (Z.eqb_spec (last_byte raw) 0xBB) as [He |]; [| discriminate].
  destruct (Z.eqb_spec (len raw) (7 + declared_length raw)) as [N |]; [| discriminate].
  cbn [negb orb] in Hd. injection Hd as <-.
  rewrite decoded_valid in Hv. injection Hv as Hv. apply Z.eqb_eq in Hv.
  (* they still pass on the mutated frame *)
  set (raw' := <[i := v]> raw).
  assert (B' : bytes raw') by (apply bytes_insert; assumption).
  assert (L' : len raw' = len raw) by (unfold len, raw'; rewrite length_insert; reflexivity).
  assert (Hlen : length raw = Z.to_nat (7 + declared_length raw)) by (unfold len in N; lia).
  assert (S' : first_byte raw' = 0xAA).
  { unfold first_byte, raw'. rewrite get_insert_ne by lia. exact Hs. }
  assert (E' : last_byte raw' = 0xBB).
  { unfold last_byte, raw'. rewrite length_insert, get_insert_ne by lia. exact He. }
  assert (D' : declared_length raw' = declared_length raw).
  { unfold declared_length, raw'. rewrite !get_insert_ne by lia. reflexivity. }
  assert (C' : computed_crc raw' = computed_crc raw).
  { unfold computed_crc. rewrite D'. unfold raw'.
    rewrite slice_insert_ge by lia. reflexivity. }
  assert (X' : stored_crc raw' <> stored_crc raw).
  { unfold stored_crc. rewrite D'.
    replace (4 + declared_length raw) with (Z.of_nat (Z.to_nat (4 + declared_length raw))) by lia.
    replace (Z.of_nat (Z.to_nat (4 + declared_length raw)) + 1)
      with (Z.of_nat (S (Z.to_nat (4 + declared_length raw)))) by lia.
    rewrite !getZ_nat. unfold raw'.
    pose proof (bytes_get raw (Z.to_nat (4 + declared_length raw)) B) as B1.
    pose proof (bytes_get raw (S (Z.to_nat (4 + declared_length raw))) B) as B2.
    unfold byte in *.
    destruct Hi as [-> | ->].
    - rewrite get_insert_eq by lia. rewrite get_insert_ne by lia. lia.
    - replace (Z.to_nat (4 + declared_length raw + 1))
        with (S (Z.to_nat (4 + declared_length raw))) in * by lia.
      rewrite get_insert_ne by lia. rewrite get_insert_eq by lia. lia. }
  split.
  - apply (validate_cases raw' B'); try assumption; lia.
  - exists (decoded raw'). split.
    + rewrite (decode_eq raw' B'), L', S', E', D'.
      destruct (Z.ltb_spec (len raw) 7); [lia |].
      rewrite N at 1. rewrite !Z.eqb_refl. reflexivity.
    + rewrite decoded_valid. f_equal. apply Z.eqb_neq. rewrite C'. congruence.
Qed.

Lemma efuse_crc_flip_witness :
  error_code (EFuseDecoder.validate (<[6%nat := 0x5D]> adc_frame)) = Some "CRC_MISMATCH"
  /\ exists d', EFuseDecoder.decode (<[6%nat := 0x5D]> adc_frame) = Some d'
                /\ checksum_valid d' = Some false.
Proof.
  assert (B : bytes adc_frame) by (unfold adc_frame; literal_bytes).
  apply (efuse_crc_flip adc_frame (decoded adc_frame) 6%nat 0x5D B).
  - vm_compute. reflexivity.
  - vm_compute. reflexivity.
  - vm_compute. reflexivity.
  - left. vm_compute. reflexivity.
  - unfold byte. lia.
  - vm_compute. discriminate.
Defined.

(** ** Line-framing codecs *)

(** C5. COBS round-trip: for every byte array, zeros and runs of more
    than 254 non-zero bytes included, decoding the encoding gives the
    array back, and the encoding contains no zero byte. *)
Theorem cobs_round_trip (b : list Z) :
  bytes b ->
  COBSDecoder.cobsDecode (COBSDecoder.cobsEncode b) = Some b
  /\ ~ In 0 (COBSDecoder.cobsEncode b).
Proof.
  intros Hb.
  assert (Hnz : Forall COBSBlocks.nonzero_byte (COBSBlocks.blocks [] b)).
  { apply blocks_nonzero; [constructor | exact Hb | unfold len; cbn [length]; lia]. }
  rewrite cobsEncode_blocks, Uint8Array_of_id by (apply nonzero_bytes, Hnz).
  split; [apply cobsDecode_blocks, Hb |].
  intros Hin. rewrite List.Forall_forall in Hnz.
  specialize (Hnz 0 Hin). unfold COBSBlocks.nonzero_byte in Hnz. lia.
Qed.

Lemma cobs_round_trip_witness :
  COBSDecoder.cobsDecode (COBSDecoder.cobsEncode [0; 0; 1]) = Some [0; 0; 1]
  /\ ~ In 0 (COBSDecoder.cobsEncode [0; 0; 1]).
Proof. apply (cobs_round_trip [0; 0; 1]). literal_bytes. Defined.

(** The encoder on a zero-heavy block, and a run of 300 non-zero bytes
    followed by a zero through both directions. *)
Example cobs_zero_heavy : COBSDecoder.cobsEncode [0; 0; 1] = [1; 1; 2; 1].
Proof. vm_compute. reflexivity. Qed.

Example cobs_long_run :
  COBSDecoder.cobsDecode (COBSDecoder.cobsEncode (replicate 300 7 ++ [0]))
  = Some (replicate 300 7 ++ [0]).
Proof. vm_compute. reflexivity. Qed.

(** C6. SLIP round-trip: for every byte array, decoding the encoding
    gives the array back, and the encoding is a body without any END
    byte (0xC0) followed by the single trailing END. *)
Theorem slip_round_trip (b : list Z) :
  bytes b ->
  SLIPDecoder.slipDecode (SLIPDecoder.slipEncode b) = Some b
  /\ exists body, SLIPDecoder.slipEncode b = body ++ [0xC0] /\ ~ In 0xC0 body.
Proof.
  intros Hb. rewrite slipEncode_stuffed by exact Hb.
  split; [apply slipDecode_stuffed, Hb |].
  exists (SLIPStuffing.stuffed b). split; [reflexivity | apply stuffed_no_END].
Qed.

Lemma slip_round_trip_witness :
  SLIPDecoder.slipDecode (SLIPDecoder.slipEncode [1; 0xC0; 0xDB; 5]) = Some [1; 0xC0; 0xDB; 5]
  /\ exists body,
       SLIPDecoder.slipEncode [1; 0xC0; 0xDB; 5] = body ++ [0xC0] /\ ~ In 0xC0 body.
Proof. apply (slip_round_trip [1; 0xC0; 0xDB; 5]). literal_bytes. Defined.

(** ** CAN adapter *)

(** C8 as written fails for the empty filter set: no filter accepts the
    message, yet it is delivered. *)
Lemma can_filter_empty_counterexample :
  ~ (delivered (handle_with []) 0 obd_request <->
     exists f, In f (CANHandle.filters (handle_with [])) /\ filter_accepts obd_request f).
Proof.
  intros [H _].
  destruct H as (f & Hin & _).
  - eexists. vm_compute. reflexivity.
  - exact Hin.
Qed.

(** C8, amended. CAN filter semantics: a received message is delivered
    to the subscribers iff the filter set is empty or some filter [f] in
    it satisfies [(msg.id & f.mask) == (f.id & f.mask)] with
    [f.extended] unset or equal to [msg.ext]; a delivered message
    reaches every subscriber once, in subscription order. *)
Theorem can_filter_semantics h timestamp msg :
  (delivered h timestamp msg <->
     CANHandle.filters h = []
     \/ exists f, In f (CANHandle.filters h) /\ filter_accepts msg f)
  /\ (forall h' calls,
        CANHandle.onMessage h timestamp msg = Some (h', calls) ->
        map CANHandle.callback calls = CANHandle.readCallbacks h).
Proof.
  split.
  - unfold delivered. rewrite onMessage_passes, existsb_exists.
    unfold filter_accepts.
    split; (intros [H | (f & Hin & Hf)]; [left; exact H | right; exists f]);
      (split; [exact Hin | apply filter_matches_spec; exact Hf]).
  - intros h' calls H. apply (onMessage_calls h timestamp msg h' calls H).
Qed.

Lemma can_filter_semantics_witness :
  map CANHandle.callback
    [CANHandle.mk_call 1
       [0; 0; 7; 224; 8; 2; 1; 12; 0; 0; 0; 0; 0]
       (RxMeta.mk 0 rx 13 (Some (CanMeta.mk 0x7E0 false false 8)))]
  = CANHandle.readCallbacks (handle_with [CanFilter.mk 0x7E0 0x7FF None]).
Proof.
  apply (proj2 (can_filter_semantics (handle_with [CanFilter.mk 0x7E0 0x7FF None])
                  0 obd_request)
           (CANHandle.mk (AdapterStats.mk 13 0 1 0 0) [1%nat]
              [CanFilter.mk 0x7E0 0x7FF None])).
  vm_compute. reflexivity.
Defined.

(** C9. The code at the failing input.  A five-byte frame whose dlc
    byte is 9 is not rejected by [write]: when the channel's send
    returns, the call returns, the message sent has the id 1 and no
    data, and the frame is counted as transmitted.  The validator of
    the CAN decoder reports the same frame as INVALID_DLC, and a frame
    of four bytes is rejected as the claim says. *)
Theorem can_write_dlc_unchecked :
  get [0; 0; 0; 1; 9] 4 > 8
  /\ CANHandle.write accept_all (handle_with []) [0; 0; 0; 1; 9]
     = (CANHandle.mk (AdapterStats.mk 0 5 0 1 0) [1%nat] [], Returns tt)
  /\ CANHandle.write_message [0; 0; 0; 1; 9] = CANMessage.mk 1 false false []
  /\ error_code (CANDecoder.validate [0; 0; 0; 1; 9]) = Some "INVALID_DLC"
  /\ CANHandle.write accept_all (handle_with []) [0; 0; 0; 1]
     = (handle_with [], Throws "Invalid CAN frame: too short").
Proof. repeat split; vm_compute; reflexivity. Qed.

(** What [write] does on every frame of bytes.  It fails with "too
    short" when the frame has fewer than 5 bytes; otherwise it tests
    nothing else, so a dlc byte above 8 is not rejected and the call
    fails only if the channel's send throws.  The message sent has an
    id, [ext = id > 0x7FF], [rtr = false] and as data the bytes from
    offset 5, at most [dlc = frame[4]] of them; for a frame whose first
    byte is below 0x80 the id is the big-endian u32 of the first four
    bytes. *)
Theorem can_write_parse (channel_send : CANMessage.t -> option string) h frame :
  bytes frame ->
  (len frame < 5 ->
     CANHandle.write channel_send h frame = (h, Throws "Invalid CAN frame: too short"))
  /\ (5 <= len frame ->
      snd (CANHandle.write channel_send h frame)
      = match channel_send (CANHandle.write_message frame) with
        | None => Returns tt
        | Some e => Throws e
        end)
  /\ (5 <= len frame ->
      exists id,
        CANHandle.write_message frame
        = CANMessage.mk id (0x7FF <? id) false
            (take (Z.to_nat (get frame 4)) (drop 5 frame)))
  /\ (5 <= len frame -> get frame 0 < 0x80 ->
      let id := get frame 0 * 2 ^ 24 + get frame 1 * 2 ^ 16
                + get frame 2 * 2 ^ 8 + get frame 3 in
      CANHandle.write_message frame
      = CANMessage.mk id (0x7FF <? id) false
          (take (Z.to_nat (get frame 4)) (drop 5 frame))).
Proof.
  intros B. split; [apply write_short |].
  split; [apply write_long |].
  split.
  - intros _. pose proof (bytes_get frame 4 B) as B4. unfold byte in B4.
    eexists. unfold CANHandle.write_message. cbv zeta. f_equal.
    unfold slice. f_equal. lia.
  - intros _ H0. apply write_message_fields; assumption.
Qed.

Lemma can_write_parse_witness :
  CANHandle.write_message [0; 0; 7; 0xE0; 8; 2; 1; 12; 0; 0; 0; 0; 0]
  = CANMessage.mk 0x7E0 false false [2; 1; 12; 0; 0; 0; 0; 0].
Proof.
  assert (B : bytes [0; 0; 7; 0xE0; 8; 2; 1; 12; 0; 0; 0; 0; 0]) by literal_bytes.
  apply (proj2 (proj2 (proj2 (can_write_parse accept_all (handle_with []) _ B)))).
  - unfold len. cbn [length]. lia.
  - vm_compute. reflexivity.
Defined.

(** With a first byte of 0x80 or more the shifts of [write] give a
    negative id, which is never above 0x7FF. *)
Example write_message_high_bit :
  CANHandle.write_message [0x80; 0; 0; 0; 0]
  = CANMessage.mk (-2147483648) false false [].
Proof. vm_compute. reflexivity. Qed.

(* ================================================================== *)
(** * Further properties of the code *)
(* ================================================================== *)

(** ** CRC primitives, continued *)

Section CRC16Detection.
Import Register16.

Lemma fold_byte16_range data : forall c,
  bytes data -> 0 <= c < 2 ^ 16 -> 0 <= fold_left byte16 data c < 2 ^ 16.
Proof.
  intros c Hd Hc.
  rewrite <- fold_crc16_step_register by assumption.
  apply fold_crc16_step_range, Hc.
Qed.

(** Only the zero register is sent to zero by one round. *)
Lemma round16_zero z : 0 <= z < 2 ^ 16 -> round16 z = 0 -> z = 0.
Proof.
  intros Hz. unfold round16, low. cbv zeta.
  pose proof (Z.div_mod (2 * z) (2 ^ 16) ltac:(lia)) as Hdm.
  pose proof (Z.mod_pos_bound (2 * z) (2 ^ 16) ltac:(lia)) as Hmb.
  destruct (Z.testbit z 15) eqn:Hb; intros H.
  - apply Z.lxor_eq in H. lia.
  - apply Z.testbit_false in Hb; [| lia].
    pose proof (Z.div_mod z (2 ^ 15) ltac:(lia)) as Hz15.
    pose proof (Z.mod_pos_bound z (2 ^ 15) ltac:(lia)).
    assert (0 <= z / 2 ^ 15 < 2).
    { split; [apply Z.div_pos; lia | apply Z.div_lt_upper_bound; lia]. }
    assert (z / 2 ^ 15 = 0).
    { destruct (Z.eq_dec (z / 2 ^ 15) 0) as [E | E]; [exact E |].
      replace (z / 2 ^ 15) with 1 in Hb by lia. discriminate. }
    lia.
Qed.

Lemma round16_inj x y :
  0 <= x < 2 ^ 16 -> 0 <= y < 2 ^ 16 -> round16 x = round16 y -> x = y.
Proof.
  intros Hx Hy H. apply Z.lxor_eq.
  apply round16_zero; [apply lxor_range; lia |].
  rewrite round16_lxor, H. apply Z.lxor_nilpotent.
Qed.

Lemma iter_round16_inj n x y :
  0 <= x < 2 ^ 16 -> 0 <= y < 2 ^ 16 ->
  Nat.iter n round16 x = Nat.iter n round16 y -> x = y.
Proof.
  intros Hx Hy. induction n as [| n IH]; [trivial |].
  rewrite !Nat.iter_succ. intros H. apply IH.
  apply round16_inj; [apply iter_round16_range, Hx | apply iter_round16_range, Hy | exact H].
Qed.

Lemma byte16_inj c b c' b' :
  0 <= c < 2 ^ 16 -> 0 <= c' < 2 ^ 16 -> byte b -> byte b' ->
  byte16 c b = byte16 c' b' -> Z.lxor c (b * 256) = Z.lxor c' (b' * 256).
Proof.
  unfold byte, byte16. intros Hc Hc' Hb Hb'.
  apply iter_round16_inj; apply lxor_range; lia.
Qed.

Lemma lxor_cancel_l a x y : Z.lxor a x = Z.lxor a y -> x = y.
Proof.
  intros H.
  assert (E : forall z, Z.lxor a (Z.lxor a z) = z).
  { intros z. rewrite <- Z.lxor_assoc, Z.lxor_nilpotent, Z.lxor_0_l. reflexivity. }
  rewrite <- (E x), H, E. reflexivity.
Qed.

Lemma lxor_cancel_r a x y : Z.lxor x a = Z.lxor y a -> x = y.
Proof. rewrite !(Z.lxor_comm _ a). apply lxor_cancel_l. Qed.

(** Two different registers stay different whatever bytes follow. *)
Lemma fold_byte16_inj data : forall c c',
  bytes data -> 0 <= c < 2 ^ 16 -> 0 <= c' < 2 ^ 16 ->
  fold_left byte16 data c = fold_left byte16 data c' -> c = c'.
Proof.
  induction data as [| b data IH]; intros c c' Hd Hc Hc' H; [exact H |].
  apply Forall_cons_1 in Hd. destruct Hd as [Hb Hd].
  rewrite !fold_left_cons in H.
  assert (R : forall x, 0 <= x < 2 ^ 16 -> 0 <= byte16 x b < 2 ^ 16).
  { intros x Hx. rewrite <- crc16_step_register by assumption. apply crc16_step_range. }
  apply IH in H; [| exact Hd | apply R, Hc | apply R, Hc'].
  apply byte16_inj in H; try assumption.
  apply lxor_cancel_r in H. exact H.
Qed.

Lemma high_low_lxor c :
  0 <= c < 2 ^ 16 -> Z.lxor c (c / 256 * 256) = c mod 256.
Proof.
  intros Hc.
  assert (Hq : byte (c / 256)).
  { unfold byte. split; [apply Z.div_pos; lia | apply Z.div_lt_upper_bound; lia]. }
  pose proof (split_high_low c (c / 256) Hc Hq) as E.
  rewrite Z.lxor_nilpotent in E. rewrite E. apply Z.lxor_0_l.
Qed.

End CRC16Detection.

(** X1. Appending the CRC-16 of a byte array to it, high byte first (as
    the EFuse encoder stores it), gives an array whose CRC-16 is zero. *)
Theorem crc16_residue_zero (data : list Z) :
  bytes data ->
  let crc := CRCCalculator.crc16CcittFalse data in
  CRCCalculator.crc16CcittFalse
    (data ++ [band (shr crc 8) 0xFF; band crc 0xFF]) = 0.
Proof.
  intros Hd crc.
  assert (Hc : 0 <= crc < 65536) by apply crc16CcittFalse_range.
  pose proof (high_byte crc Hc) as Hh. pose proof (low_byte crc) as Hl.
  assert (Bh : byte (crc / 256)).
  { unfold byte. split; [apply Z.div_pos; lia | apply Z.div_lt_upper_bound; lia]. }
  assert (Bl : byte (crc mod 256)) by (unfold byte; apply Z.mod_pos_bound; lia).
  assert (Eh : band (shr crc 8) 0xFF = crc / 256).
  { rewrite <- Hh. symmetry. apply to_uint8_id. rewrite band_0xFF.
    unfold byte. apply Z.mod_pos_bound. lia. }
  assert (El : band crc 0xFF = crc mod 256).
  { rewrite <- Hl. symmetry. apply to_uint8_id. rewrite band_0xFF.
    unfold byte. apply Z.mod_pos_bound. lia. }
  rewrite Eh, El.
  unfold CRCCalculator.crc16CcittFalse. rewrite fold_left_app.
  fold (CRCCalculator.crc16CcittFalse data). fold crc.
  rewrite !fold_left_cons.
  rewrite (crc16_step_register crc (crc / 256)) by (try assumption; lia).
  unfold Register16.byte16 at 1.
  rewrite high_low_lxor by lia.
  rewrite iter8_round16_small by (unfold byte in Bl; lia).
  rewrite crc16_step_register by (try assumption; unfold byte in Bl; lia).
  unfold Register16.byte16. rewrite Z.lxor_nilpotent. reflexivity.
Qed.

Lemma crc16_residue_zero_witness :
  CRCCalculator.crc16CcittFalse
    ([1; 0; 2; 8; 0]
       ++ [band (shr (CRCCalculator.crc16CcittFalse [1; 0; 2; 8; 0]) 8) 0xFF;
           band (CRCCalculator.crc16CcittFalse [1; 0; 2; 8; 0]) 0xFF]) = 0.
Proof. apply (crc16_residue_zero [1; 0; 2; 8; 0]). literal_bytes. Defined.

(** One replaced byte changes the register, whatever follows. *)
Lemma crc16_single_byte (p s : list Z) (b b' : Z) :
  bytes p -> bytes s -> byte b -> byte b' -> b <> b' ->
  CRCCalculator.crc16CcittFalse (p ++ b :: s)
  <> CRCCalculator.crc16CcittFalse (p ++ b' :: s).
Proof.
  intros Hp Hs Hb Hb' Hne H.
  rewrite !crc16CcittFalse_register in H
    by (apply bytes_app; [assumption | constructor; assumption]).
  rewrite !fold_left_app, !fold_left_cons in H.
  assert (Hc : 0 <= fold_left Register16.byte16 p 65535 < 2 ^ 16)
    by (apply fold_byte16_range; [assumption | lia]).
  assert (R : forall x, byte x ->
            0 <= Register16.byte16 (fold_left Register16.byte16 p 65535) x < 2 ^ 16).
  { intros x Hx. rewrite <- crc16_step_register by assumption. apply crc16_step_range. }
  apply fold_byte16_inj in H; [| assumption | apply R, Hb | apply R, Hb'].
  apply byte16_inj in H; try assumption.
  apply lxor_cancel_l in H. lia.
Qed.

(** X2. The CRC-16 detects every single-byte error: two byte arrays that
    differ in exactly one position have different CRCs. *)
Theorem crc16_detects_single_byte (p s : list Z) (b b' : Z) :
  bytes p -> bytes s -> byte b -> byte b' -> b <> b' ->
  CRCCalculator.crc16CcittFalse (p ++ b :: s)
  <> CRCCalculator.crc16CcittFalse (p ++ b' :: s).
Proof. exact (crc16_single_byte p s b b'). Qed.

Lemma crc16_detects_single_byte_witness :
  CRCCalculator.crc16CcittFalse ([1; 0; 2] ++ 8 :: [0])
  <> CRCCalculator.crc16CcittFalse ([1; 0; 2] ++ 9 :: [0]).
Proof.
  apply (crc16_detects_single_byte [1; 0; 2] [0] 8 9);
    try literal_bytes; unfold byte; lia.
Defined.

(** X3. [checksum8] is the sum of the elements modulo 256; hence it
    does not depend on their order, and the checksum of a concatenation
    is the sum of the two checksums modulo 256. *)
Theorem checksum8_sum (a b : list Z) :
  CRCCalculator.checksum8 a = total a mod 256
  /\ CRCCalculator.checksum8 (a ++ b)
     = (CRCCalculator.checksum8 a + CRCCalculator.checksum8 b) mod 256
  /\ (Permutation a b -> CRCCalculator.checksum8 a = CRCCalculator.checksum8 b).
Proof.
  assert (C : forall x l, total (x :: l) = x + total l) by reflexivity.
  assert (F : forall l s, fold_left (fun sum byte => band (sum + byte) 0xFF) l s
                          = if decide (l = []) then s else (s + total l) mod 256).
  { induction l as [| x l IH]; intros s; [reflexivity |].
    rewrite fold_left_cons, IH, band_0xFF, C. change (2 ^ 8) with 256.
    destruct (decide (x :: l = [])) as [E | _]; [discriminate |].
    destruct (decide (l = [])) as [-> | _].
    - f_equal. change (total []) with 0. lia.
    - rewrite Z.add_mod_idemp_l by lia. f_equal. lia. }
  assert (S1 : forall l, CRCCalculator.checksum8 l = total l mod 256).
  { intros l. unfold CRCCalculator.checksum8. rewrite F.
    destruct (decide (l = [])) as [-> | _]; reflexivity. }
  assert (T : forall l k, total (l ++ k) = total l + total k).
  { induction l as [| x l IH]; intros k.
    - change (total []) with 0. rewrite app_nil_l. lia.
    - rewrite <- app_comm_cons, !C, IH. lia. }
  split; [apply S1 |]. split.
  - rewrite !S1, T. apply Z.add_mod. lia.
  - intros P. rewrite !S1. f_equal.
    induction P; rewrite ?C; try lia; congruence.
Qed.

Lemma checksum8_sum_witness :
  CRCCalculator.checksum8 [1; 2; 255] = CRCCalculator.checksum8 [255; 1; 2].
Proof.
  apply (proj2 (proj2 (checksum8_sum [1; 2; 255] [255; 1; 2]))).
  symmetry. apply (Permutation_cons_append [1; 2] 255).
Defined.

(** ** EFuse codec, continued *)

Section EFuseMore.

Lemma slice_insert_mid (a : list Z) b e i v :
  (b <= i < e)%nat -> (e <= length a)%nat ->
  exists p s x, slice a b e = p ++ x :: s
                /\ slice (<[i := v]> a) b e = p ++ v :: s
                /\ x = get a i.
Proof.
  intros Hi He. unfold slice.
  rewrite drop_insert_ge by lia. rewrite take_insert_lt by lia.
  assert (L : (i - b < length (take (e - b) (drop b a)))%nat).
  { rewrite length_take, length_drop. lia. }
  destruct (lookup_lt_is_Some_2 _ _ L) as [x Hx].
  exists (take (i - b) (take (e - b) (drop b a))),
         (drop (S (i - b)) (take (e - b) (drop b a))), x.
  split; [symmetry; apply take_drop_middle, Hx |].
  split; [apply insert_take_drop, L |].
  rewrite lookup_take_lt, lookup_drop in Hx by lia.
  replace (b + (i - b))%nat with i in Hx by lia.
  unfold get. rewrite Hx. reflexivity.
Qed.

(** A frame on which [validate] returns none passes every test. *)
Lemma validate_none raw :
  bytes raw -> EFuseDecoder.validate raw = None ->
  7 <= len raw /\ first_byte raw = 0xAA /\ last_byte raw = 0xBB
  /\ len raw = 7 + declared_length raw /\ stored_crc raw = computed_crc raw.
Proof.
  intros B H.
  destruct (validate_eq raw B) as (m1 & m2 & m3 & m4 & m5 & E).
  rewrite H in E.
  destruct (Z.ltb_spec (len raw) 7); [discriminate |].
  destruct (Z.eqb_spec (first_byte raw) 0xAA); [| discriminate].
  destruct (Z.eqb_spec (last_byte raw) 0xBB); [| discriminate].
  destruct (Z.eqb_spec (len raw) (7 + declared_length raw)); [| discriminate].
  destruct (Z.eqb_spec (stored_crc raw) (computed_crc raw)); [| discriminate].
  auto.
Qed.

End EFuseMore.

(** X4. [validate] detects every single-byte corruption of a well-formed
    EFuse frame: replacing the byte at any index by a different byte
    gives INVALID_START_MARKER at index 0, INVALID_END_MARKER at the
    last index, LENGTH_MISMATCH in the length field and CRC_MISMATCH
    everywhere else (type, payload and CRC field). *)
Theorem efuse_single_byte_corruption raw i v :
  bytes raw -> EFuseDecoder.validate raw = None ->
  (i < length raw)%nat -> byte v -> v <> get raw i ->
  error_code (EFuseDecoder.validate (<[i := v]> raw))
  = Some (corruption_code (length raw) i).
Proof.
  intros B Hv Hi Bv Hne.
  destruct (validate_none raw B Hv) as (L & Hs & He & N & C).
  pose proof (declared_length_range raw B) as Hn.
  set (raw' := <[i := v]> raw).
  assert (B' : bytes raw') by (apply bytes_insert; assumption).
  assert (L' : len raw' = len raw) by (unfold len, raw'; rewrite length_insert; reflexivity).
  assert (Hlen : length raw = Z.to_nat (7 + declared_length raw)) by (unfold len in N; lia).
  pose proof (validate_cases raw' B') as V. cbv zeta in V.
  destruct V as (_ & V2 & V3 & V4 & V5 & _).
  unfold corruption_code.
  destruct (Nat.eqb_spec i 0) as [-> | H0].
  { apply V2; [lia |]. unfold first_byte, raw'.
    rewrite get_insert_eq by lia. unfold first_byte in Hs. congruence. }
  assert (Hs' : first_byte raw' = 0xAA).
  { unfold first_byte, raw'. rewrite get_insert_ne by lia. exact Hs. }
  destruct (Nat.eqb_spec i (length raw - 1)) as [-> | H1].
  { apply V3; [lia | exact Hs' |]. unfold last_byte, raw'.
    rewrite length_insert, get_insert_eq by lia. unfold last_byte in He. congruence. }
  assert (He' : last_byte raw' = 0xBB).
  { unfold last_byte, raw'. rewrite length_insert, get_insert_ne by lia. exact He. }
  pose proof (bytes_get raw 2 B) as B2. pose proof (bytes_get raw 3 B) as B3.
  unfold byte in Bv, B2, B3.
  destruct (Nat.eqb_spec i 2) as [-> | H2].
  { apply V4; [lia | exact Hs' | exact He' |].
    rewrite L'. unfold declared_length, raw' in *.
    rewrite get_insert_eq, get_insert_ne by lia. lia. }
  destruct (Nat.eqb_spec i 3) as [-> | H3].
  { apply V4; [lia | exact Hs' | exact He' |].
    rewrite L'. unfold declared_length, raw' in *.
    rewrite get_insert_ne, get_insert_eq by lia. lia. }
  cbn [orb].
  assert (D' : declared_length raw' = declared_length raw).
  { unfold declared_length, raw'. rewrite !get_insert_ne by lia. reflexivity. }
  apply V5; [lia | exact Hs' | exact He' | lia |].
  destruct (Nat.lt_ge_cases i (Z.to_nat (4 + declared_length raw))) as [Hlt | Hge].
  - (* type or payload: the stored CRC stays, the computed one moves *)
    assert (X : stored_crc raw' = stored_crc raw).
    { unfold stored_crc. rewrite D'.
      replace (4 + declared_length raw) with (Z.of_nat (Z.to_nat (4 + declared_length raw))) by lia.
      replace (Z.of_nat (Z.to_nat (4 + declared_length raw)) + 1)
        with (Z.of_nat (S (Z.to_nat (4 + declared_length raw)))) by lia.
      rewrite !getZ_nat. unfold raw'. rewrite !get_insert_ne by lia. reflexivity. }
    rewrite X, C. unfold computed_crc. rewrite D'.
    destruct (slice_insert_mid raw 1 (Z.to_nat (4 + declared_length raw)) i v)
      as (p & s & x & E1 & E2 & Ex); [lia | lia |].
    fold raw' in E2. rewrite E1, E2.
    assert (Bsl : bytes (p ++ x :: s)).
    { rewrite <- E1. unfold slice. apply Forall_take, Forall_drop, B. }
    apply Forall_app in Bsl. destruct Bsl as [Bp Bxs].
    apply Forall_cons_1 in Bxs. destruct Bxs as [Bx Bs].
    apply crc16_single_byte; try assumption. congruence.
  - (* the CRC field: the computed CRC stays, the stored one moves *)
    assert (C' : computed_crc raw' = computed_crc raw).
    { unfold computed_crc. rewrite D'. unfold raw'.
      rewrite slice_insert_ge by lia. reflexivity. }
    rewrite C', <- C. unfold stored_crc. rewrite D'.
    replace (4 + declared_length raw) with (Z.of_nat (Z.to_nat (4 + declared_length raw))) by lia.
    replace (Z.of_nat (Z.to_nat (4 + declared_length raw)) + 1)
      with (Z.of_nat (S (Z.to_nat (4 + declared_length raw)))) by lia.
    rewrite !getZ_nat. unfold raw'.
    pose proof (bytes_get raw (Z.to_nat (4 + declared_length raw)) B) as B4.
    pose proof (bytes_get raw (S (Z.to_nat (4 + declared_length raw))) B) as B5.
    unfold byte in B4, B5.
    destruct (Nat.eq_dec i (Z.to_nat (4 + declared_length raw))) as [-> | Hi4].
    + rewrite get_insert_eq by lia. rewrite get_insert_ne by lia. lia.
    + assert (i = S (Z.to_nat (4 + declared_length raw))) as -> by lia.
      rewrite get_insert_ne by lia. rewrite get_insert_eq by lia. lia.
Qed.

Lemma efuse_single_byte_corruption_witness :
  error_code (EFuseDecoder.validate (<[4%nat := 9]> adc_frame)) = Some "CRC_MISMATCH".
Proof.
  assert (B : bytes adc_frame) by (unfold adc_frame; literal_bytes).
  apply (efuse_single_byte_corruption adc_frame 4 9 B).
  - vm_compute. reflexivity.
  - vm_compute. lia.
  - unfold byte. lia.
  - vm_compute. discriminate.
Defined.

(** X5. [decode] and [validate] agree on the structure of a frame:
    [decode] returns none exactly when [validate] reports one of the
    four structural errors, and on a frame that decodes the checksum
    flag is true exactly when [validate] returns none and false exactly
    when it reports CRC_MISMATCH. *)
Theorem efuse_decode_validate_agree raw :
  bytes raw ->
  (EFuseDecoder.decode raw = None <->
     In (error_code (EFuseDecoder.validate raw))
        [Some "FRAME_TOO_SHORT"; Some "INVALID_START_MARKER";
         Some "INVALID_END_MARKER"; Some "LENGTH_MISMATCH"])
  /\ (forall d, EFuseDecoder.decode raw = Some d ->
        (checksum_valid d = Some true <-> EFuseDecoder.validate raw = None)
        /\ (checksum_valid d = Some false <->
              error_code (EFuseDecoder.validate raw) = Some "CRC_MISMATCH")).
Proof.
  intros B. rewrite (decode_eq raw B).
  destruct (validate_eq raw B) as (m1 & m2 & m3 & m4 & m5 & ->).
  unfold efuse_error.
  destruct (Z.ltb_spec (len raw) 7) as [L | L];
  [| destruct (Z.eqb_spec (first_byte raw) 0xAA) as [Hs | Hs];
     [ destruct (Z.eqb_spec (last_byte raw) 0xBB) as [He | He];
       [ destruct (Z.eqb_spec (len raw) (7 + declared_length raw)) as [N | N] |] |] ];
  cbn [negb orb error_code option_map FrameError.code In].
  2:{ split.
      - split; [discriminate |].
        destruct (Z.eqb_spec (stored_crc raw) (computed_crc raw));
          cbn [negb error_code option_map FrameError.code];
          intros [H | [H | [H | [H | []]]]]; discriminate.
      - intros d Hd. injection Hd as <-. rewrite decoded_valid.
        destruct (Z.eqb_spec (stored_crc raw) (computed_crc raw));
          cbn [negb error_code option_map FrameError.code];
          split; split; intros; try reflexivity; discriminate. }
  all: split; [split; [intros _; tauto | reflexivity] | intros d Hd; discriminate].
Qed.

Lemma efuse_decode_validate_agree_witness :
  checksum_valid (decoded adc_frame) = Some true <-> EFuseDecoder.validate adc_frame = None.
Proof.
  assert (B : bytes adc_frame) by (unfold adc_frame; literal_bytes).
  apply (proj2 (efuse_decode_validate_agree adc_frame B) (decoded adc_frame)).
  vm_compute. reflexivity.
Defined.

Section EFuseEncodeMore.

Lemma high_byte_wrap n :
  0 <= n < 2 ^ 31 -> to_uint8 (band (shr n 8) 0xFF) = (n / 256) mod 256.
Proof.
  intros H. rewrite band_0xFF, shr_small by lia.
  unfold to_uint8. change (2 ^ 8) with 256. apply Z.mod_mod. lia.
Qed.

(** [encode] on any integer type and any payload of fewer than 2^31
    bytes. *)
Lemma encode_laid_out fields tf pf type payload :
  find_field "type" fields = Some tf ->
  find_field "payload" fields = Some pf ->
  FrameField.value tf = VNumber type ->
  FrameField.value pf = VBytes payload ->
  bytes payload -> len payload < 2 ^ 31 ->
  EFuseDecoder.encode fields
  = Returns (laid_out (type mod 256) (len payload / 256 mod 256) (len payload mod 256)
               payload
               (CRCCalculator.crc16CcittFalse
                  ([type mod 256; len payload / 256 mod 256; len payload mod 256]
                     ++ payload))).
Proof.
  intros Ht Hp Hvt Hvp Bp Hlen.
  unfold EFuseDecoder.encode. rewrite Ht, Hp, Hvt, Hvp. cbv zeta.
  f_equal.
  rewrite Uint8Array_new_frame, store4.
  rewrite set_after4 by (rewrite ?length_replicate; auto).
  rewrite slice_body.
  rewrite (store_tail3 _ payload) by reflexivity.
  assert (Hn : 0 <= len payload < 2 ^ 31) by (unfold len in *; lia).
  rewrite (high_byte_wrap (len payload)) by exact Hn.
  rewrite (low_byte (len payload)).
  unfold EFuseDecoder.START_MARKER, EFuseDecoder.END_MARKER.
  change (to_uint8 type) with (type mod 256).
  rewrite high_byte by apply crc16CcittFalse_range.
  rewrite low_byte.
  reflexivity.
Qed.

Lemma laid_out_len t hi lo p c : len (laid_out t hi lo p c) = 7 + len p.
Proof. unfold laid_out. rewrite !len_app. unfold len. cbn [length]. lia. Qed.

Lemma laid_out_bytes t hi lo p c :
  byte t -> byte hi -> byte lo -> bytes p -> 0 <= c < 65536 ->
  bytes (laid_out t hi lo p c).
Proof.
  intros Ht Hh Hl Hp Hc. unfold laid_out.
  assert (byte (c / 256)).
  { unfold byte. split; [apply Z.div_pos; lia | apply Z.div_lt_upper_bound; lia]. }
  assert (byte (c mod 256)) by (unfold byte; apply Z.mod_pos_bound; lia).
  apply bytes_app; [| apply bytes_app; [exact Hp |]]; literal_bytes.
Qed.

Lemma laid_out_last t hi lo p c : last_byte (laid_out t hi lo p c) = 0xBB.
Proof.
  unfold last_byte, laid_out. rewrite !length_app.
  rewrite get_app_r by (cbn [length]; lia).
  rewrite get_app_r by (cbn [length]; lia).
  cbn [length].
  replace (4 + (length p + 3) - 1 - 4 - length p)%nat with 2%nat by lia.
  reflexivity.
Qed.

Lemma mod_byte x : byte (x mod 256).
Proof. unfold byte. apply Z.mod_pos_bound. lia. Qed.

End EFuseEncodeMore.

(** X6. [encode] does not reject an oversized payload: with 65536 bytes
    or more (and fewer than 2^31) it still returns a frame, seven bytes
    longer than the payload, whose length field holds only the low
    sixteen bits of the payload length; [decode] returns none on that
    frame and [validate] reports LENGTH_MISMATCH. *)
Theorem efuse_encode_oversized fields tf pf type payload :
  find_field "type" fields = Some tf ->
  FrameField.value tf = VNumber type ->
  find_field "payload" fields = Some pf ->
  FrameField.value pf = VBytes payload ->
  bytes payload -> 65536 <= len payload < 2 ^ 31 ->
  exists frame,
    EFuseDecoder.encode fields = Returns frame
    /\ len frame = 7 + len payload
    /\ declared_length frame = len payload mod 65536
    /\ EFuseDecoder.decode frame = None
    /\ error_code (EFuseDecoder.validate frame) = Some "LENGTH_MISMATCH".
Proof.
  intros Ht Hvt Hp Hvp Bp Hlen.
  eexists. split; [apply (encode_laid_out fields tf pf); try eassumption; lia |].
  set (n := len payload) in *.
  set (crc := CRCCalculator.crc16CcittFalse _).
  set (f := laid_out _ _ _ _ _).
  assert (Bf : bytes f).
  { apply laid_out_bytes; try apply mod_byte; try assumption.
    apply crc16CcittFalse_range. }
  assert (Lf : len f = 7 + n) by apply laid_out_len.
  assert (Df : declared_length f = n mod 65536).
  { unfold declared_length, f, laid_out.
    change (get ([170; type mod 256; n / 256 mod 256; n mod 256] ++ payload
                   ++ [crc / 256; crc mod 256; 187]) 2) with (n / 256 mod 256).
    change (get ([170; type mod 256; n / 256 mod 256; n mod 256] ++ payload
                   ++ [crc / 256; crc mod 256; 187]) 3) with (n mod 256).
    pose proof (Z.div_mod n 256 ltac:(lia)).
    pose proof (Z.div_mod (n / 256) 256 ltac:(lia)).
    pose proof (Z.mod_pos_bound n 256 ltac:(lia)).
    pose proof (Z.mod_pos_bound (n / 256) 256 ltac:(lia)).
    apply (Z.mod_unique_pos n 65536 (n / 256 / 256)); lia. }
  pose proof (Z.mod_pos_bound n 65536 ltac:(lia)) as Hm.
  split; [exact Lf |]. split; [exact Df |]. split.
  - rewrite (decode_eq f Bf).
    destruct (Z.ltb_spec (len f) 7); [reflexivity |].
    destruct (_ || _); [reflexivity |].
    destruct (Z.eqb_spec (len f) (7 + declared_length f)); [lia | reflexivity].
  - apply (validate_cases f Bf); [lia | reflexivity | apply laid_out_last | lia].
Qed.

Lemma efuse_encode_oversized_witness :
  exists frame,
    EFuseDecoder.encode
      [ FrameField.mk "type" (VNumber 1) uint8 [] 0 None;
        FrameField.mk "payload" (VBytes (replicate (Z.to_nat 65536) 0)) bytes_t [] 0 None ]
    = Returns frame
    /\ len frame = 7 + len (replicate (Z.to_nat 65536) 0)
    /\ declared_length frame = len (replicate (Z.to_nat 65536) 0) mod 65536
    /\ EFuseDecoder.decode frame = None
    /\ error_code (EFuseDecoder.validate frame) = Some "LENGTH_MISMATCH".
Proof.
  apply (efuse_encode_oversized _
           (FrameField.mk "type" (VNumber 1) uint8 [] 0 None)
           (FrameField.mk "payload" (VBytes (replicate (Z.to_nat 65536) 0)) bytes_t [] 0 None)
           1 (replicate (Z.to_nat 65536) 0));
    try reflexivity.
  - apply Forall_replicate. unfold byte. lia.
  - unfold len. rewrite length_replicate. lia.
Defined.

(** X7. [encode] stores the type in one byte: for any integer type and a
    payload of at most 65535 bytes, decoding the encoded frame gives the
    type reduced modulo 256, the payload unchanged and a valid
    checksum. *)
Theorem efuse_encode_type_wraps fields tf pf type payload :
  find_field "type" fields = Some tf ->
  FrameField.value tf = VNumber type ->
  find_field "payload" fields = Some pf ->
  FrameField.value pf = VBytes payload ->
  bytes payload -> len payload <= 65535 ->
  exists frame d,
    EFuseDecoder.encode fields = Returns frame
    /\ EFuseDecoder.decode frame = Some d
    /\ field_value "type" d = Some (VNumber (type mod 256))
    /\ field_value "payload" d = Some (VBytes payload)
    /\ checksum_valid d = Some true.
Proof.
  intros Ht Hvt Hp Hvp Bp Hlen.
  assert (Hn : 0 <= len payload < 65536) by (unfold len in *; lia).
  assert (Hq : len payload / 256 mod 256 = len payload / 256).
  { apply Z.mod_small. split; [apply Z.div_pos; lia | apply Z.div_lt_upper_bound; lia]. }
  exists (sealed (type mod 256) payload), (decoded (sealed (type mod 256) payload)).
  split.
  { rewrite (encode_laid_out fields tf pf type payload) by (try assumption; lia).
    rewrite Hq. reflexivity. }
  unfold sealed.
  split; [apply decode_frame; try assumption;
          [apply mod_byte | lia | apply crc16CcittFalse_range] |].
  rewrite decoded_type, decoded_payload, decoded_valid.
  rewrite frame_type, frame_payload, frame_stored, frame_computed, Z.eqb_refl.
  auto.
Qed.

Lemma efuse_encode_type_wraps_witness :
  exists frame d,
    EFuseDecoder.encode
      [ FrameField.mk "type" (VNumber 257) uint8 [] 0 None;
        FrameField.mk "payload" (VBytes [8; 0]) bytes_t [] 0 None ] = Returns frame
    /\ EFuseDecoder.decode frame = Some d
    /\ field_value "type" d = Some (VNumber (257 mod 256))
    /\ field_value "payload" d = Some (VBytes [8; 0])
    /\ checksum_valid d = Some true.
Proof.
  apply (efuse_encode_type_wraps _
           (FrameField.mk "type" (VNumber 257) uint8 [] 0 None)
           (FrameField.mk "payload" (VBytes [8; 0]) bytes_t [] 0 None)
           257 [8; 0]);
    try reflexivity; try literal_bytes.
  unfold len. cbn [length]. lia.
Defined.

Section SubDecoders.

(** [b << 24] on a byte: the byte moves to the top of an int32, so from
    0x80 on the result is negative. *)
Lemma shl_24_byte b :
  byte b -> shl b 24 = (if b <? 128 then b else b - 256) * 2 ^ 24.
Proof.
  unfold byte. intros Hb. unfold shl.
  rewrite (to_int32_id b) by lia.
  rewrite shift_count_small, Z.shiftl_mul_pow2 by lia.
  unfold to_int32. cbv zeta.
  rewrite (Z.mod_small (b * 2 ^ 24)) by lia.
  destruct (Z.ltb_spec b 128), (Z.ltb_spec (b * 2 ^ 24) (2 ^ 31)); lia.
Qed.

Lemma bor_add_low a b k :
  0 <= k -> - 2 ^ 31 <= a * 2 ^ k + b < 2 ^ 31 -> - 2 ^ 31 <= a * 2 ^ k < 2 ^ 31 ->
  0 <= b < 2 ^ k -> 0 <= b < 2 ^ 31 ->
  bor (a * 2 ^ k) b = a * 2 ^ k + b.
Proof.
  intros Hk Hs Ha Hb Hb'. unfold bor.
  rewrite (to_int32_id (a * 2 ^ k)), (to_int32_id b) by lia.
  rewrite lor_shiftl_add by lia. apply to_int32_id. lia.
Qed.

(** The four-byte expression of the Config sub-decoder is the signed
    reading of the big-endian word. *)
Lemma be32_signed b0 b1 b2 b3 :
  byte b0 -> byte b1 -> byte b2 -> byte b3 ->
  bor (bor (bor (shl b0 24) (shl b1 16)) (shl b2 8)) b3
  = (if b0 <? 128 then 0 else - 2 ^ 32)
    + (b0 * 2 ^ 24 + b1 * 2 ^ 16 + b2 * 2 ^ 8 + b3).
Proof.
  intros H0 H1 H2 H3.
  rewrite (shl_24_byte b0 H0). unfold byte in *.
  rewrite (shl_small b1 16), (shl_small b2 8) by lia.
  set (a := if b0 <? 128 then b0 else b0 - 256).
  assert (Ha : -128 <= a < 128) by (subst a; destruct (Z.ltb_spec b0 128); lia).
  rewrite (bor_add_low a (b1 * 2 ^ 16) 24) by lia.
  replace (a * 2 ^ 24 + b1 * 2 ^ 16) with ((a * 2 ^ 8 + b1) * 2 ^ 16) by lia.
  rewrite (bor_add_low (a * 2 ^ 8 + b1) (b2 * 2 ^ 8) 16) by lia.
  replace ((a * 2 ^ 8 + b1) * 2 ^ 16 + b2 * 2 ^ 8)
    with (((a * 2 ^ 8 + b1) * 2 ^ 8 + b2) * 2 ^ 8) by lia.
  rewrite (bor_add_low _ b3 8) by lia.
  subst a. destruct (Z.ltb_spec b0 128); lia.
Qed.

End SubDecoders.

(** X8. The payload sub-decoders: for type 1 and at least two payload
    bytes [adc_raw] is the big-endian u16 of the first two; for type 3
    and at least four payload bytes [config_value] is the big-endian
    word of the first four read as a signed int32, so it is negative
    from a first byte of 0x80 on; a type 1, 2 or 3 payload that is too
    short gives no extra field, and any other type no sub-decoder. *)
Theorem efuse_payload_subdecoders (type : Z) (p : list Z) :
  bytes p ->
  (type = 1 -> 2 <= len p ->
     option_map FrameField.value
       (find_field "adc_raw" (default [] (EFuseDecoder.decodePayload type p)))
     = Some (VNumber (get p 0 * 256 + get p 1)))
  /\ (type = 3 -> 4 <= len p ->
      option_map FrameField.value
        (find_field "config_value" (default [] (EFuseDecoder.decodePayload type p)))
      = Some (VNumber (if get p 0 <? 128 then u32be p else u32be p - 2 ^ 32)))
  /\ (type = 1 /\ len p < 2 \/ type = 2 /\ len p < 1 \/ type = 3 /\ len p < 4 ->
      EFuseDecoder.decodePayload type p = Some [])
  /\ (type <> 1 -> type <> 2 -> type <> 3 -> EFuseDecoder.decodePayload type p = None).
Proof.
  intros B. unfold EFuseDecoder.decodePayload.
  split; [| split; [| split]].
  - intros -> H. change (1 =? 1) with true. cbv iota.
    unfold EFuseDecoder.decodeAdcPayload.
    destruct (Z.ltb_spec (len p) 2); [lia |].
    rewrite be16 by apply bytes_get, B. reflexivity.
  - intros -> H. change (3 =? 1) with false. change (3 =? 2) with false.
    change (3 =? 3) with true. cbv iota.
    unfold EFuseDecoder.decodeConfigPayload.
    destruct (Z.ltb_spec (len p) 4); [lia |].
    rewrite be32_signed by apply bytes_get, B.
    replace ((if get p 0 <? 128 then 0 else - 2 ^ 32)
             + (get p 0 * 2 ^ 24 + get p 1 * 2 ^ 16 + get p 2 * 2 ^ 8 + get p 3))
      with (if get p 0 <? 128 then u32be p else u32be p - 2 ^ 32)
      by (unfold u32be; destruct (get p 0 <? 128); lia).
    reflexivity.
  - intros [[-> H] | [[-> H] | [-> H]]].
    + change (1 =? 1) with true. cbv iota. unfold EFuseDecoder.decodeAdcPayload.
      destruct (Z.ltb_spec (len p) 2); [reflexivity | lia].
    + change (2 =? 1) with false. change (2 =? 2) with true. cbv iota.
      unfold EFuseDecoder.decodeStatusPayload.
      destruct (Z.ltb_spec (len p) 1); [reflexivity | lia].
    + change (3 =? 1) with false. change (3 =? 2) with false.
      change (3 =? 3) with true. cbv iota. unfold EFuseDecoder.decodeConfigPayload.
      destruct (Z.ltb_spec (len p) 4); [reflexivity | lia].
  - intros H1 H2 H3.
    destruct (Z.eqb_spec type 1); [contradiction |].
    destruct (Z.eqb_spec type 2); [contradiction |].
    destruct (Z.eqb_spec type 3); [contradiction | reflexivity].
Qed.

Lemma efuse_payload_subdecoders_witness :
  option_map FrameField.value
    (find_field "config_value"
       (default [] (EFuseDecoder.decodePayload 3 [0x80; 0; 0; 1])))
  = Some (VNumber (if get [0x80; 0; 0; 1] 0 <? 128 then u32be [0x80; 0; 0; 1]
                   else u32be [0x80; 0; 0; 1] - 2 ^ 32)).
Proof.
  assert (B : bytes [0x80; 0; 0; 1]) by literal_bytes.
  apply (proj1 (proj2 (efuse_payload_subdecoders 3 [0x80; 0; 0; 1] B))).
  - reflexivity.
  - unfold len. cbn [length]. lia.
Defined.

(** ** COBS codec, continued *)

Section COBSMore.
Import COBSBlocks COBSDecoder.

(** The overhead of the block encoding: one code byte, plus one for
    every 254 bytes of input at most. *)
Lemma blocks_overhead data : forall cur,
  1 + len cur + 1 <= 0xFF ->
  len cur + len data + 1 <= len (blocks cur data)
  /\ 254 * (len (blocks cur data) - (len cur + len data + 1)) <= len cur + len data.
Proof.
  induction data as [| b rest IH]; intros cur Hc; cbn [blocks].
  - unfold len in *. cbn [length]. lia.
  - assert (H0 : 1 + len (@nil Z) + 1 <= 0xFF) by (unfold len; cbn [length]; lia).
    pose proof (IH [] H0) as I0.
    destruct (Z.eqb_spec b 0) as [-> | Hb].
    + rewrite len_app. unfold len in *. cbn [length] in *. lia.
    + destruct (Z.eqb_spec (1 + len cur + 1) 0xFF) as [E | E].
      * rewrite len_app. unfold len in *. cbn [length] in *.
        rewrite length_app. cbn [length]. lia.
      * assert (Hc' : 1 + len (cur ++ [b]) + 1 <= 0xFF).
        { rewrite len_app. unfold len in *. cbn [length]. lia. }
        pose proof (IH (cur ++ [b]) Hc') as I1.
        rewrite len_app in I1. unfold len in *. cbn [length] in *. lia.
Qed.

(** The decoder gives up only on a zero code byte. *)
Lemma dec_loop_null fuel : forall data i result,
  dec_loop fuel data i result = Some None -> In 0 data.
Proof.
  induction fuel as [| fuel IH]; intros data i result; cbn [dec_loop];
    destruct (Nat.ltb_spec i (length data)) as [L | L]; try discriminate.
  destruct (Z.eqb_spec (get data i) 0) as [E | _].
  - intros _. rewrite <- E. unfold get.
    destruct (lookup_lt_is_Some_2 data i L) as [x Hx]. rewrite Hx. cbn [default].
    apply list_elem_of_In, list_elem_of_lookup. exists i. exact Hx.
  - destruct (dec_copy data (Z.to_nat (get data i - 1)) (S i) result) as [i' result'].
    apply IH.
Qed.

Lemma cobsDecode_null data : cobsDecode data = None -> In 0 data.
Proof.
  unfold cobsDecode.
  destruct (dec_loop (length data) data 0 []) as [[r |] |] eqn:E; try discriminate.
  - intros _. apply (dec_loop_null _ _ _ _ E).
  - exfalso. apply (dec_loop_fuel (length data) data 0%nat []); [lia | exact E].
Qed.

End COBSMore.

(** X9. COBS overhead: the encoding of [n] bytes has at least [n + 1]
    and at most [n + 1 + n / 254] bytes. *)
Theorem cobs_encoded_length (b : list Z) :
  bytes b ->
  len b + 1 <= len (COBSDecoder.cobsEncode b) <= len b + 1 + len b / 254.
Proof.
  intros Hb.
  assert (Hnz : Forall COBSBlocks.nonzero_byte (COBSBlocks.blocks [] b)).
  { apply blocks_nonzero; [constructor | exact Hb | unfold len; cbn [length]; lia]. }
  rewrite cobsEncode_blocks, Uint8Array_of_id by (apply nonzero_bytes, Hnz).
  pose proof (blocks_overhead b []) as H.
  change (len []) with 0 in H.
  destruct H as [H1 H2]; [lia |].
  split; [lia |].
  assert (len (COBSBlocks.blocks [] b) - (len b + 1) <= len b / 254).
  { apply Z.div_le_lower_bound; lia. }
  lia.
Qed.

Lemma cobs_encoded_length_witness :
  len [0; 0; 1] + 1 <= len (COBSDecoder.cobsEncode [0; 0; 1])
  <= len [0; 0; 1] + 1 + len [0; 0; 1] / 254.
Proof. apply (cobs_encoded_length [0; 0; 1]). literal_bytes. Defined.

(** X10. The COBS decoder fails only on a zero byte: an input without
    zero bytes always decodes, so [validate] accepts every non-empty
    input without zero bytes, reports EMPTY_FRAME exactly for the empty
    input, and reports INVALID_COBS only for inputs that contain a
    zero. *)
Theorem cobs_zero_free_decodes (raw : list Z) :
  (~ In 0 raw -> COBSDecoder.cobsDecode raw <> None)
  /\ (~ In 0 raw -> raw <> [] -> COBSCodec.validate raw = None)
  /\ (error_code (COBSCodec.validate raw) = Some "EMPTY_FRAME" <-> raw = [])
  /\ (error_code (COBSCodec.validate raw) = Some "INVALID_COBS" -> In 0 raw).
Proof.
  assert (D : ~ In 0 raw -> COBSDecoder.cobsDecode raw <> None).
  { intros Hz E. apply Hz, cobsDecode_null, E. }
  unfold COBSCodec.validate.
  split; [exact D |].
  destruct raw as [| x raw].
  - change (len [] =? 0) with true. cbv iota.
    split; [intros _ H; contradiction |].
    split; [split; reflexivity |]. discriminate.
  - destruct (Z.eqb_spec (len (x :: raw)) 0) as [E | _];
      [unfold len in E; cbn [length] in E; lia |].
    destruct (COBSDecoder.cobsDecode (x :: raw)) as [r |] eqn:E.
    + split; [reflexivity |]. split; [split; discriminate | discriminate].
    + split; [intros Hz; exfalso; apply (D Hz); reflexivity |].
      split; [split; discriminate |].
      intros _. apply cobsDecode_null, E.
Qed.

Lemma cobs_zero_free_decodes_witness : COBSCodec.validate [5; 1; 2] = None.
Proof.
  apply (proj1 (proj2 (cobs_zero_free_decodes [5; 1; 2]))).
  - cbn [In]. lia.
  - discriminate.
Defined.

(** X11. The COBS codec composes: encoding a field list whose [data]
    field holds a byte array gives a frame that [validate] accepts and
    that [decode] turns into a frame whose [data] field is the array. *)
Theorem cobs_codec_round_trip fields f (data : list Z) :
  find_field "data" fields = Some f ->
  FrameField.value f = VBytes data ->
  bytes data ->
  exists frame,
    COBSCodec.encode fields = Returns frame
    /\ COBSCodec.validate frame = None
    /\ COBSCodec.decode frame = Some (data_frame "cobs" data)
    /\ field_value "data" (data_frame "cobs" data) = Some (VBytes data).
Proof.
  intros Hf Hv Hb.
  exists (COBSDecoder.cobsEncode data).
  assert (Hnz : Forall COBSBlocks.nonzero_byte (COBSBlocks.blocks [] data)).
  { apply blocks_nonzero; [constructor | exact Hb | unfold len; cbn [length]; lia]. }
  assert (E : COBSDecoder.cobsEncode data = COBSBlocks.blocks [] data).
  { rewrite cobsEncode_blocks. apply Uint8Array_of_id, nonzero_bytes, Hnz. }
  assert (R : COBSDecoder.cobsDecode (COBSDecoder.cobsEncode data) = Some data).
  { rewrite E. apply cobsDecode_blocks, Hb. }
  split; [unfold COBSCodec.encode; rewrite Hf, Hv; reflexivity |].
  split.
  - unfold COBSCodec.validate. rewrite R.
    destruct (Z.eqb_spec (len (COBSDecoder.cobsEncode data)) 0) as [L | _]; [| reflexivity].
    rewrite E in L. pose proof (blocks_length_pos [] data). unfold len in L. lia.
  - split; [unfold COBSCodec.decode; rewrite R; reflexivity | reflexivity].
Qed.

Lemma cobs_codec_round_trip_witness :
  exists frame,
    COBSCodec.encode [FrameField.mk "data" (VBytes [0; 7]) bytes_t [] 0 None] = Returns frame
    /\ COBSCodec.validate frame = None
    /\ COBSCodec.decode frame = Some (data_frame "cobs" [0; 7])
    /\ field_value "data" (data_frame "cobs" [0; 7]) = Some (VBytes [0; 7]).
Proof.
  apply (cobs_codec_round_trip _ (FrameField.mk "data" (VBytes [0; 7]) bytes_t [] 0 None));
    try reflexivity. literal_bytes.
Defined.

(** ** SLIP codec, continued *)

Section SLIPMore.
Import SLIPDecoder SLIPStuffing.

Lemma dec_loop_cut a : forall b result escaped,
  ~ In END a ->
  dec_loop (a ++ END :: b) result escaped = dec_loop a result escaped.
Proof.
  induction a as [| x a IH]; intros b result escaped Hn.
  - destruct escaped; reflexivity.
  - assert (Hx : x <> END) by (intros ->; apply Hn; left; reflexivity).
    assert (Ha : ~ In END a) by (intros H; apply Hn; right; exact H).
    rewrite <- app_comm_cons. cbn [dec_loop].
    destruct (Z.eqb_spec x END); [contradiction |].
    destruct escaped.
    + destruct (x =? ESC_END); [apply IH, Ha |].
      destruct (x =? ESC_ESC); [apply IH, Ha | reflexivity].
    + destruct (x =? ESC); apply IH, Ha.
Qed.

Lemma dec_loop_plain b : forall result,
  Forall plain b -> dec_loop b result false = Some (Uint8Array_of (result ++ b)).
Proof.
  induction b as [| x b IH]; intros result Hp.
  - rewrite app_nil_r. reflexivity.
  - apply Forall_cons_1 in Hp. destruct Hp as [[H1 H2] Hp].
    cbn [dec_loop].
    destruct (Z.eqb_spec x END); [contradiction |].
    destruct (Z.eqb_spec x ESC); [contradiction |].
    rewrite IH by exact Hp. rewrite <- app_assoc. reflexivity.
Qed.

Lemma dec_loop_plain_then b : forall result tail,
  Forall plain b ->
  dec_loop (b ++ tail) result false = dec_loop tail (result ++ b) false.
Proof.
  induction b as [| x b IH]; intros result tail Hp.
  - rewrite app_nil_r. reflexivity.
  - apply Forall_cons_1 in Hp. destruct Hp as [[H1 H2] Hp].
    rewrite <- app_comm_cons. cbn [dec_loop].
    destruct (Z.eqb_spec x END); [contradiction |].
    destruct (Z.eqb_spec x ESC); [contradiction |].
    rewrite IH by exact Hp. rewrite <- app_assoc. reflexivity.
Qed.

Lemma escape_length x : (1 <= length (escape x) <= 2)%nat.
Proof.
  unfold escape. destruct (x =? END); [cbn [length]; lia |].
  destruct (x =? ESC); cbn [length]; lia.
Qed.

Lemma stuffed_length b : (length b <= length (stuffed b) <= 2 * length b)%nat.
Proof.
  unfold stuffed. induction b as [| x b IH]; cbn [flat_map length]; [lia |].
  rewrite length_app. pose proof (escape_length x). lia.
Qed.

End SLIPMore.

(** X12. The SLIP decoder reads up to the first END and does not need
    one: whatever follows the first END is ignored, so an input and the
    same input cut before its first END or extended after it decode
    alike. *)
Theorem slip_decode_stops_at_end (a b : list Z) :
  ~ In SLIPDecoder.END a ->
  SLIPDecoder.slipDecode (a ++ SLIPDecoder.END :: b) = SLIPDecoder.slipDecode a.
Proof. intros H. unfold SLIPDecoder.slipDecode. apply dec_loop_cut, H. Qed.

Lemma slip_decode_stops_at_end_witness :
  SLIPDecoder.slipDecode ([1; 2] ++ SLIPDecoder.END :: [3; 4]) = SLIPDecoder.slipDecode [1; 2].
Proof.
  apply (slip_decode_stops_at_end [1; 2] [3; 4]).
  cbn [In]. unfold SLIPDecoder.END. lia.
Defined.

(** X13. Escapes in the SLIP decoder: a byte array without END and ESC
    decodes to itself; an ESC at the very end of the input is dropped
    without an error, and so is an ESC right before an END; an ESC
    followed by any byte other than ESC_END, ESC_ESC and END makes the
    decoder return none. *)
Theorem slip_decode_escapes (b tail : list Z) (x : Z) :
  bytes b -> Forall plain b ->
  SLIPDecoder.slipDecode b = Some b
  /\ SLIPDecoder.slipDecode (b ++ [SLIPDecoder.ESC]) = Some b
  /\ SLIPDecoder.slipDecode (b ++ SLIPDecoder.ESC :: SLIPDecoder.END :: tail) = Some b
  /\ (x <> SLIPDecoder.END -> x <> SLIPDecoder.ESC_END -> x <> SLIPDecoder.ESC_ESC ->
      SLIPDecoder.slipDecode (b ++ SLIPDecoder.ESC :: x :: tail) = None).
Proof.
  intros Hb Hp. unfold SLIPDecoder.slipDecode.
  split; [rewrite dec_loop_plain, app_nil_l, Uint8Array_of_id by assumption; reflexivity |].
  rewrite !dec_loop_plain_then by exact Hp. rewrite app_nil_l.
  split; [cbn [SLIPDecoder.dec_loop]; change (SLIPDecoder.ESC =? SLIPDecoder.END) with false;
          change (SLIPDecoder.ESC =? SLIPDecoder.ESC) with true; cbv iota;
          rewrite Uint8Array_of_id by exact Hb; reflexivity |].
  split.
  - cbn [SLIPDecoder.dec_loop]. change (SLIPDecoder.ESC =? SLIPDecoder.END) with false.
    change (SLIPDecoder.ESC =? SLIPDecoder.ESC) with true.
    change (SLIPDecoder.END =? SLIPDecoder.END) with true. cbv iota.
    rewrite Uint8Array_of_id by exact Hb. reflexivity.
  - intros H1 H2 H3. cbn [SLIPDecoder.dec_loop].
    change (SLIPDecoder.ESC =? SLIPDecoder.END) with false.
    change (SLIPDecoder.ESC =? SLIPDecoder.ESC) with true. cbv iota.
    destruct (Z.eqb_spec x SLIPDecoder.END); [contradiction |].
    destruct (Z.eqb_spec x SLIPDecoder.ESC_END); [contradiction |].
    destruct (Z.eqb_spec x SLIPDecoder.ESC_ESC); [contradiction | reflexivity].
Qed.

Lemma slip_decode_escapes_witness :
  SLIPDecoder.slipDecode ([1; 2] ++ [SLIPDecoder.ESC]) = Some [1; 2].
Proof.
  apply (slip_decode_escapes [1; 2] [] 0); [literal_bytes |].
  unfold plain, SLIPDecoder.END, SLIPDecoder.ESC.
  repeat first [apply List.Forall_cons | apply List.Forall_nil]; lia.
Defined.

(** X14. SLIP overhead and codec composition: the encoding of [n] bytes
    has between [n + 1] and [2 n + 1] bytes; encoding a field list whose
    [data] field holds a byte array gives a frame that [validate]
    accepts and that [decode] turns into a frame whose [data] field is
    the array. *)
Theorem slip_codec_round_trip fields f (data : list Z) :
  find_field "data" fields = Some f ->
  FrameField.value f = VBytes data ->
  bytes data ->
  exists frame,
    SLIPCodec.encode fields = Returns frame
    /\ len data + 1 <= len frame <= 2 * len data + 1
    /\ SLIPCodec.validate frame = None
    /\ SLIPCodec.decode frame = Some (data_frame "slip" data)
    /\ field_value "data" (data_frame "slip" data) = Some (VBytes data).
Proof.
  intros Hf Hv Hb.
  exists (SLIPDecoder.slipEncode data).
  assert (E : SLIPDecoder.slipEncode data = SLIPStuffing.stuffed data ++ [SLIPDecoder.END])
    by (apply slipEncode_stuffed, Hb).
  assert (L : len data + 1 <= len (SLIPDecoder.slipEncode data) <= 2 * len data + 1).
  { rewrite E, len_app. pose proof (stuffed_length data). unfold len. cbn [length]. lia. }
  split; [unfold SLIPCodec.encode; rewrite Hf, Hv; reflexivity |].
  split; [exact L |].
  split.
  - unfold SLIPCodec.validate.
    destruct (Z.eqb_spec (len (SLIPDecoder.slipEncode data)) 0) as [Z0 | _]; [| reflexivity].
    unfold len in *. lia.
  - split; [| reflexivity].
    unfold SLIPCodec.decode. rewrite E, slipDecode_stuffed by exact Hb. reflexivity.
Qed.

Lemma slip_codec_round_trip_witness :
  exists frame,
    SLIPCodec.encode [FrameField.mk "data" (VBytes [0xC0; 7]) bytes_t [] 0 None] = Returns frame
    /\ len [0xC0; 7] + 1 <= len frame <= 2 * len [0xC0; 7] + 1
    /\ SLIPCodec.validate frame = None
    /\ SLIPCodec.decode frame = Some (data_frame "slip" [0xC0; 7])
    /\ field_value "data" (data_frame "slip" [0xC0; 7]) = Some (VBytes [0xC0; 7]).
Proof.
  apply (slip_codec_round_trip _ (FrameField.mk "data" (VBytes [0xC0; 7]) bytes_t [] 0 None));
    try reflexivity. literal_bytes.
Defined.

(** ** Hex and ASCII codecs *)

Section HexFacts.
Import JSString HexDecoder HexDigits.

Lemma hex2_all_ok : Register16.below_256 hex2_ok = true.
Proof. vm_compute. reflexivity. Qed.

Lemma hex2_spec b :
  byte b ->
  String.length (hex2 b) = 2%nat /\ no_space (hex2 b) = true
  /\ parseInt16 (hex2 b) = Some b.
Proof.
  intros Hb. pose proof (below_256_spec hex2_ok b hex2_all_ok Hb) as H.
  unfold hex2_ok in H. apply andb_prop in H. destruct H as [H H3].
  apply andb_prop in H. destruct H as [H1 H2].
  split; [apply Nat.eqb_eq, H1 |]. split; [exact H2 |].
  destruct (parseInt16 (hex2 b)) as [v |]; [| discriminate].
  apply Z.eqb_eq in H3. congruence.
Qed.

Lemma append_cons c a b : String c a +:+ b = String c (a +:+ b).
Proof. reflexivity. Qed.

Lemma append_empty_l b : EmptyString +:+ b = b.
Proof. reflexivity. Qed.

Lemma remove_spaces_app a b :
  remove_spaces (a +:+ b) = remove_spaces a +:+ remove_spaces b.
Proof.
  induction a as [| c a IH]; [reflexivity |].
  rewrite append_cons. cbn [remove_spaces]. rewrite IH.
  destruct (is_space c); reflexivity.
Qed.

Lemma append_empty_r s : s +:+ EmptyString = s.
Proof.
  induction s as [| c s IH]; [reflexivity |]. rewrite append_cons, IH. reflexivity.
Qed.

Lemma remove_spaces_id s : no_space s = true -> remove_spaces s = s.
Proof.
  induction s as [| c s IH]; [reflexivity |].
  cbn [no_space remove_spaces]. intros H. apply andb_prop in H. destruct H as [H1 H2].
  destruct (is_space c); [discriminate |]. rewrite IH by exact H2. reflexivity.
Qed.

Lemma remove_spaces_join raw :
  bytes raw -> remove_spaces (join " " (map hex2 raw)) = digits raw.
Proof.
  induction 1 as [| b rest Hb Hrest IH]; [reflexivity |].
  destruct (hex2_spec b Hb) as (_ & Hs & _).
  destruct rest as [| b' rest].
  - cbn [map join digits]. rewrite remove_spaces_id by exact Hs.
    rewrite append_empty_r. reflexivity.
  - change (join " " (map hex2 (b :: b' :: rest)))
      with (hex2 b +:+ " " +:+ join " " (map hex2 (b' :: rest))).
    rewrite !remove_spaces_app, IH, remove_spaces_id by exact Hs.
    reflexivity.
Qed.

Lemma length_append a b : String.length (a +:+ b) = (String.length a + String.length b)%nat.
Proof.
  induction a as [| c a IH]; [reflexivity |].
  rewrite append_cons. cbn [String.length]. rewrite IH. reflexivity.
Qed.

Lemma digits_length raw : bytes raw -> String.length (digits raw) = (2 * length raw)%nat.
Proof.
  induction 1 as [| b rest Hb _ IH]; [reflexivity |].
  cbn [digits length]. rewrite length_append, IH.
  destruct (hex2_spec b Hb) as (-> & _). lia.
Qed.

Lemma substring_0_0 s : substring 0 0 s = EmptyString.
Proof. destruct s; reflexivity. Qed.

(** The pair of digits at offset [2 k] is the one of byte [k]. *)
Lemma substring_digits raw : forall k b,
  bytes raw -> raw !! k = Some b -> substring (2 * k) 2 (digits raw) = hex2 b.
Proof.
  induction raw as [| x raw IH]; intros k b Hr Hk; [discriminate |].
  apply Forall_cons_1 in Hr. destruct Hr as [Hx Hr].
  destruct (hex2_spec x Hx) as (Hl & _).
  cbn [digits].
  destruct (hex2 x) as [| c1 [| c2 [| c3 s]]] eqn:E; try discriminate.
  destruct k as [| k].
  - injection Hk as <-. rewrite E.
    rewrite !append_cons, append_empty_l.
    cbn [Nat.mul substring]. rewrite substring_0_0. reflexivity.
  - replace (2 * S k)%nat with (S (S (2 * k))) by lia.
    rewrite !append_cons, append_empty_l.
    cbn [substring]. apply IH; assumption.
Qed.

Lemma insert_take_replicate (raw : list Z) k b :
  raw !! k = Some b ->
  <[k := b]> (take k raw ++ replicate (length raw - k) 0)
  = take (S k) raw ++ replicate (length raw - S k) 0.
Proof.
  intros Hk. pose proof (lookup_lt_Some _ _ _ Hk) as L.
  rewrite insert_app_r_alt by (rewrite length_take; lia).
  rewrite length_take, Nat.min_l, Nat.sub_diag by lia.
  replace (length raw - k)%nat with (S (length raw - S k)) by lia.
  cbn [replicate]. change (<[0%nat := b]> (0 :: replicate (length raw - S k) 0))
    with (b :: replicate (length raw - S k) 0).
  rewrite (take_S_r raw k b Hk), <- app_assoc. reflexivity.
Qed.

(** The loop of [encode] after [k] rounds on the digits of [raw]. *)
Lemma encode_loop raw : bytes raw -> forall k, (k <= length raw)%nat ->
  fold_left
    (fun bytes k =>
       JS.store bytes (2 * k / 2)
         (default 0 (parseInt16 (substring (2 * k) 2 (digits raw)))))
    (seq 0 k) (JS.Uint8Array_new (length raw))
  = take k raw ++ replicate (length raw - k) 0.
Proof.
  intros Hr. induction k as [| k IH]; intros Hk.
  - rewrite Nat.sub_0_r. reflexivity.
  - rewrite seq_S, fold_left_app, IH by lia. cbn [fold_left Nat.add].
    destruct (lookup_lt_is_Some_2 raw k ltac:(lia)) as [b Hb].
    assert (Bb : byte b) by (eapply Forall_lookup_1; eassumption).
    rewrite (substring_digits raw k b Hr Hb).
    destruct (hex2_spec b Bb) as (_ & _ & ->). cbn [default].
    replace (2 * k / 2)%nat with k by (rewrite Nat.mul_comm, Nat.div_mul; lia).
    unfold JS.store. rewrite to_uint8_id by exact Bb.
    apply insert_take_replicate, Hb.
Qed.

Lemma fold_store_length {A} (f : A -> nat) (g : A -> Z) (l : list A) : forall bytes,
  length (fold_left (fun bytes k => JS.store bytes (f k) (g k)) l bytes) = length bytes.
Proof.
  induction l as [| x l IH]; intros bytes; [reflexivity |].
  rewrite fold_left_cons, IH. unfold JS.store. apply length_insert.
Qed.

End HexFacts.

(** X15. The Hex codec round trip: decoding any byte array and encoding
    the fields of the result gives the array back.  On any field list
    whose first [hex] field holds a string (of 8-bit code units) [encode]
    returns, and the result has half as many bytes as the string has
    characters other than white space, rounded down, so an odd last
    digit is dropped. *)
Theorem hex_round_trip (raw : list Z) (s : string) :
  (bytes raw ->
   exists d, HexDecoder.decode raw = Some d
             /\ HexDecoder.encode (DecodedFrame.fields d) = Returns raw)
  /\ (forall fields hexField,
        find_field "hex" fields = Some hexField ->
        FrameField.value hexField = VString s ->
        exists out, HexDecoder.encode fields = Returns out
          /\ length out = (String.length (JSString.remove_spaces s) / 2)%nat).
Proof.
  split.
  - intros Hr. eexists. split; [reflexivity |].
    cbn [DecodedFrame.fields].
    change (HexDecoder.encode _)
      with (Returns (HexDecoder.encode_hex
                       (JSString.remove_spaces
                          (JSString.join " " (map HexDecoder.hex2 raw))))).
    f_equal. rewrite remove_spaces_join by exact Hr.
    unfold HexDecoder.encode_hex. cbv zeta.
    rewrite digits_length by exact Hr.
    replace (2 * length raw / 2)%nat with (length raw)
      by (rewrite Nat.mul_comm, Nat.div_mul; lia).
    replace ((2 * length raw + 1) / 2)%nat with (length raw).
    2:{ apply (Nat.div_unique _ 2 _ 1); lia. }
    rewrite (encode_loop raw Hr (length raw)) by lia.
    rewrite take_ge, Nat.sub_diag, app_nil_r by lia. reflexivity.
  - intros fields hexField Hf Hv. unfold HexDecoder.encode. rewrite Hf, Hv.
    eexists. split; [reflexivity |].
    unfold HexDecoder.encode_hex. cbv zeta.
    rewrite (fold_store_length (fun k => (2 * k / 2)%nat)).
    unfold JS.Uint8Array_new. apply length_replicate.
Qed.

Lemma hex_round_trip_witness :
  (exists d, HexDecoder.decode [0; 10; 255] = Some d
             /\ HexDecoder.encode (DecodedFrame.fields d) = Returns [0; 10; 255])
  /\ exists out,
       HexDecoder.encode [FrameField.mk "hex" (VString "0 0 0 0") string_t [] 0 None]
       = Returns out
       /\ length out = 2%nat.
Proof.
  destruct (hex_round_trip [0; 10; 255] "0 0 0 0") as [A B].
  split; [apply A; literal_bytes |].
  exact (B [FrameField.mk "hex" (VString "0 0 0 0") string_t [] 0 None]
           (FrameField.mk "hex" (VString "0 0 0 0") string_t [] 0 None) eq_refl eq_refl).
Defined.

(** X16. The ASCII validator returns none exactly when every byte is at
    least 0x20 or is a tab, a line feed or a carriage return (so DEL and
    all bytes from 0x80 on pass); otherwise it returns the NON_PRINTABLE
    warning. *)
Theorem ascii_validate_printable (raw : list Z) :
  (ASCIIDecoder.validate raw = None <-> Forall ASCIIDecoder.passes raw)
  /\ (forall e, ASCIIDecoder.validate raw = Some e ->
        FrameError.code e = "NON_PRINTABLE" /\ FrameError.severity e = warning).
Proof.
  unfold ASCIIDecoder.passes.
  induction raw as [| b raw [IH1 IH2]]; cbn [ASCIIDecoder.validate].
  - split; [split; [constructor | reflexivity] | discriminate].
  - destruct (Z.ltb_spec b 0x20), (Z.eqb_spec b 0x0A), (Z.eqb_spec b 0x0D),
      (Z.eqb_spec b 0x09); cbn [andb negb];
      try (split; [rewrite IH1; split;
                   [intros H'; constructor; [lia | exact H']
                   | intros H'; apply Forall_cons_1 in H'; tauto]
                  | exact IH2]).
    split.
    + split; [discriminate |]. intros H'. apply Forall_cons_1 in H'. lia.
    + intros e [= <-]. split; reflexivity.
Qed.

Lemma ascii_validate_printable_witness :
  FrameError.code (FrameError.mk "NON_PRINTABLE" "Contains non-printable characters" warning)
  = "NON_PRINTABLE"
  /\ FrameError.severity
       (FrameError.mk "NON_PRINTABLE" "Contains non-printable characters" warning)
     = warning.
Proof.
  apply (proj2 (ascii_validate_printable [65; 0])). reflexivity.
Defined.

(** ** The CAN decoder, the listener and the simulator *)

Section HexStrings.
Import JSString HexDigits.

Lemma hex_value_acc d : forall p : positive,
  hex_value d (Z.pos p) = Z.pos (Pos.of_hex_uint_acc d p).
Proof.
  induction d; intros p; cbn [hex_value Pos.of_hex_uint_acc];
    [reflexivity | rewrite <- IHd; f_equal; lia ..].
Qed.

Lemma hex_value_0 d : hex_value d 0 = Z.of_N (Pos.of_hex_uint d).
Proof.
  induction d; cbn [hex_value Pos.of_hex_uint];
    [reflexivity | exact IHd | apply (hex_value_acc d) ..].
Qed.

Lemma hex_value_to_hex n : hex_value (N.to_hex_uint n) 0 = Z.of_N n.
Proof.
  rewrite hex_value_0. change (Pos.of_hex_uint (N.to_hex_uint n))
    with (N.of_hex_uint (N.to_hex_uint n)).
  rewrite HexadecimalN.Unsigned.of_to. reflexivity.
Qed.

(** The digits printed for [d], in upper case, are read back as
    [hex_value]. *)
Lemma hex_prefix_digits d : forall acc,
  hex_prefix (toUpperCase (NilEmpty.string_of_uint d)) (Some acc) = Some (hex_value d acc).
Proof.
  induction d; intros acc; [reflexivity | exact (IHd _) ..].
Qed.

Lemma all_upper_hex_digits d :
  all_upper_hex (toUpperCase (NilEmpty.string_of_uint d)) = true.
Proof. induction d; [reflexivity | exact IHd ..]. Qed.

Lemma upper_hex_code c : upper_hex c = true -> 48 <= code c <= 70.
Proof.
  unfold upper_hex. cbv zeta. intros H.
  apply orb_prop in H. destruct H as [H | H]; apply andb_prop in H; lia.
Qed.

Lemma upper_hex_no_space c : upper_hex c = true -> is_space c = false.
Proof.
  intros H. apply upper_hex_code in H. unfold is_space. cbv zeta.
  repeat match goal with
         | |- context [?a =? ?b] => destruct (Z.eqb_spec a b); [lia |]
         end.
  reflexivity.
Qed.

Lemma strip_0x_upper_hex s : all_upper_hex s = true -> strip_0x s = s.
Proof.
  destruct s as [| c [| c' r]]; [reflexivity .. |].
  cbn [all_upper_hex]. intros H.
  apply andb_prop in H. destruct H as [_ H].
  apply andb_prop in H. destruct H as [H _]. apply upper_hex_code in H.
  cbn [strip_0x].
  destruct (Z.eqb_spec (code c') 120); [lia |].
  destruct (Z.eqb_spec (code c') 88); [lia |].
  rewrite Bool.andb_false_r. reflexivity.
Qed.

(** [parseInt] on upper-case hexadecimal digits, with and without a
    minus sign in front. *)
Lemma parseInt16_upper_hex c r v :
  all_upper_hex (String c r) = true ->
  hex_prefix (String c r) None = Some v ->
  parseInt16 (String c r) = Some v
  /\ parseInt16 (String "-"%char (String c r)) = Some (- v).
Proof.
  intros Hs Hv. pose proof (strip_0x_upper_hex _ Hs) as Hx.
  pose proof Hs as Hc. cbn [all_upper_hex] in Hc. apply andb_prop in Hc.
  destruct Hc as [Hc _]. pose proof (upper_hex_no_space c Hc) as Hsp.
  apply upper_hex_code in Hc.
  split.
  - unfold parseInt16. cbn [skip_spaces]. rewrite Hsp.
    destruct (Z.eqb_spec (code c) 45); [lia |].
    destruct (Z.eqb_spec (code c) 43); [lia |].
    cbv beta iota zeta. rewrite Hx, Hv. f_equal. lia.
  - unfold parseInt16. cbn [skip_spaces].
    change (is_space "-"%char) with false. cbv beta iota.
    change (code "-"%char =? 45) with true. cbv beta iota zeta.
    rewrite Hx, Hv. f_equal; lia.
Qed.

(** What [parseInt(s, 16)] reads back from [n.toString(16).toUpperCase()],
    for every integer [n]. *)
Lemma parseInt16_toString16 n :
  parseInt16 (toUpperCase (toString16 n)) = Some n.
Proof.
  assert (P : forall m, 0 <= m ->
            exists c r, toUpperCase (JS.toString16 m) = String c r
                        /\ all_upper_hex (String c r) = true
                        /\ hex_prefix (String c r) None = Some m).
  { intros m Hm. unfold JS.toString16.
    pose proof (hex_value_to_hex (Z.to_N m)) as V. rewrite Z2N.id in V by exact Hm.
    pose proof (all_upper_hex_digits (N.to_hex_uint (Z.to_N m))) as U.
    destruct (N.to_hex_uint (Z.to_N m)) as [| d | d | d | d | d | d | d | d | d
                                            | d | d | d | d | d | d | d];
      cbn [hex_value] in V;
      (eexists; eexists; split; [reflexivity |]; split; [exact U || reflexivity |]);
      [cbn in V; subst m; reflexivity | ..];
      (etransitivity; [| apply f_equal, V]);
      exact (hex_prefix_digits d _). }
  unfold toString16. destruct (Z.ltb_spec n 0) as [L | L].
  - destruct (P (- n) ltac:(lia)) as (c & r & E & U & V).
    change (toUpperCase (String "-"%char (JS.toString16 (- n))))
      with (String "-"%char (toUpperCase (JS.toString16 (- n)))).
    rewrite E. rewrite (proj2 (parseInt16_upper_hex c r _ U V)). f_equal. lia.
  - destruct (P n L) as (c & r & E & U & V).
    rewrite E. apply (parseInt16_upper_hex c r _ U V).
Qed.

Lemma remove_first_0x_prefix s : remove_first_0x ("0x" +:+ s) = s.
Proof. reflexivity. Qed.

End HexStrings.

Section CANFrames.
Import JS.

Lemma shr_int32 x n : - 2 ^ 31 <= x < 2 ^ 31 -> 0 <= n < 32 -> shr x n = x / 2 ^ n.
Proof.
  intros Hx Hn. unfold shr. rewrite to_int32_id, shift_count_small by lia.
  apply Z.shiftr_div_pow2. lia.
Qed.

(** The byte that [(id >> k) & 0xFF] stores. *)
Lemma id_byte x k :
  - 2 ^ 31 <= x < 2 ^ 31 -> 0 <= k < 32 ->
  to_uint8 (band (shr x k) 0xFF) = (x / 2 ^ k) mod 256.
Proof.
  intros Hx Hk. rewrite band_0xFF, shr_int32 by lia. unfold to_uint8.
  change (2 ^ 8) with 256. apply Z.mod_mod. lia.
Qed.

Lemma store5 a b c d e R v0 v1 v2 v3 v4 :
  store (store (store (store (store ([a; b; c; d; e] ++ R) 0 v0) 1 v1) 2 v2) 3 v3) 4 v4
  = [to_uint8 v0; to_uint8 v1; to_uint8 v2; to_uint8 v3; to_uint8 v4] ++ R.
Proof. reflexivity. Qed.

(** The header that the listener, the simulator and the encoder all
    write in front of the data. *)
Lemma can_frame_layout cid dlc data n :
  - 2 ^ 31 <= cid < 2 ^ 31 -> (length data <= n)%nat ->
  set (store (store (store (store (store (Uint8Array_new (5 + n))
         0 (band (shr cid 24) 0xFF)) 1 (band (shr cid 16) 0xFF))
         2 (band (shr cid 8) 0xFF)) 3 (band cid 0xFF)) 4 dlc) data 5
  = [(cid / 2 ^ 24) mod 256; (cid / 2 ^ 16) mod 256; (cid / 2 ^ 8) mod 256;
     cid mod 256; dlc mod 256]
    ++ map to_uint8 data ++ replicate (n - length data) 0.
Proof.
  intros Hid Hn.
  replace (Uint8Array_new (5 + n)) with ([0; 0; 0; 0; 0] ++ replicate n 0)
    by reflexivity.
  rewrite store5, !id_byte, low_byte by lia.
  unfold set.
  etransitivity; [exact (list_inserts_app_r (map to_uint8 data) [_; _; _; _; _] _ 0) |].
  f_equal.
  replace n with (length data + (n - length data))%nat at 1 by lia.
  rewrite replicate_add. apply list_inserts_0_r.
  rewrite length_map, length_replicate. reflexivity.
Qed.

Lemma map_to_uint8_bytes data : bytes data -> map to_uint8 data = data.
Proof. intros H. exact (Uint8Array_of_id data H). Qed.

(** An int32 is spelled by its four bytes. *)
Lemma id_bytes_sum cid :
  0 <= cid < 2 ^ 31 ->
  (cid / 2 ^ 24) mod 256 * 2 ^ 24 + (cid / 2 ^ 16) mod 256 * 2 ^ 16
  + (cid / 2 ^ 8) mod 256 * 2 ^ 8 + cid mod 256 = cid.
Proof.
  change (2 ^ 31) with 2147483648. change (2 ^ 24) with 16777216.
  change (2 ^ 16) with 65536. change (2 ^ 8) with 256. intros H.
  replace (cid / 65536) with (cid / 256 / 256) by (rewrite Z.div_div by lia; reflexivity).
  replace (cid / 16777216) with (cid / 256 / 256 / 256)
    by (rewrite !Z.div_div by lia; reflexivity).
  pose proof (Z.div_mod cid 256 ltac:(lia)).
  pose proof (Z.div_mod (cid / 256) 256 ltac:(lia)).
  pose proof (Z.div_mod (cid / 256 / 256) 256 ltac:(lia)).
  pose proof (Z.mod_pos_bound cid 256 ltac:(lia)).
  pose proof (Z.mod_pos_bound (cid / 256) 256 ltac:(lia)).
  pose proof (Z.mod_pos_bound (cid / 256 / 256) 256 ltac:(lia)).
  assert (0 <= cid / 256 / 256 / 256 < 128).
  { rewrite !Z.div_div by lia. split; [apply Z.div_pos; lia |].
    apply Z.div_lt_upper_bound; lia. }
  rewrite (Z.mod_small (cid / 256 / 256 / 256)) by lia.
  generalize dependent (cid / 256 / 256 / 256). intros q3.
  generalize dependent (cid / 256 / 256). intros q2.
  generalize dependent (cid / 256). intros q1.
  generalize dependent (cid mod 256). generalize dependent (q1 mod 256).
  generalize dependent (q2 mod 256). intros. lia.
Qed.

Lemma can_validate_none raw :
  CANDecoder.validate raw = None <->
  5 <= len raw /\ get raw 4 <= 8 /\ len raw = 5 + get raw 4.
Proof.
  unfold CANDecoder.validate.
  destruct (Z.ltb_spec (len raw) 5); [split; [discriminate | lia] |].
  cbv zeta.
  destruct (Z.ltb_spec 8 (get raw 4)); [split; [discriminate | lia] |].
  destruct (Z.eqb_spec (len raw) (5 + get raw 4)); cbn [negb];
    [split; [lia | reflexivity] | split; [discriminate | lia]].
Qed.

(** The data that [decode] and [write] cut out of a frame whose length
    agrees with its dlc byte. *)
Lemma can_slice_data raw :
  len raw = 5 + get raw 4 -> slice raw 5 (Z.to_nat (5 + get raw 4)) = drop 5 raw.
Proof.
  intros H. unfold slice, len in *. apply take_ge. rewrite length_drop. lia.
Qed.

End CANFrames.

(** X17. The CAN decoder is more lenient than its validator: [decode]
    returns none exactly for the frames that [validate] reports as too
    short, so it also decodes frames with a dlc above 8 or a wrong
    length, which [validate] reports as INVALID_DLC and
    LENGTH_MISMATCH in this order; a frame that validates has at most
    13 bytes and decodes with the dlc and data fields covering all
    bytes after the header. *)
Theorem can_decode_validate_agree (raw : list Z) :
  (CANDecoder.decode raw = None
   <-> error_code (CANDecoder.validate raw) = Some "FRAME_TOO_SHORT")
  /\ (5 <= len raw -> 8 < get raw 4 ->
      error_code (CANDecoder.validate raw) = Some "INVALID_DLC")
  /\ (5 <= len raw -> get raw 4 <= 8 -> len raw <> 5 + get raw 4 ->
      error_code (CANDecoder.validate raw) = Some "LENGTH_MISMATCH")
  /\ (CANDecoder.validate raw = None ->
      len raw <= 13
      /\ exists d, CANDecoder.decode raw = Some d
           /\ field_value "dlc" d = Some (VNumber (len raw - 5))
           /\ field_value "data" d = Some (VBytes (drop 5 raw))).
Proof.
  split; [| split; [| split]].
  - unfold CANDecoder.decode, CANDecoder.validate.
    destruct (Z.ltb_spec (len raw) 5); [split; reflexivity |].
    cbv zeta. split; [discriminate |].
    destruct (8 <? get raw 4); [discriminate |].
    destruct (negb _); discriminate.
  - intros H5 H8. unfold CANDecoder.validate.
    destruct (Z.ltb_spec (len raw) 5); [lia |]. cbv zeta.
    destruct (Z.ltb_spec 8 (get raw 4)); [reflexivity | lia].
  - intros H5 H8 Hl. unfold CANDecoder.validate.
    destruct (Z.ltb_spec (len raw) 5); [lia |]. cbv zeta.
    destruct (Z.ltb_spec 8 (get raw 4)); [lia |].
    destruct (Z.eqb_spec (len raw) (5 + get raw 4)); [lia | reflexivity].
  - intros V. apply can_validate_none in V. destruct V as (H5 & H8 & Hl).
    split; [lia |].
    unfold CANDecoder.decode.
    destruct (Z.ltb_spec (len raw) 5); [lia |]. cbv zeta.
    rewrite (can_slice_data raw Hl).
    replace (len raw - 5) with (get raw 4) by lia.
    eexists. split; [reflexivity |].
    unfold field_value, find_field. cbn [DecodedFrame.fields].
    destruct (CANDecoder.decodeCANId _ _); split; reflexivity.
Qed.

Lemma can_decode_validate_agree_witness :
  len [0; 0; 1; 0; 2; 12; 128] <= 13
  /\ exists d, CANDecoder.decode [0; 0; 1; 0; 2; 12; 128] = Some d
       /\ field_value "dlc" d = Some (VNumber (len [0; 0; 1; 0; 2; 12; 128] - 5))
       /\ field_value "data" d = Some (VBytes (drop 5 [0; 0; 1; 0; 2; 12; 128])).
Proof.
  apply (proj2 (proj2 (proj2 (can_decode_validate_agree [0; 0; 1; 0; 2; 12; 128])))).
  reflexivity.
Defined.

Section CANRoundTrips.
Import JS.

(** The id that [decode] and [write] read is an int32 whose bytes are
    the four header bytes again. *)
Lemma frame_id_bytes b0 b1 b2 b3 :
  byte b0 -> byte b1 -> byte b2 -> byte b3 ->
  let cid := bor (bor (bor (shl b0 24) (shl b1 16)) (shl b2 8)) b3 in
  - 2 ^ 31 <= cid < 2 ^ 31
  /\ (cid / 2 ^ 24) mod 256 = b0 /\ (cid / 2 ^ 16) mod 256 = b1
  /\ (cid / 2 ^ 8) mod 256 = b2 /\ cid mod 256 = b3.
Proof.
  intros H0 H1 H2 H3. cbv zeta. rewrite be32_signed by assumption.
  unfold byte in *.
  set (s := if b0 <? 128 then 0 else - 2 ^ 32).
  assert (Hs : s = 0 \/ s = - 2 ^ 32) by (subst s; destruct (b0 <? 128); auto).
  assert (Hr : - 2 ^ 31 <= s + (b0 * 2 ^ 24 + b1 * 2 ^ 16 + b2 * 2 ^ 8 + b3) < 2 ^ 31)
    by (subst s; destruct (Z.ltb_spec b0 128); lia).
  split; [exact Hr |].
  assert (D : forall k m, 0 <= k -> 2 ^ 32 = m * 256 * 2 ^ k ->
            forall x, ((s + x) / 2 ^ k) mod 256 = (x / 2 ^ k) mod 256).
  { intros k m Hk Hm x. destruct Hs as [-> | ->]; [reflexivity |].
    replace (- 2 ^ 32 + x) with (x + (- m * 256) * 2 ^ k) by lia.
    rewrite Z.div_add by lia.
    replace (x / 2 ^ k + - m * 256) with (x / 2 ^ k + (- m) * 256) by lia.
    apply Z.mod_add. lia. }
  split; [| split; [| split]].
  - rewrite (D 24 1) by (try reflexivity; lia).
    replace (b0 * 2 ^ 24 + b1 * 2 ^ 16 + b2 * 2 ^ 8 + b3)
      with (b1 * 2 ^ 16 + b2 * 2 ^ 8 + b3 + b0 * 2 ^ 24) by lia.
    rewrite Z.div_add, Z.div_small by lia. apply Z.mod_small. lia.
  - rewrite (D 16 (2 ^ 8)) by (try reflexivity; lia).
    replace (b0 * 2 ^ 24 + b1 * 2 ^ 16 + b2 * 2 ^ 8 + b3)
      with (b2 * 2 ^ 8 + b3 + (b0 * 2 ^ 8 + b1) * 2 ^ 16) by lia.
    rewrite Z.div_add, Z.div_small by lia.
    replace (0 + (b0 * 2 ^ 8 + b1)) with (b1 + b0 * 256) by lia.
    rewrite Z.mod_add by lia. apply Z.mod_small. lia.
  - rewrite (D 8 (2 ^ 16)) by (try reflexivity; lia).
    replace (b0 * 2 ^ 24 + b1 * 2 ^ 16 + b2 * 2 ^ 8 + b3)
      with (b3 + (b0 * 2 ^ 16 + b1 * 2 ^ 8 + b2) * 2 ^ 8) by lia.
    rewrite Z.div_add, Z.div_small by lia.
    replace (0 + (b0 * 2 ^ 16 + b1 * 2 ^ 8 + b2))
      with (b2 + (b0 * 2 ^ 8 + b1) * 256) by lia.
    rewrite Z.mod_add by lia. apply Z.mod_small. lia.
  - destruct Hs as [-> | ->].
    + replace (0 + (b0 * 2 ^ 24 + b1 * 2 ^ 16 + b2 * 2 ^ 8 + b3))
        with (b3 + (b0 * 2 ^ 16 + b1 * 2 ^ 8 + b2) * 256) by lia.
      rewrite Z.mod_add by lia. apply Z.mod_small. lia.
    + replace (- 2 ^ 32 + (b0 * 2 ^ 24 + b1 * 2 ^ 16 + b2 * 2 ^ 8 + b3))
        with (b3 + (b0 * 2 ^ 16 + b1 * 2 ^ 8 + b2 - 2 ^ 24) * 256) by lia.
      rewrite Z.mod_add by lia. apply Z.mod_small. lia.
Qed.

Lemma find_field_first n f fields :
  FrameField.name f = n -> find_field n (f :: fields) = Some f.
Proof.
  intros <-. unfold find_field. cbn [List.find]. rewrite String.eqb_refl. reflexivity.
Qed.

Lemma find_field_next n f fields :
  FrameField.name f <> n -> find_field n (f :: fields) = find_field n fields.
Proof.
  intros H. unfold find_field. cbn [List.find].
  destruct (String.eqb_spec (FrameField.name f) n); [contradiction | reflexivity].
Qed.

End CANRoundTrips.

(** X18. The CAN codec round trip: a frame of bytes whose length is 5
    plus its dlc byte decodes, and encoding the decoded fields gives the
    frame back.  This holds for a dlc above 8 and for a first byte from
    0x80 on, where the id is printed with a minus sign and read back as
    a negative number. *)
Theorem can_codec_round_trip (raw : list Z) :
  bytes raw -> len raw = 5 + get raw 4 ->
  exists d, CANDecoder.decode raw = Some d
            /\ CANDecoder.encode (DecodedFrame.fields d) = Returns raw.
Proof.
  intros Hb Hl.
  pose proof (bytes_get raw 4 Hb) as B4. unfold byte in B4.
  pose proof (frame_id_bytes (get raw 0) (get raw 1) (get raw 2) (get raw 3)
                (bytes_get raw 0 Hb) (bytes_get raw 1 Hb) (bytes_get raw 2 Hb)
                (bytes_get raw 3 Hb)) as P.
  unfold CANDecoder.decode, CANDecoder.frame_id.
  destruct (Z.ltb_spec (len raw) 5); [lia |]. cbv zeta in P |- *.
  remember (bor (bor (bor (shl (get raw 0) 24) (shl (get raw 1) 16))
                     (shl (get raw 2) 8)) (get raw 3)) as cid eqn:Eid.
  clear Eid. destruct P as (Hr & E0 & E1 & E2 & E3).
  rewrite (can_slice_data raw Hl).
  eexists. split; [reflexivity |]. cbn [DecodedFrame.fields].
  set (extra := CANDecoder.decodeCANId _ _).
  set (idf := FrameField.mk "id" _ _ _ _ _).
  set (extf := FrameField.mk "extended" _ _ _ _ _).
  set (dlcf := FrameField.mk "dlc" _ _ _ _ _).
  set (dataf := FrameField.mk "data" _ _ _ _ _).
  assert (F : forall rest,
            CANDecoder.encode (idf :: extf :: dlcf :: dataf :: rest) = Returns raw).
  { intros rest. unfold CANDecoder.encode.
    rewrite (find_field_first "id" idf) by reflexivity.
    rewrite (find_field_next "dlc" idf), (find_field_next "dlc" extf),
      (find_field_first "dlc" dlcf) by (reflexivity || discriminate).
    rewrite (find_field_next "data" idf), (find_field_next "data" extf),
      (find_field_next "data" dlcf), (find_field_first "data" dataf)
      by (reflexivity || discriminate).
    subst idf dlcf dataf. cbn [FrameField.value].
    destruct (Z.ltb_spec (get raw 4) 0); [lia |]. cbv zeta.
    rewrite remove_first_0x_prefix, parseInt16_toString16.
    change (default 0 (Some cid)) with cid.
    f_equal.
    replace (Z.to_nat (5 + get raw 4)) with (5 + Z.to_nat (get raw 4))%nat by lia.
    rewrite can_frame_layout.
    - rewrite E0, E1, E2, E3, (Z.mod_small (get raw 4)) by lia.
      unfold slice. rewrite Nat.sub_0_r, drop_0.
      assert (Hd : length (drop 5 raw) = Z.to_nat (get raw 4))
        by (rewrite length_drop; unfold len in Hl; lia).
      rewrite take_ge by lia.
      rewrite map_to_uint8_bytes by (apply Forall_drop; exact Hb).
      rewrite Hd, Nat.sub_diag, app_nil_r.
      unfold len in Hl.
      destruct raw as [| r0 [| r1 [| r2 [| r3 [| r4 rest']]]]];
        cbn [length] in Hl; try lia.
      reflexivity.
    - exact Hr.
    - unfold slice. rewrite length_take. lia. }
  destruct extra as [decodedData |]; apply F.
Qed.

Lemma can_codec_round_trip_witness :
  exists d, CANDecoder.decode [255; 0; 1; 0; 1; 12] = Some d
            /\ CANDecoder.encode (DecodedFrame.fields d) = Returns [255; 0; 1; 0; 1; 12].
Proof.
  apply (can_codec_round_trip [255; 0; 1; 0; 1; 12]); [literal_bytes | reflexivity].
Defined.

(** X19. From the listener to the decoder and to [write]: the chunk
    handed to every subscriber for a message with a non-negative int32
    id and at most 255 data bytes has 5 more bytes than the data, as
    the meta says; it validates exactly when the message has at most 8
    data bytes (the listener itself never tests this), and [write]
    parses it back to the id and the data, with [ext] recomputed as
    [id > 0x7FF] and [rtr] false whatever the two flags of the message
    were. *)
Theorem can_listener_frame (h h' : CANHandle.t) (timestamp : Z) (msg : CANMessage.t)
    (calls : list CANHandle.call) (c : CANHandle.call) :
  0 <= CANMessage.id msg < 2 ^ 31 ->
  bytes (CANMessage.data msg) -> len (CANMessage.data msg) <= 255 ->
  CANHandle.onMessage h timestamp msg = Some (h', calls) -> In c calls ->
  len (CANHandle.chunk c) = 5 + len (CANMessage.data msg)
  /\ RxMeta.length (CANHandle.meta c) = len (CANHandle.chunk c)
  /\ (CANDecoder.validate (CANHandle.chunk c) = None <-> len (CANMessage.data msg) <= 8)
  /\ CANHandle.write_message (CANHandle.chunk c)
     = CANMessage.mk (CANMessage.id msg) (0x7FF <? CANMessage.id msg) false
         (CANMessage.data msg).
Proof.
  intros Hid Hd Hl. unfold CANHandle.onMessage.
  destruct (_ && _); [discriminate |]. cbv zeta.
  rewrite (can_frame_layout (CANMessage.id msg) (len (CANMessage.data msg))
             (CANMessage.data msg) (length (CANMessage.data msg))) by lia.
  rewrite Nat.sub_diag, app_nil_r, (map_to_uint8_bytes _ Hd).
  rewrite (Z.mod_small (len (CANMessage.data msg))) by (unfold len in *; lia).
  set (frame := [_; _; _; _; _] ++ CANMessage.data msg).
  intros E Hc. injection E as _ <-.
  apply in_map_iff in Hc. destruct Hc as (cb & <- & _).
  cbn [CANHandle.chunk CANHandle.meta RxMeta.length].
  assert (Lf : len frame = 5 + len (CANMessage.data msg)).
  { subst frame. unfold len. rewrite length_app. cbn [length]. lia. }
  assert (G4 : get frame 4 = len (CANMessage.data msg)) by reflexivity.
  assert (Bf : bytes frame).
  { subst frame. apply bytes_app; [| exact Hd].
    unfold len in *.
    repeat first [apply List.Forall_cons | apply List.Forall_nil];
      try (apply Z.mod_pos_bound; lia). unfold byte. lia. }
  split; [exact Lf |]. split; [reflexivity |]. split.
  - rewrite can_validate_none, G4. unfold len in *. lia.
  - rewrite write_message_fields.
    + cbv zeta. rewrite G4.
      assert (E0 : get frame 0 = (CANMessage.id msg / 2 ^ 24) mod 256) by reflexivity.
      assert (E1 : get frame 1 = (CANMessage.id msg / 2 ^ 16) mod 256) by reflexivity.
      assert (E2 : get frame 2 = (CANMessage.id msg / 2 ^ 8) mod 256) by reflexivity.
      assert (E3 : get frame 3 = CANMessage.id msg mod 256) by reflexivity.
      rewrite E0, E1, E2, E3, id_bytes_sum by exact Hid.
      f_equal. subst frame.
      change (drop 5 ([_; _; _; _; _] ++ CANMessage.data msg)) with (CANMessage.data msg).
      apply take_ge. unfold len. lia.
    + exact Bf.
    + assert (E0 : get frame 0 = (CANMessage.id msg / 2 ^ 24) mod 256) by reflexivity.
      rewrite E0. change (2 ^ 24) with 16777216.
      rewrite Z.mod_small.
      * apply Z.div_lt_upper_bound; lia.
      * split; [apply Z.div_pos; lia | apply Z.div_lt_upper_bound; lia].
Qed.

Lemma can_listener_frame_witness :
  len (CANHandle.chunk (CANHandle.mk_call 7 [0; 0; 7; 224; 3; 2; 1; 12]
         (RxMeta.mk 5 rx 8 (Some (CanMeta.mk 0x7E0 true true 3)))))
  = 5 + len [2; 1; 12].
Proof.
  apply (can_listener_frame
           (CANHandle.mk (AdapterStats.mk 0 0 0 0 0) [7%nat] [])
           (CANHandle.mk (AdapterStats.mk 8 0 1 0 0) [7%nat] [])
           5 (CANMessage.mk 0x7E0 true true [2; 1; 12])
           [CANHandle.mk_call 7 [0; 0; 7; 224; 3; 2; 1; 12]
              (RxMeta.mk 5 rx 8 (Some (CanMeta.mk 0x7E0 true true 3)))]).
  - cbn [CANMessage.id]. lia.
  - literal_bytes.
  - vm_compute. discriminate.
  - reflexivity.
  - left. reflexivity.
Defined.

Section CANSimulatorFacts.
Import JS CANSimulator.
Variables floor_sin_2000 floor_sin_20 floor_random_10 hrtime : Z -> Z.

Lemma frame_data_length fc canId :
  length (frame_data floor_sin_2000 floor_sin_20 floor_random_10 fc canId) = 8%nat.
Proof.
  unfold frame_data.
  destruct (canId =? 0x100); [reflexivity |].
  destruct (canId =? 0x200); [reflexivity |].
  destruct (canId =? 0x300); [reflexivity |].
  destruct (canId =? 0x7E0); reflexivity.
Qed.

(** The frame of [generateFrame], laid out. *)
Lemma generateFrame_frame s canId :
  0 <= canId < 2 ^ 31 ->
  fst (snd (generateFrame floor_sin_2000 floor_sin_20 floor_random_10 hrtime s canId))
  = [(canId / 2 ^ 24) mod 256; (canId / 2 ^ 16) mod 256; (canId / 2 ^ 8) mod 256;
     canId mod 256; 8]
    ++ map to_uint8
         (frame_data floor_sin_2000 floor_sin_20 floor_random_10 (frameCounter s) canId).
Proof.
  intros H. unfold generateFrame. cbv zeta. cbn [snd fst].
  change (Z.to_nat (5 + 8)) with (5 + 8)%nat.
  rewrite (can_frame_layout canId 8 _ 8)
    by (try lia; rewrite frame_data_length; lia).
  rewrite frame_data_length. rewrite app_nil_r. reflexivity.
Qed.

Lemma generateFrame_state s canId :
  let s' :=
    fst (generateFrame floor_sin_2000 floor_sin_20 floor_random_10 hrtime s canId) in
  frameCounter s' = frameCounter s + 1
  /\ readCallbacks s' = readCallbacks s
  /\ AdapterStats.messagesRx (stats s') = AdapterStats.messagesRx (stats s) + 1
  /\ AdapterStats.bytesRx (stats s') = AdapterStats.bytesRx (stats s) + 13.
Proof.
  unfold generateFrame. cbv zeta.
  cbn [fst frameCounter readCallbacks stats AdapterStats.messagesRx AdapterStats.bytesRx].
  repeat split. f_equal.
  unfold len, set. rewrite length_inserts. unfold store.
  rewrite !length_insert. reflexivity.
Qed.

Lemma generateFrame_id s canId :
  let meta :=
    snd (snd (generateFrame floor_sin_2000 floor_sin_20 floor_random_10 hrtime s canId)) in
  option_map CanMeta.canId (RxMeta.transportSpecific meta) = Some canId.
Proof. reflexivity. Qed.

Lemma generateFrame_eta s canId :
  let g := generateFrame floor_sin_2000 floor_sin_20 floor_random_10 hrtime s canId in
  g = (fst g, snd g).
Proof. apply surjective_pairing. Qed.

(** One tick: three frames, and the OBD request when the counter has
    reached a multiple of ten after them. *)
Lemma tick_spec s :
  0 <= frameCounter s ->
  let obd := (frameCounter s + 3) mod 10 =? 0 in
  let s' := fst (tick floor_sin_2000 floor_sin_20 floor_random_10 hrtime s) in
  tick_ids floor_sin_2000 floor_sin_20 floor_random_10 hrtime s
  = (if obd then [Some 0x100; Some 0x200; Some 0x300; Some 0x7E0]
     else [Some 0x100; Some 0x200; Some 0x300])
  /\ frameCounter s' = frameCounter s + 3 + (if obd then 1 else 0)
  /\ readCallbacks s' = readCallbacks s
  /\ AdapterStats.messagesRx (stats s') - frameCounter s'
     = AdapterStats.messagesRx (stats s) - frameCounter s
  /\ AdapterStats.bytesRx (stats s') - 13 * frameCounter s'
     = AdapterStats.bytesRx (stats s) - 13 * frameCounter s.
Proof.
  intros H0. cbv zeta. unfold tick_ids, tick.
  rewrite (generateFrame_eta s 0x100).
  set (s1 := fst (generateFrame _ _ _ _ s 0x100)).
  rewrite (generateFrame_eta s1 0x200).
  set (s2 := fst (generateFrame _ _ _ _ s1 0x200)).
  rewrite (generateFrame_eta s2 0x300).
  set (s3 := fst (generateFrame _ _ _ _ s2 0x300)).
  destruct (generateFrame_state s 0x100) as (C1 & R1 & M1 & B1).
  destruct (generateFrame_state s1 0x200) as (C2 & R2 & M2 & B2).
  destruct (generateFrame_state s2 0x300) as (C3 & R3 & M3 & B3).
  fold s1 in C1, R1, M1, B1. fold s2 in C2, R2, M2, B2. fold s3 in C3, R3, M3, B3.
  assert (C : frameCounter s3 = frameCounter s + 3) by lia.
  rewrite Z.rem_mod_nonneg by lia. rewrite C.
  destruct (Z.eqb_spec ((frameCounter s + 3) mod 10) 0) as [E | E].
  - rewrite (generateFrame_eta s3 0x7E0).
    destruct (generateFrame_state s3 0x7E0) as (C4 & R4 & M4 & B4).
    cbn [fst snd map]. rewrite !generateFrame_id.
    repeat split; try lia; congruence.
  - cbn [fst snd map]. rewrite !generateFrame_id.
    repeat split; try lia; congruence.
Qed.

Lemma run_S n s :
  run floor_sin_2000 floor_sin_20 floor_random_10 hrtime (S n) s
  = fst (tick floor_sin_2000 floor_sin_20 floor_random_10 hrtime
           (run floor_sin_2000 floor_sin_20 floor_random_10 hrtime n s)).
Proof. reflexivity. Qed.

(** The frame counter after [n] ticks of a fresh simulator: three
    frames a tick, one more in tick 10 and in every third tick from
    there on. *)
Lemma run_counter cbs n :
  frameCounter (run floor_sin_2000 floor_sin_20 floor_random_10 hrtime n (create cbs))
  = 3 * Z.of_nat n
    + (if Z.of_nat n <? 10 then 0 else 1 + (Z.of_nat n - 10) / 3).
Proof.
  induction n as [| n IH]; [reflexivity |].
  rewrite run_S.
  set (s := run _ _ _ _ n (create cbs)) in *.
  assert (H0 : 0 <= frameCounter s).
  { rewrite IH. destruct (Z.ltb_spec (Z.of_nat n) 10); [lia |].
    Z.div_mod_to_equations. lia. }
  destruct (tick_spec s H0) as (_ & C & _). rewrite C, IH. clear C IH s H0.
  destruct (Z.ltb_spec (Z.of_nat n) 10), (Z.ltb_spec (Z.of_nat (S n)) 10);
    try lia;
    match goal with
    | |- context [?a =? 0] => destruct (Z.eqb_spec a 0)
    end; Z.div_mod_to_equations; lia.
Qed.

Lemma run_invariant cbs n :
  let s := run floor_sin_2000 floor_sin_20 floor_random_10 hrtime n (create cbs) in
  readCallbacks s = cbs
  /\ AdapterStats.messagesRx (stats s) = frameCounter s
  /\ AdapterStats.bytesRx (stats s) = 13 * frameCounter s
  /\ 0 <= frameCounter s.
Proof.
  cbv zeta. induction n as [| n IH]; [repeat split; reflexivity || (cbn; lia) |].
  rewrite run_S.
  set (s := run _ _ _ _ n (create cbs)) in *.
  destruct IH as (R & M & B & H0).
  destruct (tick_spec s H0) as (_ & C & R' & M' & B').
  repeat split; try lia; try congruence.
  rewrite C. destruct (_ =? 0); lia.
Qed.

End CANSimulatorFacts.

(** X20. The schedule of the simulated OBD request.  The test
    [frameCounter % 10 === 0] is made on the counter of generated
    frames, after the three frames of the tick: from a fresh simulator
    the request 0x7E0 is generated in the tenth tick and then in every
    third tick (13, 16, ...), and in no other; every tick generates
    0x100, 0x200 and 0x300 in this order before it. *)
Theorem can_simulator_obd_schedule (floor_sin_2000 floor_sin_20 floor_random_10 hrtime : Z -> Z)
    (cbs : list nat) (n : nat) :
  CANSimulator.tick_ids floor_sin_2000 floor_sin_20 floor_random_10 hrtime
    (CANSimulator.run floor_sin_2000 floor_sin_20 floor_random_10 hrtime n
       (CANSimulator.create cbs))
  = if (9 <=? Z.of_nat n) && ((Z.of_nat n - 9) mod 3 =? 0)
    then [Some 0x100; Some 0x200; Some 0x300; Some 0x7E0]
    else [Some 0x100; Some 0x200; Some 0x300].
Proof.
  destruct (run_invariant floor_sin_2000 floor_sin_20 floor_random_10 hrtime cbs n)
    as (_ & _ & _ & H0).
  destruct (tick_spec floor_sin_2000 floor_sin_20 floor_random_10 hrtime _ H0)
    as (T & _).
  rewrite T, run_counter. clear T H0.
  destruct (Z.ltb_spec (Z.of_nat n) 10), (Z.leb_spec 9 (Z.of_nat n));
    cbn [andb]; try lia;
    repeat match goal with
           | |- context [?a =? 0] => destruct (Z.eqb_spec a 0)
           end; try reflexivity; exfalso; Z.div_mod_to_equations; lia.
Qed.

(** X21. The simulator counts what it generates: after any number of
    ticks from creation the subscribers are unchanged, [messagesRx] is
    the frame counter, [bytesRx] is 13 bytes a frame, and the counter is
    three frames a tick plus the OBD requests sent so far. *)
Theorem can_simulator_counters (floor_sin_2000 floor_sin_20 floor_random_10 hrtime : Z -> Z)
    (cbs : list nat) (n : nat) :
  let s := CANSimulator.run floor_sin_2000 floor_sin_20 floor_random_10 hrtime n
             (CANSimulator.create cbs) in
  CANSimulator.readCallbacks s = cbs
  /\ AdapterStats.messagesRx (CANSimulator.stats s) = CANSimulator.frameCounter s
  /\ AdapterStats.bytesRx (CANSimulator.stats s) = 13 * CANSimulator.frameCounter s
  /\ CANSimulator.frameCounter s
     = 3 * Z.of_nat n + (if Z.of_nat n <? 10 then 0 else 1 + (Z.of_nat n - 10) / 3).
Proof.
  cbv zeta.
  destruct (run_invariant floor_sin_2000 floor_sin_20 floor_random_10 hrtime cbs n)
    as (R & M & B & _).
  repeat split; try assumption. apply run_counter.
Qed.

Section CANSimulatorDecoding.
Import JS.

(** [decode] on a frame given by its header bytes and its data. *)
Lemma decode_layout b0 b1 b2 b3 data :
  let raw := [b0; b1; b2; b3; len data] ++ data in
  let cid := bor (bor (bor (shl b0 24) (shl b1 16)) (shl b2 8)) b3 in
  CANDecoder.decode raw
  = Some (DecodedFrame.mk "can"
            ([ FrameField.mk "id"
                 (VString ("0x" +:+ JSString.toUpperCase (JSString.toString16 cid)))
                 uint32 [b0; b1; b2; b3] 0 None;
               FrameField.mk "extended" (VBool (0x7FF <? cid)) uint8 [b0; b1; b2; b3]
                 0 None;
               FrameField.mk "dlc" (VNumber (len data)) uint8 [len data] 4 None;
               FrameField.mk "data" (VBytes data) bytes_t data 5 None ]
             ++ default [] (CANDecoder.decodeCANId cid data))
            None
            [("id", VNumber cid); ("dlc", VNumber (len data));
             ("extended", VBool (0x7FF <? cid))]).
Proof.
  cbv zeta. unfold CANDecoder.decode, CANDecoder.frame_id.
  set (raw := [b0; b1; b2; b3; len data] ++ data).
  assert (L : len raw = 5 + len data).
  { subst raw. unfold len. rewrite length_app. cbn [length]. lia. }
  destruct (Z.ltb_spec (len raw) 5); [unfold len in *; lia |]. cbv zeta.
  change (get raw 0) with b0. change (get raw 1) with b1.
  change (get raw 2) with b2. change (get raw 3) with b3.
  change (get raw 4) with (len data).
  replace (slice raw 5 (Z.to_nat (5 + len data))) with data.
  2:{ unfold slice. subst raw.
      change (drop 5 ([b0; b1; b2; b3; len data] ++ data)) with data.
      symmetry. apply take_ge. unfold len. lia. }
  change (slice raw 0 4) with [b0; b1; b2; b3].
  change (slice raw 4 5) with [len data].
  destruct (CANDecoder.decodeCANId _ data); [reflexivity |].
  cbn [default]. rewrite app_nil_r. reflexivity.
Qed.

Lemma id_header_bytes cid :
  0 <= cid < 2 ^ 31 ->
  bor (bor (bor (shl ((cid / 2 ^ 24) mod 256) 24) (shl ((cid / 2 ^ 16) mod 256) 16))
           (shl ((cid / 2 ^ 8) mod 256) 8)) (cid mod 256) = cid.
Proof.
  intros H.
  assert (H3 : 0 <= (cid / 2 ^ 24) mod 256 < 128).
  { change (2 ^ 24) with 16777216. change (2 ^ 31) with 2147483648 in H.
    Z.div_mod_to_equations. lia. }
  rewrite be32 by (try exact H3; unfold byte; apply Z.mod_pos_bound; lia).
  apply id_bytes_sum, H.
Qed.

End CANSimulatorDecoding.

(** X22. Every simulated frame is well formed: for any state and any
    id that is a non-negative int32 the generated chunk has 13 bytes,
    passes the CAN validator, and decodes to the id, the dlc 8 and the
    extended flag that the meta of the call reports. *)
Theorem can_simulator_frame_valid
    (floor_sin_2000 floor_sin_20 floor_random_10 hrtime : Z -> Z)
    (s : CANSimulator.t) (canId : Z) :
  0 <= canId < 2 ^ 31 ->
  let delivery :=
    snd (CANSimulator.generateFrame floor_sin_2000 floor_sin_20 floor_random_10 hrtime
           s canId) in
  bytes (fst delivery) /\ len (fst delivery) = 13
  /\ RxMeta.length (snd delivery) = 13
  /\ CANDecoder.validate (fst delivery) = None
  /\ RxMeta.transportSpecific (snd delivery)
     = Some (CanMeta.mk canId (0x7FF <? canId) false 8)
  /\ exists d, CANDecoder.decode (fst delivery) = Some d
       /\ DecodedFrame.metadata d
          = [("id", VNumber canId); ("dlc", VNumber 8);
             ("extended", VBool (0x7FF <? canId))].
Proof.
  intros H. cbv zeta.
  pose proof (generateFrame_frame floor_sin_2000 floor_sin_20 floor_random_10 hrtime
                s canId H) as F.
  pose proof (frame_data_length floor_sin_2000 floor_sin_20 floor_random_10
                (CANSimulator.frameCounter s) canId) as L.
  set (data := CANSimulator.frame_data _ _ _ _ _) in *.
  set (g := CANSimulator.generateFrame _ _ _ _ _ _) in *.
  assert (M : snd (snd g)
              = RxMeta.mk (hrtime (CANSimulator.frameCounter s)) rx (len (fst (snd g)))
                  (Some (CanMeta.mk canId (0x7FF <? canId) false 8)))
    by reflexivity.
  rewrite M. cbn [RxMeta.length RxMeta.transportSpecific]. rewrite F.
  assert (Ld : len (map to_uint8 data) = 8)
    by (unfold len; rewrite length_map, L; reflexivity).
  assert (Lf : len ([(canId / 2 ^ 24) mod 256; (canId / 2 ^ 16) mod 256;
                     (canId / 2 ^ 8) mod 256; canId mod 256; 8]
                    ++ map to_uint8 data) = 13).
  { unfold len in *. rewrite length_app. cbn [length]. lia. }
  split; [| split; [exact Lf | split; [exact Lf | split; [| split; [reflexivity |]]]]].
  - apply bytes_app.
    + repeat first [apply List.Forall_cons | apply List.Forall_nil];
        try (apply Z.mod_pos_bound; lia). unfold byte. lia.
    + apply (Uint8Array_of_bytes data).
  - apply can_validate_none. rewrite Lf.
    change (get (_ ++ map to_uint8 data) 4) with 8. lia.
  - pose proof (decode_layout ((canId / 2 ^ 24) mod 256) ((canId / 2 ^ 16) mod 256)
                  ((canId / 2 ^ 8) mod 256) (canId mod 256) (map to_uint8 data)) as D.
    cbv zeta in D. rewrite (id_header_bytes canId H), Ld in D. rewrite D.
    eexists. split; reflexivity.
Qed.

Lemma can_simulator_frame_valid_witness :
  CANDecoder.validate
    (fst (snd (CANSimulator.generateFrame (fun _ => 0) (fun _ => 0) (fun _ => 0)
                 (fun _ => 0) (CANSimulator.create []) 0x7E0))) = None.
Proof.
  apply (can_simulator_frame_valid (fun _ => 0) (fun _ => 0) (fun _ => 0) (fun _ => 0)
           (CANSimulator.create []) 0x7E0).
  lia.
Defined.

(** X23. What the decoder shows for the simulated signals.  With the
    sine and random terms in their mathematical ranges, the speed frame
    0x200 decodes to the generated speed and the temperature frame
    0x300 to the generated temperature (the +40 offset cancels); the
    RPM frame 0x100 carries the low 16 bits of [800 + floor(sin * 2000)],
    so when that sum is negative the decoder shows the rounded quarter
    of the sum plus 65536. *)
Theorem can_simulator_decoded_values
    (floor_sin_2000 floor_sin_20 floor_random_10 hrtime : Z -> Z)
    (s : CANSimulator.t) :
  let frame canId :=
    fst (snd (CANSimulator.generateFrame floor_sin_2000 floor_sin_20 floor_random_10
                hrtime s canId)) in
  let fc := CANSimulator.frameCounter s in
  (- 2000 <= floor_sin_2000 fc <= 2000 ->
   exists d, CANDecoder.decode (frame 0x100) = Some d
     /\ field_value "engine_rpm" d
        = Some (VString (CANDecoder.quarters_toFixed0
                           ((800 + floor_sin_2000 fc) mod 65536))))
  /\ (- 20 <= floor_sin_20 fc <= 20 ->
      exists d, CANDecoder.decode (frame 0x200) = Some d
        /\ field_value "vehicle_speed" d = Some (VNumber (60 + floor_sin_20 fc)))
  /\ (0 <= floor_random_10 fc <= 9 ->
      exists d, CANDecoder.decode (frame 0x300) = Some d
        /\ field_value "coolant_temp" d = Some (VNumber (90 + floor_random_10 fc))).
Proof.
  cbv zeta.
  assert (G : forall canId, 0 <= canId < 2 ^ 31 ->
            forall x y, CANSimulator.frame_data floor_sin_2000 floor_sin_20 floor_random_10
                          (CANSimulator.frameCounter s) canId
                        = [x; y; 0; 0; 0; 0; 0; 0] ->
            forall f, CANDecoder.decodeCANId canId
                        (map to_uint8 [x; y; 0; 0; 0; 0; 0; 0]) = Some [f] ->
            FrameField.name f <> "id" -> FrameField.name f <> "extended" ->
            FrameField.name f <> "dlc" -> FrameField.name f <> "data" ->
            exists d, CANDecoder.decode
                        (fst (snd (CANSimulator.generateFrame floor_sin_2000 floor_sin_20
                                     floor_random_10 hrtime s canId))) = Some d
                      /\ field_value (FrameField.name f) d = Some (FrameField.value f)).
  { intros canId Hc x y Ed f Ef N1 N2 N3 N4.
    rewrite (generateFrame_frame floor_sin_2000 floor_sin_20 floor_random_10 hrtime
               s canId Hc), Ed.
    pose proof (decode_layout ((canId / 2 ^ 24) mod 256) ((canId / 2 ^ 16) mod 256)
                  ((canId / 2 ^ 8) mod 256) (canId mod 256)
                  (map to_uint8 [x; y; 0; 0; 0; 0; 0; 0])) as D.
    cbv zeta in D. rewrite (id_header_bytes canId Hc), Ef in D.
    change (len (map to_uint8 [x; y; 0; 0; 0; 0; 0; 0])) with 8 in D.
    change (default [] (Some [f])) with [f] in D. rewrite D.
    eexists. split; [reflexivity |].
    unfold field_value. cbn [DecodedFrame.fields app].
    rewrite !find_field_next by (cbn [FrameField.name]; congruence).
    rewrite find_field_first by reflexivity. reflexivity. }
  split; [| split].
  - intros Hr. set (rpm := 800 + floor_sin_2000 (CANSimulator.frameCounter s)).
    assert (E0 : to_uint8 (band (shr rpm 8) 0xFF) = (rpm / 2 ^ 8) mod 256)
      by (apply id_byte; subst rpm; lia).
    assert (E1 : to_uint8 (band rpm 0xFF) = rpm mod 256) by apply low_byte.
    destruct (G 0x100 ltac:(lia) (band (shr rpm 8) 0xFF) (band rpm 0xFF) eq_refl
                (FrameField.mk "engine_rpm"
                   (VString (CANDecoder.quarters_toFixed0 (rpm mod 65536))) float
                   [(rpm / 2 ^ 8) mod 256; rpm mod 256] 0 (Some "RPM")))
      as (d & D & V); try discriminate.
    + unfold CANDecoder.decodeCANId. change (0x100 =? 0x100) with true. cbv iota.
      cbn [map]. rewrite E0, E1.
      change (2 <=? len _) with true. cbv iota zeta.
      change (get ((rpm / 2 ^ 8) mod 256 :: _) 0) with ((rpm / 2 ^ 8) mod 256).
      change (get (_ :: rpm mod 256 :: _) 1) with (rpm mod 256).
      rewrite be16 by (unfold byte; apply Z.mod_pos_bound; lia).
      replace ((rpm / 2 ^ 8) mod 256 * 256 + rpm mod 256) with (rpm mod 65536)
        by (change (2 ^ 8) with 256; Z.div_mod_to_equations; lia).
      reflexivity.
    + exists d. split; [exact D | exact V].
  - intros Hr. set (speed := 60 + floor_sin_20 (CANSimulator.frameCounter s)).
    destruct (G 0x200 ltac:(lia) speed 0 eq_refl
                (FrameField.mk "vehicle_speed" (VNumber speed) uint8 [speed] 0
                   (Some "km/h")))
      as (d & D & V); try discriminate.
    + unfold CANDecoder.decodeCANId. change (0x200 =? 0x100) with false.
      change (0x200 =? 0x200) with true. cbv iota.
      cbn [map]. rewrite (to_uint8_id speed) by (unfold byte; subst speed; lia).
      reflexivity.
    + exists d. split; [exact D | exact V].
  - intros Hr. set (temp := 90 + floor_random_10 (CANSimulator.frameCounter s)).
    destruct (G 0x300 ltac:(lia) (temp + 40) 0 eq_refl
                (FrameField.mk "coolant_temp" (VNumber temp) int8 [temp + 40] 0
                   (Some CANDecoder.degrees_celsius)))
      as (d & D & V); try discriminate.
    + unfold CANDecoder.decodeCANId. change (0x300 =? 0x100) with false.
      change (0x300 =? 0x200) with false. change (0x300 =? 0x300) with true. cbv iota.
      cbn [map]. rewrite (to_uint8_id (temp + 40)) by (unfold byte; subst temp; lia).
      change (1 <=? len _) with true. cbv iota zeta.
      change (get (temp + 40 :: _) 0) with (temp + 40).
      replace (temp + 40 - 40) with temp by lia.
      reflexivity.
    + exists d. split; [exact D | exact V].
Qed.

Lemma can_simulator_decoded_values_witness :
  exists d,
    CANDecoder.decode
      (fst (snd (CANSimulator.generateFrame (fun _ => - 2000) (fun _ => 0) (fun _ => 0)
                   (fun _ => 0) (CANSimulator.create []) 0x100))) = Some d
    /\ field_value "engine_rpm" d
       = Some (VString (CANDecoder.quarters_toFixed0 ((800 + - 2000) mod 65536))).
Proof.
  apply (proj1 (can_simulator_decoded_values (fun _ => - 2000) (fun _ => 0) (fun _ => 0)
                  (fun _ => 0) (CANSimulator.create []))).
  lia.
Defined.

(** ** The backend's frame log *)

Section BackendFacts.
Import JS CommWatchBackend.

Lemma run_snoc events e b :
  run (events ++ [e]) b
  = (fst (step (fst (run events b)) e),
     snd (run events b) ++ snd (step (fst (run events b)) e)).
Proof.
  unfold run. rewrite fold_left_app. cbn [fold_left].
  destruct (step _ e); reflexivity.
Qed.

(** The log after one event: unchanged, or longer by one frame that
    carries the old counter in its id and is the one sent on. *)
Lemma step_log b e :
  (frames (fst (step b e)) = frames b /\ frameId (fst (step b e)) = frameId b
   /\ snd (step b e) = [])
  \/ exists f, frames (fst (step b e)) = frames b ++ [f]
               /\ frameId (fst (step b e)) = frameId b + 1
               /\ snd (step b e) = [f]
               /\ ProtocolFrame.id f = "frame-" +:+ toString (frameId b).
Proof.
  destruct e as [| | now chunk meta | now write data]; cbn [step].
  - left. repeat split.
  - left. repeat split.
  - right. unfold on_chunk. cbv zeta. eexists. repeat split.
  - unfold send. destruct (currentHandle b); cbn [negb]; [| left; repeat split].
    destruct write as [[] | e]; [| left; repeat split].
    right. eexists. repeat split.
Qed.




End BackendFacts.

(** X24. The backend's log.  After any sequence of events on a new
    backend (handles opened and closed, chunks received, sends that
    succeed, fail in the handle or are refused for want of a handle) the
    frame counter is the number of logged frames, the frame at position
    k has the id frame-k, and the renderer has been sent exactly the
    logged frames in the same order. *)
Theorem backend_log (events : list CommWatchBackend.event) :
  let r := CommWatchBackend.run events CommWatchBackend.create in
  CommWatchBackend.frameId (fst r)
  = Z.of_nat (length (CommWatchBackend.frames (fst r)))
  /\ snd r = CommWatchBackend.frames (fst r)
  /\ forall k f, CommWatchBackend.frames (fst r) !! k = Some f ->
       ProtocolFrame.id f = "frame-" +:+ JS.toString (Z.of_nat k).
Proof.
  cbv zeta. induction events as [| e events IH] using rev_ind.
  - repeat split. intros k f H. destruct k; discriminate.
  - rewrite run_snoc. cbn [fst snd].
    destruct IH as (I1 & I2 & I3).
    set (b := fst (CommWatchBackend.run events CommWatchBackend.create)) in *.
    destruct (step_log b e) as [(F & C & O) | (f & F & C & O & N)]; rewrite F, C, O.
    + rewrite app_nil_r. repeat split; assumption.
    + rewrite length_app. cbn [length].
      split; [lia |]. split; [rewrite I2; reflexivity |].
      intros k g Hk.
      destruct (Nat.lt_ge_cases k (length (CommWatchBackend.frames b))) as [L | L].
      * rewrite lookup_app_l in Hk by exact L. apply I3, Hk.
      * rewrite lookup_app_r in Hk by exact L.
        destruct (k - length (CommWatchBackend.frames b))%nat as [| j] eqn:E;
          [| destruct j; discriminate].
        injection Hk as <-. rewrite N, I1. do 2 f_equal. lia.
Qed.

Lemma backend_log_witness :
  ProtocolFrame.id (ProtocolFrame.mk "frame-1" 9 tx [1; 2] None None)
  = "frame-" +:+ JS.toString (Z.of_nat 1).
Proof.
  apply (proj2 (proj2 (backend_log
           [CommWatchBackend.Send 3 (Returns tt) [1];
            CommWatchBackend.Connected;
            CommWatchBackend.Send 5 (Throws "busy") [7];
            CommWatchBackend.Chunk 7 [] None;
            CommWatchBackend.Send 9 (Returns tt) [1; 2]])) 1%nat).
  reflexivity.
Defined.



(** ** The message bus *)

Section MessageBusFacts.
Import MessageBus.

Lemma default_Some {A} (d x : A) : default d (Some x) = x.
Proof. reflexivity. Qed.

Lemma default_None {A} (d : A) : default d None = d.
Proof. reflexivity. Qed.

Lemma Map_get_set_eq k v m : Map_get k (Map_set k v m) = Some v.
Proof.
  induction m as [| [k' v'] m IH]; cbn [Map_set Map_get].
  - rewrite String.eqb_refl. reflexivity.
  - destruct (String.eqb_spec k k') as [E | E]; cbn [Map_get].
    + rewrite String.eqb_refl. reflexivity.
    + destruct (String.eqb_spec k k'); [contradiction | exact IH].
Qed.

Lemma Map_get_set_ne k k' v m : k <> k' -> Map_get k' (Map_set k v m) = Map_get k' m.
Proof.
  intros N. induction m as [| [k2 v2] m IH]; cbn [Map_set Map_get].
  - destruct (String.eqb_spec k' k); [congruence | reflexivity].
  - destruct (String.eqb_spec k k2) as [E | E]; cbn [Map_get].
    + subst k2. destruct (String.eqb_spec k' k); [congruence | reflexivity].
    + destruct (String.eqb_spec k' k2); [reflexivity | exact IH].
Qed.

Lemma Map_set_fresh k v m : Map_get k m = None -> Map_set k v m = m ++ [(k, v)].
Proof.
  induction m as [| [k' v'] m IH]; cbn [Map_set Map_get app]; [reflexivity |].
  destruct (String.eqb_spec k k'); [discriminate |].
  intros H. rewrite IH by exact H. reflexivity.
Qed.

Lemma Map_set_set k v v' m : Map_set k v (Map_set k v' m) = Map_set k v m.
Proof.
  induction m as [| [k2 v2] m IH]; cbn [Map_set].
  - rewrite String.eqb_refl. reflexivity.
  - destruct (String.eqb_spec k k2) as [E | E]; cbn [Map_set].
    + rewrite String.eqb_refl. reflexivity.
    + destruct (String.eqb_spec k k2); [contradiction |]. rewrite IH. reflexivity.
Qed.

Lemma Map_set_same k v m : Map_get k m = Some v -> Map_set k v m = m.
Proof.
  induction m as [| [k' v'] m IH]; cbn [Map_set Map_get]; [discriminate |].
  destruct (String.eqb_spec k k') as [E | E].
  - intros [= ->]. subst k'. reflexivity.
  - intros H. rewrite IH by exact H. reflexivity.
Qed.

Lemma Map_delete_fresh k v m : Map_get k m = None -> Map_delete k (m ++ [(k, v)]) = m.
Proof.
  induction m as [| [k' v'] m IH]; cbn [Map_delete Map_get app].
  - rewrite String.eqb_refl. reflexivity.
  - destruct (String.eqb_spec k k'); [discriminate |].
    intros H. rewrite IH by exact H. reflexivity.
Qed.

Lemma Map_get_In k v m : Map_get k m = Some v -> In (k, v) m.
Proof.
  induction m as [| [k' v'] m IH]; cbn [Map_get]; [discriminate |].
  destruct (String.eqb_spec k k') as [E | E].
  - intros [= ->]. subst k'. left. reflexivity.
  - intros H. right. apply IH, H.
Qed.

Lemma Map_get_keys k m : Map_get k m = None -> ~ In k (map fst m).
Proof.
  induction m as [| [k' v'] m IH]; cbn [Map_get map fst]; [intros _ [] |].
  destruct (String.eqb_spec k k'); [discriminate |].
  intros H [E | E]; [congruence | exact (IH H E)].
Qed.

Lemma Map_set_keys k v v' m :
  Map_get k m = Some v' -> map fst (Map_set k v m) = map fst m.
Proof.
  induction m as [| [k' v2] m IH]; cbn [Map_set Map_get]; [discriminate |].
  destruct (String.eqb_spec k k') as [E | E].
  - intros _. subst k'. reflexivity.
  - intros H. cbn [map fst]. rewrite IH by exact H. reflexivity.
Qed.

Lemma Map_set_values (P : list nat -> Prop) k v m :
  P v -> Forall (fun e => P (snd e)) m -> Forall (fun e => P (snd e)) (Map_set k v m).
Proof.
  intros Hv. induction 1 as [| [k' v'] m H F IH]; cbn [Map_set].
  - repeat constructor. exact Hv.
  - destruct (String.eqb k k'); constructor; assumption.
Qed.

Lemma Map_delete_sub k m e : In e (Map_delete k m) -> In e m.
Proof.
  induction m as [| [k' v'] m IH]; cbn [Map_delete]; [intros [] |].
  destruct (String.eqb k k'); [intros H; right; exact H |].
  intros [H | H]; [left; exact H | right; exact (IH H)].
Qed.

Lemma Map_delete_keys k m :
  List.NoDup (map fst m) -> List.NoDup (map fst (Map_delete k m)).
Proof.
  induction m as [| [k' v'] m IH]; cbn [Map_delete map fst]; [intros H; exact H |].
  intros H. apply List.NoDup_cons_iff in H. destruct H as [H1 H2].
  destruct (String.eqb k k'); [exact H2 |].
  cbn [map fst]. apply List.NoDup_cons_iff. split; [| exact (IH H2)].
  intros I. apply H1.
  apply in_map_iff in I. destruct I as ([k2 v2] & E & I).
  apply in_map_iff. exists (k2, v2). split; [exact E | exact (Map_delete_sub k m _ I)].
Qed.

Lemma Map_get_absent k m : ~ In k (map fst m) -> Map_get k m = None.
Proof.
  induction m as [| [k' v'] m IH]; cbn [Map_get map fst]; [reflexivity |].
  intros H. destruct (String.eqb_spec k k') as [E | E].
  - destruct H. left. congruence.
  - apply IH. intros I. apply H. right. exact I.
Qed.

Lemma Map_get_delete k m :
  List.NoDup (map fst m) -> Map_get k (Map_delete k m) = None.
Proof.
  induction m as [| [k' v'] m IH]; cbn [Map_delete map fst]; [reflexivity |].
  intros H. apply List.NoDup_cons_iff in H. destruct H as [H1 H2].
  destruct (String.eqb_spec k k') as [E | E].
  - subst k'. apply Map_get_absent, H1.
  - cbn [Map_get]. destruct (String.eqb_spec k k'); [contradiction |]. exact (IH H2).
Qed.

Lemma Set_add_spec x s : Set_add x s = if in_dec Nat.eq_dec x s then s else s ++ [x].
Proof.
  unfold Set_add. destruct (existsb (Nat.eqb x) s) eqn:E.
  - apply existsb_exists in E. destruct E as (y & I & E). apply Nat.eqb_eq in E.
    subst y. destruct (in_dec Nat.eq_dec x s); [reflexivity | contradiction].
  - destruct (in_dec Nat.eq_dec x s) as [I | I]; [| reflexivity].
    assert (existsb (Nat.eqb x) s = true)
      by (apply existsb_exists; exists x; split; [exact I | apply Nat.eqb_refl]).
    congruence.
Qed.

Lemma Set_add_In x s : In x (Set_add x s).
Proof.
  rewrite Set_add_spec. destruct (in_dec Nat.eq_dec x s); [assumption |].
  apply in_or_app. right. left. reflexivity.
Qed.

Lemma Set_add_idem x s : Set_add x (Set_add x s) = Set_add x s.
Proof.
  rewrite (Set_add_spec x (Set_add x s)).
  destruct (in_dec Nat.eq_dec x (Set_add x s)) as [I | I]; [reflexivity |].
  destruct (I (Set_add_In x s)).
Qed.

Lemma Set_delete_fresh x s : ~ In x s -> Set_delete x s = s.
Proof.
  unfold Set_delete. induction s as [| y s IH]; intros H; [reflexivity |].
  cbn [List.filter]. destruct (Nat.eqb_spec x y) as [E | E]; cbn [negb].
  - destruct H. left. congruence.
  - rewrite IH; [reflexivity |]. intros I. apply H. right. exact I.
Qed.

Lemma Set_delete_add x s : ~ In x s -> Set_delete x (Set_add x s) = s.
Proof.
  intros H. rewrite Set_add_spec. destruct (in_dec Nat.eq_dec x s); [contradiction |].
  unfold Set_delete. rewrite List.filter_app. fold (Set_delete x s).
  rewrite Set_delete_fresh by exact H.
  cbn [List.filter]. rewrite Nat.eqb_refl. apply app_nil_r.
Qed.

Lemma Set_delete_gone x s : ~ In x (Set_delete x s).
Proof.
  unfold Set_delete. intros I. apply List.filter_In in I. destruct I as [_ I].
  rewrite Nat.eqb_refl in I. discriminate.
Qed.

Lemma on_wildcard bus listener :
  on bus "*" listener = mk (listeners bus) (Set_add listener (allListeners bus)).
Proof. reflexivity. Qed.

(** The map after [on], in one step. *)
Lemma on_listeners bus eventType listener :
  eventType <> "*" ->
  on bus eventType listener
  = mk (Map_set eventType
          (Set_add listener (default [] (Map_get eventType (listeners bus))))
          (listeners bus))
       (allListeners bus).
Proof.
  intros N. unfold on. destruct (String.eqb_spec eventType "*"); [contradiction |].
  cbv zeta. destruct (Map_get eventType (listeners bus)) eqn:G.
  - rewrite G. reflexivity.
  - rewrite Map_get_set_eq, Map_set_set. reflexivity.
Qed.

Lemma tidy_on bus eventType listener : tidy bus -> tidy (on bus eventType listener).
Proof.
  intros [K V]. destruct (String.eqb_spec eventType "*") as [E | E].
  - subst eventType. rewrite on_wildcard. split; assumption.
  - rewrite (on_listeners bus eventType listener E). split; cbn [listeners].
    + destruct (Map_get eventType (listeners bus)) eqn:G.
      * rewrite (Map_set_keys _ _ _ _ G). exact K.
      * rewrite (Map_set_fresh _ _ _ G), map_app. cbn [map fst].
        apply List.NoDup_app; [exact K | |].
        -- apply List.NoDup_cons; [intros [] | apply List.NoDup_nil].
        -- intros x I [<- | []]. exact (Map_get_keys _ _ G I).
    + apply (Map_set_values (fun v => v <> [])); [| exact V].
      intros E'. pose proof (Set_add_In listener
                               (default [] (Map_get eventType (listeners bus)))) as I.
      rewrite E' in I. destruct I.
Qed.

Lemma tidy_unsubscribe bus eventType listener :
  tidy bus -> tidy (unsubscribe eventType listener bus).
Proof.
  intros [K V]. unfold unsubscribe.
  destruct (String.eqb eventType "*"); [split; assumption |].
  destruct (Map_get eventType (listeners bus)) as [set |] eqn:G; [| split; assumption].
  cbv zeta. destruct (Nat.eqb_spec (length (Set_delete listener set)) 0) as [E | E].
  - split; cbn [listeners].
    + apply Map_delete_keys, K.
    + apply List.Forall_forall. intros e I.
      apply Map_delete_sub in I. rewrite List.Forall_forall in V. apply V, I.
  - split; cbn [listeners].
    + rewrite (Map_set_keys _ _ _ _ G). exact K.
    + apply (Map_set_values (fun v => v <> [])); [| exact V].
      intros E'. rewrite E' in E. apply E. reflexivity.
Qed.

Lemma Set_add_NoDup x s : List.NoDup s -> List.NoDup (Set_add x s).
Proof.
  intros H. rewrite Set_add_spec. destruct (in_dec Nat.eq_dec x s) as [I | I];
    [exact H |].
  apply List.NoDup_app; [exact H | |].
  - apply List.NoDup_cons; [intros [] | apply List.NoDup_nil].
  - intros y J [<- | []]. exact (I J).
Qed.

(** A set that holds each listener once holds a listener that has been
    added exactly once. *)
Lemma Set_add_count x s :
  List.NoDup s -> count_occ Nat.eq_dec (Set_add x s) x = 1%nat.
Proof.
  intros H. rewrite Set_add_spec. destruct (in_dec Nat.eq_dec x s) as [I | I].
  - pose proof (proj1 (List.NoDup_count_occ Nat.eq_dec s) H x) as Le.
    pose proof (proj1 (count_occ_In Nat.eq_dec s x) I) as Gt. lia.
  - rewrite count_occ_app, (proj1 (count_occ_not_In Nat.eq_dec s x) I).
    cbn [count_occ]. destruct (Nat.eq_dec x x); [reflexivity | contradiction].
Qed.

Lemma Set_delete_NoDup x s : List.NoDup s -> List.NoDup (Set_delete x s).
Proof. intros H. unfold Set_delete. apply List.NoDup_filter, H. Qed.

Lemma Map_get_values (P : list nat -> Prop) k m :
  P [] -> Forall (fun e => P (snd e)) m -> P (default [] (Map_get k m)).
Proof.
  intros H0 F. destruct (Map_get k m) as [v |] eqn:G; [| exact H0].
  rewrite List.Forall_forall in F. exact (F (k, v) (Map_get_In _ _ _ G)).
Qed.

Lemma distinct_on bus eventType listener :
  distinct bus -> distinct (on bus eventType listener).
Proof.
  intros [V A]. destruct (String.eqb_spec eventType "*") as [E | E].
  - subst eventType. rewrite on_wildcard. split; [exact V |].
    cbn [allListeners]. apply Set_add_NoDup, A.
  - rewrite (on_listeners bus eventType listener E). split; [| exact A].
    cbn [listeners]. apply (Map_set_values (fun v => List.NoDup v)); [| exact V].
    apply Set_add_NoDup.
    apply (Map_get_values (fun v => List.NoDup v)); [apply List.NoDup_nil | exact V].
Qed.

Lemma distinct_unsubscribe bus eventType listener :
  distinct bus -> distinct (unsubscribe eventType listener bus).
Proof.
  intros [V A]. unfold unsubscribe.
  destruct (String.eqb eventType "*");
    [split; [exact V | cbn [allListeners]; apply Set_delete_NoDup, A] |].
  destruct (Map_get eventType (listeners bus)) as [set |] eqn:G; [| split; assumption].
  cbv zeta. pose proof V as V'. rewrite List.Forall_forall in V'.
  pose proof (V' (eventType, set) (Map_get_In _ _ _ G)) as Hs. cbn [snd] in Hs.
  destruct (length (Set_delete listener set) =? 0)%nat; split;
    cbn [listeners allListeners]; try exact A.
  - apply List.Forall_forall. intros e I. apply Map_delete_sub in I. apply V', I.
  - apply (Map_set_values (fun v => List.NoDup v)); [| exact V].
    apply Set_delete_NoDup, Hs.
Qed.

End MessageBusFacts.

(** X26. Subscribing and unsubscribing on the message bus.  The map of
    listeners never holds an empty set or a key twice: this holds for a
    new bus and is kept by [on], by the function [on] returns and by
    [removeAllListeners].  On such a bus, subscribing a listener that is
    not yet subscribed to the event type (or to the wildcard) and then
    calling the returned function gives the bus back as it was. *)
Theorem bus_subscribe_unsubscribe (bus : MessageBus.t) (eventType : string)
    (listener : nat) :
  MessageBus.tidy MessageBus.create
  /\ MessageBus.tidy (MessageBus.removeAllListeners bus)
  /\ (MessageBus.tidy bus ->
      MessageBus.tidy (MessageBus.on bus eventType listener)
      /\ MessageBus.tidy (MessageBus.unsubscribe eventType listener bus)
      /\ (~ In listener (if String.eqb eventType "*" then MessageBus.allListeners bus
                         else default [] (MessageBus.Map_get eventType
                                            (MessageBus.listeners bus))) ->
          MessageBus.unsubscribe eventType listener
            (MessageBus.on bus eventType listener) = bus)).
Proof.
  split; [split; constructor |]. split; [split; constructor |].
  intros T. split; [apply tidy_on, T |]. split; [apply tidy_unsubscribe, T |].
  destruct bus as [m all]. destruct T as [K V]. cbn [MessageBus.listeners] in K, V.
  destruct (String.eqb_spec eventType "*") as [E | E].
  - intros H. cbn [MessageBus.allListeners] in H.
    subst eventType. rewrite on_wildcard. unfold MessageBus.unsubscribe.
    change (String.eqb "*" "*") with true. cbv iota.
    cbn [MessageBus.listeners MessageBus.allListeners].
    rewrite Set_delete_add by exact H. reflexivity.
  - intros H. cbn [MessageBus.listeners] in H.
    rewrite (on_listeners _ eventType listener E).
    cbn [MessageBus.listeners MessageBus.allListeners].
    unfold MessageBus.unsubscribe.
    destruct (String.eqb_spec eventType "*"); [contradiction |].
    cbn [MessageBus.listeners MessageBus.allListeners].
    rewrite Map_get_set_eq. cbv zeta. rewrite Set_delete_add by exact H.
    destruct (MessageBus.Map_get eventType m) as [set |] eqn:G;
      rewrite ?default_Some, ?default_None in H |- *.
    + assert (N : set <> []).
      { rewrite List.Forall_forall in V.
        exact (V (eventType, set) (Map_get_In _ _ _ G)). }
      destruct (Nat.eqb_spec (length set) 0) as [L | L];
        [destruct set; [contradiction | discriminate] |].
      rewrite Map_set_set, (Map_set_same _ _ _ G). reflexivity.
    + cbn [length Nat.eqb].
      rewrite (Map_set_fresh _ _ _ G), (Map_delete_fresh _ _ _ G). reflexivity.
Qed.

Lemma bus_subscribe_unsubscribe_witness :
  MessageBus.unsubscribe "frame:received" 4
    (MessageBus.on (MessageBus.mk [("frame:sent", [1%nat])] [2%nat]) "frame:received" 4)
  = MessageBus.mk [("frame:sent", [1%nat])] [2%nat].
Proof.
  apply (proj2 (proj2 (bus_subscribe_unsubscribe
                         (MessageBus.mk [("frame:sent", [1%nat])] [2%nat])
                         "frame:received" 4))).
  - split; cbn [MessageBus.listeners map fst].
    + apply List.NoDup_cons; [intros [] | apply List.NoDup_nil].
    + repeat constructor. discriminate.
  - intros [].
Defined.

(** X27. Who is called by [emit].  On a bus whose map holds no key
    twice and no empty set and whose sets hold each listener once (as
    for a new bus, and this is kept by [on] and by the function it
    returns), and for an event type other than the wildcard: subscribing
    twice is the same as subscribing once; after it the type's set holds
    the listener exactly once, so a listener that is not a wildcard
    listener is called exactly once by [emit]; one call of the returned
    function removes it from the type's set; the type's listeners are
    called before the wildcard listeners; a listener subscribed both
    ways is called exactly twice; and a subscription to one type leaves
    what is called for every other type unchanged. *)
Theorem bus_emit (bus : MessageBus.t) (eventType other : string) (listener : nat) :
  MessageBus.distinct MessageBus.create
  /\ (MessageBus.tidy bus -> MessageBus.distinct bus -> eventType <> "*" ->
      let subscribed := MessageBus.on bus eventType listener in
      let both := MessageBus.on subscribed "*" listener in
      let set_of b := default [] (MessageBus.Map_get eventType (MessageBus.listeners b)) in
      MessageBus.distinct subscribed /\ MessageBus.distinct both
      /\ MessageBus.distinct (MessageBus.unsubscribe eventType listener bus)
      /\ MessageBus.on subscribed eventType listener = subscribed
      /\ count_occ Nat.eq_dec (set_of subscribed) listener = 1%nat
      /\ MessageBus.emit subscribed eventType
         = set_of subscribed ++ MessageBus.allListeners bus
      /\ (~ In listener (MessageBus.allListeners bus) ->
          count_occ Nat.eq_dec (MessageBus.emit subscribed eventType) listener = 1%nat)
      /\ MessageBus.emit both eventType
         = set_of subscribed ++ MessageBus.Set_add listener (MessageBus.allListeners bus)
      /\ count_occ Nat.eq_dec (MessageBus.emit both eventType) listener = 2%nat
      /\ ~ In listener
             (set_of (MessageBus.unsubscribe eventType listener
                        (MessageBus.on subscribed eventType listener)))
      /\ (other <> eventType ->
          MessageBus.emit subscribed other = MessageBus.emit bus other)).
Proof.
  split; [split; constructor |].
  intros T [V A] N. cbv zeta.
  assert (I : MessageBus.on (MessageBus.on bus eventType listener) eventType listener
              = MessageBus.on bus eventType listener).
  { rewrite (on_listeners (MessageBus.on bus eventType listener) _ _ N).
    rewrite (on_listeners bus _ _ N).
    cbn [MessageBus.listeners MessageBus.allListeners].
    rewrite Map_get_set_eq, default_Some, Set_add_idem, Map_set_set.
    reflexivity. }
  assert (Ds : List.NoDup (default [] (MessageBus.Map_get eventType
                                         (MessageBus.listeners bus))))
    by (apply (Map_get_values (fun v => List.NoDup v));
        [apply List.NoDup_nil | exact V]).
  assert (S : default [] (MessageBus.Map_get eventType
                            (MessageBus.listeners (MessageBus.on bus eventType listener)))
              = MessageBus.Set_add listener
                  (default [] (MessageBus.Map_get eventType (MessageBus.listeners bus)))).
  { rewrite (on_listeners bus _ _ N). cbn [MessageBus.listeners].
    rewrite Map_get_set_eq. reflexivity. }
  assert (C : count_occ Nat.eq_dec
                (default [] (MessageBus.Map_get eventType
                               (MessageBus.listeners
                                  (MessageBus.on bus eventType listener)))) listener
              = 1%nat)
    by (rewrite S; apply Set_add_count, Ds).
  assert (E1 : MessageBus.emit (MessageBus.on bus eventType listener) eventType
               = default [] (MessageBus.Map_get eventType
                               (MessageBus.listeners
                                  (MessageBus.on bus eventType listener)))
                 ++ MessageBus.allListeners bus).
  { unfold MessageBus.emit. f_equal. rewrite (on_listeners bus _ _ N). reflexivity. }
  assert (E2 : MessageBus.emit
                 (MessageBus.on (MessageBus.on bus eventType listener) "*" listener)
                 eventType
               = default [] (MessageBus.Map_get eventType
                               (MessageBus.listeners
                                  (MessageBus.on bus eventType listener)))
                 ++ MessageBus.Set_add listener (MessageBus.allListeners bus)).
  { rewrite on_wildcard. unfold MessageBus.emit.
    cbn [MessageBus.listeners MessageBus.allListeners]. f_equal.
    rewrite (on_listeners bus _ _ N). reflexivity. }
  split; [apply distinct_on; split; assumption |].
  split; [apply distinct_on, distinct_on; split; assumption |].
  split; [apply distinct_unsubscribe; split; assumption |].
  split; [exact I |]. split; [exact C |]. split; [exact E1 |].
  split; [| split; [exact E2 |]; split; [| split]].
  - intros H. rewrite E1, count_occ_app, C.
    rewrite (proj1 (count_occ_not_In Nat.eq_dec _ _) H). reflexivity.
  - rewrite E2, count_occ_app, C, (Set_add_count _ _ A). reflexivity.
  - rewrite I. pose proof (tidy_on bus eventType listener T) as [K _].
    rewrite (on_listeners bus _ _ N) in K |- *. unfold MessageBus.unsubscribe.
    destruct (String.eqb_spec eventType "*"); [contradiction |].
    cbn [MessageBus.listeners MessageBus.allListeners] in K |- *.
    rewrite Map_get_set_eq. cbv zeta.
    set (s := MessageBus.Set_delete listener _).
    assert (Hs : ~ In listener s) by apply Set_delete_gone.
    destruct (length s =? 0)%nat; cbn [MessageBus.listeners].
    + rewrite (Map_get_delete _ _ K). intros [].
    + rewrite Map_get_set_eq. exact Hs.
  - intros O. rewrite (on_listeners bus _ _ N). unfold MessageBus.emit.
    cbn [MessageBus.listeners MessageBus.allListeners].
    rewrite Map_get_set_ne by congruence. reflexivity.
Qed.

Lemma bus_emit_witness :
  count_occ Nat.eq_dec
    (MessageBus.emit
       (MessageBus.on (MessageBus.on MessageBus.create "frame:sent" 3) "*" 3)
       "frame:sent") 3%nat
  = 2%nat.
Proof.
  apply (proj2 (bus_emit MessageBus.create "frame:sent" "frame:sent" 3)).
  - split; constructor.
  - split; constructor.
  - discriminate.
Defined.

(** ** Reception in the UART simulator *)

Section UARTReceiveFacts.
Import JS UARTReceive.

Lemma sample_frame_len f i : len (UARTSimulator.generateSampleFrame f i) = 9.
Proof. reflexivity. Qed.

(** Every sample frame passes the EFuse validator. *)
Lemma sample_frame_valid f i :
  EFuseDecoder.validate (UARTSimulator.generateSampleFrame f i) = None.
Proof.
  unfold UARTSimulator.generateSampleFrame. cbv zeta.
  set (adc := 2048 + f i).
  cbn [Uint8Array_of map app].
  set (hi := to_uint8 (band (shr adc 8) 255)).
  set (lo := to_uint8 (band adc 255)).
  assert (Bhi : byte hi) by apply to_uint8_byte.
  assert (Blo : byte lo) by apply to_uint8_byte.
  change (to_uint8 1) with 1. change (to_uint8 0) with 0.
  change (to_uint8 2) with 2. change (to_uint8 170) with 170.
  change (to_uint8 187) with 187.
  rewrite !(to_uint8_id hi), !(to_uint8_id lo) by assumption.
  assert (Bd : bytes [1; 0; 2; hi; lo]) by literal_bytes.
  rewrite (calculateCrc16_crc16CcittFalse _ Bd).
  set (crc := CRCCalculator.crc16CcittFalse [1; 0; 2; hi; lo]).
  assert (Hc : 0 <= crc < 65536) by apply crc16CcittFalse_range.
  rewrite (high_byte crc Hc), (low_byte crc).
  change [170; 1; 0; 2; hi; lo; crc / 256; crc mod 256; 187]
    with (frame 1 [hi; lo] crc).
  apply validate_frame.
  - unfold byte. lia.
  - literal_bytes.
  - unfold len. cbn [length]. lia.
  - exact Hc.
  - reflexivity.
Qed.

(** One reception: the frame is dropped and counted as an error, or it
    is counted as received and handed to every subscriber. *)
Lemma simulateReceive_cases s timestamp random data :
  let r := simulateReceive s timestamp random data in
  let st := stats s in
  let st' := stats (fst r) in
  readCallbacks (fst r) = readCallbacks s /\ errorRate (fst r) = errorRate s
  /\ AdapterStats.bytesTx st' = AdapterStats.bytesTx st
  /\ AdapterStats.messagesTx st' = AdapterStats.messagesTx st
  /\ ((AdapterStats.errors st' = AdapterStats.errors st + 1
       /\ AdapterStats.messagesRx st' = AdapterStats.messagesRx st
       /\ AdapterStats.bytesRx st' = AdapterStats.bytesRx st
       /\ snd r = []
       /\ exists rate, errorRate s = Some rate /\ ~ (rate == 0)%Q /\ (random < rate)%Q)
      \/ (AdapterStats.errors st' = AdapterStats.errors st
          /\ AdapterStats.messagesRx st' = AdapterStats.messagesRx st + 1
          /\ AdapterStats.bytesRx st' = AdapterStats.bytesRx st + len data
          /\ snd r = map (fun cb => CANHandle.mk_call cb data
                                      (RxMeta.mk timestamp rx (len data) None))
                         (readCallbacks s)
          /\ forall rate, errorRate s = Some rate -> ~ (rate == 0)%Q ->
               (rate <= random)%Q)).
Proof.
  cbv zeta. unfold simulateReceive. cbv zeta.
  destruct (errorRate s) as [rate |] eqn:R.
  - change (default 0%Q (Some rate)) with rate.
    destruct (Qeq_bool rate 0) eqn:Z0; cbn [negb andb].
    + cbn [fst snd stats readCallbacks errorRate AdapterStats.bytesTx
           AdapterStats.messagesTx AdapterStats.errors AdapterStats.messagesRx
           AdapterStats.bytesRx].
      do 4 (split; [reflexivity |]). right. do 4 (split; [reflexivity |]).
      intros rate' [= <-] N. destruct N. apply Qeq_bool_iff, Z0.
    + destruct (Qle_bool rate random) eqn:Le; cbn [negb];
        cbn [fst snd stats readCallbacks errorRate AdapterStats.bytesTx
             AdapterStats.messagesTx AdapterStats.errors AdapterStats.messagesRx
             AdapterStats.bytesRx].
      * do 4 (split; [reflexivity |]). right. do 4 (split; [reflexivity |]).
        intros rate' [= <-] _. apply Qle_bool_iff, Le.
      * do 4 (split; [reflexivity |]). left. do 4 (split; [reflexivity |]).
        exists rate. split; [reflexivity |]. split.
        -- intros E. apply Qeq_bool_iff in E. congruence.
        -- apply Qnot_le_lt. intros L. apply Qle_bool_iff in L. congruence.
  - cbn [andb].
    cbn [fst snd stats readCallbacks errorRate AdapterStats.bytesTx
         AdapterStats.messagesTx AdapterStats.errors AdapterStats.messagesRx
         AdapterStats.bytesRx].
    do 4 (split; [reflexivity |]). right. do 4 (split; [reflexivity |]).
    intros rate. discriminate.
Qed.

(** [simulateReceive] by its two cases. *)
Lemma simulateReceive_drops s timestamp random data :
  snd (simulateReceive s timestamp random data)
  = (if drops s random then []
     else deliver s (data, RxMeta.mk timestamp rx (len data) None))
  /\ AdapterStats.messagesRx (stats (fst (simulateReceive s timestamp random data)))
     = AdapterStats.messagesRx (stats s) + (if drops s random then 0 else 1).
Proof.
  unfold simulateReceive, drops, deliver. cbv zeta.
  destruct (errorRate s) as [rate |].
  - change (default 0%Q (Some rate)) with rate.
    destruct (negb (Qeq_bool rate 0) && negb (Qle_bool rate random));
      cbn [fst snd stats AdapterStats.messagesRx]; split; reflexivity || lia.
  - cbn [andb fst snd stats AdapterStats.messagesRx]. split; reflexivity.
Qed.

Variable floor_sin_500 : Z -> Z.
Variable hrtime : Z -> Z.
Variable random : Z -> Q.

Lemma sendBurst_S n s :
  sendBurst floor_sin_500 hrtime random (S n) s
  = let acc := sendBurst floor_sin_500 hrtime random n s in
    let r := simulateReceive (fst acc) (hrtime (Z.of_nat n)) (random (Z.of_nat n))
               (UARTSimulator.generateSampleFrame floor_sin_500 (Z.of_nat n)) in
    (fst r, snd acc ++ snd r).
Proof.
  unfold sendBurst. rewrite seq_S, fold_left_app. cbn [fold_left Nat.add].
  cbv zeta. destruct (simulateReceive _ _ _ _). reflexivity.
Qed.

Lemma sendBurst_inv n s :
  let r := sendBurst floor_sin_500 hrtime random n s in
  let st := stats s in
  let st' := stats (fst r) in
  readCallbacks (fst r) = readCallbacks s /\ errorRate (fst r) = errorRate s
  /\ AdapterStats.bytesTx st' = AdapterStats.bytesTx st
  /\ AdapterStats.messagesTx st' = AdapterStats.messagesTx st
  /\ AdapterStats.errors st <= AdapterStats.errors st'
  /\ AdapterStats.messagesRx st <= AdapterStats.messagesRx st'
  /\ (AdapterStats.messagesRx st' - AdapterStats.messagesRx st)
     + (AdapterStats.errors st' - AdapterStats.errors st) = Z.of_nat n
  /\ AdapterStats.bytesRx st' - AdapterStats.bytesRx st
     = 9 * (AdapterStats.messagesRx st' - AdapterStats.messagesRx st)
  /\ Z.of_nat (length (snd r))
     = (AdapterStats.messagesRx st' - AdapterStats.messagesRx st)
       * Z.of_nat (length (readCallbacks s))
  /\ (forall c, In c (snd r) ->
        In (CANHandle.callback c) (readCallbacks s)
        /\ EFuseDecoder.validate (CANHandle.chunk c) = None)
  /\ ((errorRate s = None \/ exists rate, errorRate s = Some rate /\ (rate == 0)%Q) ->
      AdapterStats.errors st' = AdapterStats.errors st)
  /\ ((forall i, (random i < 1)%Q) ->
      (exists rate, errorRate s = Some rate /\ (1 <= rate)%Q) ->
      AdapterStats.messagesRx st' = AdapterStats.messagesRx st /\ snd r = []).
Proof.
  cbv zeta. induction n as [| n IH].
  - cbn [sendBurst seq fold_left fst snd length].
    repeat split; try reflexivity; try lia;
      match goal with H : In _ [] |- _ => destruct H end.
  - rewrite sendBurst_S. cbv zeta. cbn [fst snd].
    set (acc := sendBurst floor_sin_500 hrtime random n s) in *.
    destruct IH as (R & E & T1 & T2 & Le & Lm & Sum & By & Ln & Val & No & All).
    pose proof (simulateReceive_cases (fst acc) (hrtime (Z.of_nat n))
                  (random (Z.of_nat n))
                  (UARTSimulator.generateSampleFrame floor_sin_500 (Z.of_nat n))) as C.
    cbv zeta in C. rewrite sample_frame_len in C.
    set (r := simulateReceive _ _ _ _) in *.
    destruct C as (R' & E' & T1' & T2' & C).
    rewrite length_app, Nat2Z.inj_add.
    split; [congruence |]. split; [congruence |].
    split; [congruence |]. split; [congruence |].
    destruct C as [(Ce & Cm & Cb & Cs & rate & Hr & Hn & Hlt)
                  | (Ce & Cm & Cb & Cs & Hge)].
    + rewrite Cs, app_nil_r. cbn [length].
      do 4 (split; [lia |]).
      split; [rewrite Ln, Cm; change (Z.of_nat 0) with 0; ring |].
      split; [exact Val |]. split.
      * intros [H | (rate' & H & H0)]; rewrite E in Hr; [congruence |].
        rewrite H in Hr. injection Hr as ->. contradiction.
      * intros H1 H2. rewrite Cm. apply All; assumption.
    + rewrite Cs, length_map, R.
      do 4 (split; [lia |]).
      split; [rewrite Ln, Cm; ring |].
      split; [| split].
      * intros c I. apply in_app_or in I. destruct I as [I | I]; [apply Val, I |].
        apply in_map_iff in I. destruct I as (cb & <- & I).
        cbn [CANHandle.callback CANHandle.chunk].
        split; [exact I | apply sample_frame_valid].
      * intros H. rewrite Ce. apply No, H.
      * intros H (rate & Hr & H1). exfalso.
        rewrite <- E in Hr. specialize (Hge rate Hr).
        assert (N0 : ~ (rate == 0)%Q).
        { intros Z0. rewrite Z0 in H1. apply Qle_not_lt in H1. apply H1. reflexivity. }
        specialize (Hge N0). pose proof (H (Z.of_nat n)) as Hlt.
        apply (Qle_not_lt _ _ (Qle_trans _ _ _ H1 Hge) Hlt).
Qed.

(** The calls of a burst: the frames that are not dropped, in order,
    each handed to every subscriber in subscription order. *)
Lemma sendBurst_calls n s :
  let r := sendBurst floor_sin_500 hrtime random n s in
  snd r = flat_map (fun i => deliver s (sample floor_sin_500 hrtime i))
                   (kept random n s)
  /\ AdapterStats.messagesRx (stats (fst r)) - AdapterStats.messagesRx (stats s)
     = Z.of_nat (length (kept random n s)).
Proof.
  cbv zeta. induction n as [| n [IH1 IH2]].
  - split; [reflexivity |]. cbn [sendBurst seq fold_left fst kept List.filter length]. lia.
  - rewrite sendBurst_S. cbv zeta. cbn [fst snd].
    destruct (sendBurst_inv n s) as (R & E & _). cbv zeta in R, E.
    set (acc := sendBurst floor_sin_500 hrtime random n s) in *.
    destruct (simulateReceive_drops (fst acc) (hrtime (Z.of_nat n))
                (random (Z.of_nat n))
                (UARTSimulator.generateSampleFrame floor_sin_500 (Z.of_nat n)))
      as [S1 S2].
    rewrite sample_frame_len in S1. rewrite S1, S2, IH1.
    assert (D : drops (fst acc) (random (Z.of_nat n)) = drops s (random (Z.of_nat n)))
      by (unfold drops; rewrite E; reflexivity).
    assert (V : forall d, deliver (fst acc) d = deliver s d)
      by (intros d; unfold deliver; rewrite R; reflexivity).
    rewrite D, V. unfold kept in *.
    rewrite seq_S, List.filter_app, flat_map_app, length_app.
    cbn [Nat.add List.filter].
    destruct (drops s (random (Z.of_nat n))); cbn [negb flat_map length].
    + rewrite !app_nil_r. split; [reflexivity | lia].
    + rewrite app_nil_r. split; [reflexivity | lia].
Qed.

End UARTReceiveFacts.

(** X28. Accounting of a burst in the UART simulator.  Each of the
    [burstSize] sample frames is either counted in [messagesRx], with
    its 9 bytes in [bytesRx], and handed once to every subscriber, or
    counted in [errors] and handed to no one: the calls made are, for
    the frames that are not dropped in the order of their index, one
    call for every subscriber in subscription order, with that frame and
    its meta.  Every chunk handed over passes the EFuse validator.  With
    no error rate or the rate 0 nothing is dropped, and with a rate of 1
    or more (the random numbers being below 1) every frame is dropped. *)
Theorem uart_burst_accounting (floor_sin_500 hrtime : Z -> Z) (random : Z -> Q)
    (burstSize : nat) (s : UARTReceive.t) :
  let r := UARTReceive.sendBurst floor_sin_500 hrtime random burstSize s in
  let st := UARTReceive.stats s in
  let st' := UARTReceive.stats (fst r) in
  let received := AdapterStats.messagesRx st' - AdapterStats.messagesRx st in
  let dropped := AdapterStats.errors st' - AdapterStats.errors st in
  0 <= received /\ 0 <= dropped /\ received + dropped = Z.of_nat burstSize
  /\ AdapterStats.bytesRx st' - AdapterStats.bytesRx st = 9 * received
  /\ Z.of_nat (length (snd r))
     = received * Z.of_nat (length (UARTReceive.readCallbacks s))
  /\ snd r
     = flat_map
         (fun i => map (fun cb =>
                          CANHandle.mk_call cb
                            (UARTSimulator.generateSampleFrame floor_sin_500 (Z.of_nat i))
                            (RxMeta.mk (hrtime (Z.of_nat i)) rx 9 None))
                       (UARTReceive.readCallbacks s))
         (UARTReceive.kept random burstSize s)
  /\ received = Z.of_nat (length (UARTReceive.kept random burstSize s))
  /\ (forall c, In c (snd r) -> EFuseDecoder.validate (CANHandle.chunk c) = None)
  /\ ((UARTReceive.errorRate s = None
       \/ exists rate, UARTReceive.errorRate s = Some rate /\ (rate == 0)%Q) ->
      dropped = 0)
  /\ ((forall i, (random i < 1)%Q) ->
      (exists rate, UARTReceive.errorRate s = Some rate /\ (1 <= rate)%Q) ->
      received = 0 /\ snd r = []).
Proof.
  cbv zeta.
  destruct (sendBurst_inv floor_sin_500 hrtime random burstSize s)
    as (_ & _ & _ & _ & Le & Lm & Sum & By & Ln & Val & No & All).
  destruct (sendBurst_calls floor_sin_500 hrtime random burstSize s) as [Ca Cn].
  do 5 (split; [lia |]). split; [exact Ca |]. split; [exact Cn |].
  split; [intros c I; apply Val, I |]. split.
  - intros H. rewrite (No H). lia.
  - intros H1 H2. destruct (All H1 H2) as [H3 H4]. split; [lia | exact H4].
Qed.

Lemma uart_burst_accounting_witness :
  AdapterStats.errors
    (UARTReceive.stats
       (fst (UARTReceive.sendBurst (fun _ => 0) (fun _ => 0) (fun _ => 0%Q) 3
               (UARTReceive.mk (AdapterStats.mk 0 0 0 0 0) [1%nat] None))))
  - AdapterStats.errors
      (UARTReceive.stats (UARTReceive.mk (AdapterStats.mk 0 0 0 0 0) [1%nat] None))
  = 0
  /\ (AdapterStats.messagesRx
        (UARTReceive.stats
           (fst (UARTReceive.sendBurst (fun _ => 0) (fun _ => 0) (fun _ => 0%Q) 3
                   (UARTReceive.mk (AdapterStats.mk 0 0 0 0 0) [1%nat; 2%nat]
                      (Some 1%Q)))))
      - AdapterStats.messagesRx
          (UARTReceive.stats
             (UARTReceive.mk (AdapterStats.mk 0 0 0 0 0) [1%nat; 2%nat] (Some 1%Q)))
      = 0
      /\ snd (UARTReceive.sendBurst (fun _ => 0) (fun _ => 0) (fun _ => 0%Q) 3
                (UARTReceive.mk (AdapterStats.mk 0 0 0 0 0) [1%nat; 2%nat] (Some 1%Q)))
         = []).
Proof.
  split.
  - apply (uart_burst_accounting (fun _ => 0) (fun _ => 0) (fun _ => 0%Q) 3
             (UARTReceive.mk (AdapterStats.mk 0 0 0 0 0) [1%nat] None)).
    left. reflexivity.
  - apply (uart_burst_accounting (fun _ => 0) (fun _ => 0) (fun _ => 0%Q) 3
             (UARTReceive.mk (AdapterStats.mk 0 0 0 0 0) [1%nat; 2%nat] (Some 1%Q))).
    + intros i. reflexivity.
    + exists 1%Q. split; [reflexivity |]. discriminate.
Defined.
